(** * VitalScope: the scan lifecycle of [App.tsx] and [ImageCapture.tsx]

    A shallow embedding of the stateful core of the application: the
    profile gate, the batch decoding of images, the analysis handler with
    its suspension point, and the bounded history with its storage
    fallback; and, around it, of the service that asks the model
    ([geminiService.ts]), the profile form and the search links of the
    result view.  The browser facilities the code calls ([JSON.parse],
    [JSON.stringify], [localStorage], the string methods) are modelled in
    their own modules; React state is a record, a handler is a function on
    that record, and an exception is an explicit completion. *)

From Stdlib Require Import Ascii String ZArith NArith List Lia.
From Stdlib Require Import Decimal DecimalFacts DecimalZ DecimalString.
From stdpp Require Import base option list strings gmap.

Local Set Warnings "-register-all".
Local Open Scope stdpp_scope.

(* ===================================================================== *)
(** ** JavaScript values the code relies on *)
(* ===================================================================== *)

Module JS.

(** The exceptions that occur in the modelled code. *)
Inductive exn : Type :=
| SyntaxError                      (* JSON.parse on a malformed text *)
| TypeError                        (* property access on null *)
| QuotaExceededError               (* localStorage.setItem on a full store *)
| Error (message : string).        (* new Error(message) *)

(** The completion of a statement list: it returns or it throws. *)
Inductive completion (A : Type) : Type :=
| Normal (a : A)
| Throw (e : exn).
Arguments Normal {A} a.
Arguments Throw {A} e.

(** Sequencing: a throw skips the rest.  With these instances stdpp's
    [x ← c; k] reads as [const x = c; k]. *)
#[global] Instance completion_ret : MRet completion := fun A a => Normal a.
#[global] Instance completion_bind : MBind completion := fun A B k c =>
  match c with
  | Normal a => k a
  | Throw e => Throw e
  end.

(** [try { c } catch (e) { h e }] *)
Definition try_catch {A} (c : completion A) (h : exn -> completion A) : completion A :=
  match c with
  | Normal a => Normal a
  | Throw e => h e
  end.

(** Truthiness of a string: only the empty string is falsy. *)
Definition truthy_string (s : string) : bool :=
  match s with
  | EmptyString => false
  | String _ _ => true
  end.

(** [n.toString()] of an integer: its decimal digits, a minus sign first
    when it is negative. *)
Definition number_string (z : Z) : string := NilZero.string_of_int (Z.to_int z).

(** [error.message].  Every exception of the model is an [Error] object;
    the message of a platform error, which the code never inspects, is
    given as the name of the error. *)
Definition message (e : exn) : string :=
  match e with
  | SyntaxError => "SyntaxError"
  | TypeError => "TypeError"
  | QuotaExceededError => "QuotaExceededError"
  | Error m => m
  end.

End JS.

(* ===================================================================== *)
(** ** JSON texts *)
(* ===================================================================== *)

Module JSON.

(** A JSON value as [JSON.parse] builds it.  A number is kept as the
    literal that denotes it; an object is its list of properties in
    insertion order. *)
Inductive value : Type :=
| JNull
| JBool (b : bool)
| JNum (literal : string)
| JStr (s : string)
| JArr (items : list value)
| JObj (props : list (string * value)).

Definition dquote : ascii := "034"%char.
Definition backslash : ascii := "092"%char.

(** *** JSON.stringify *)

Definition hex_digit (n : N) : ascii :=
  if (n <? 10)%N then ascii_of_N (48 + n) else ascii_of_N (87 + n).

(** QuoteJSONString, one character: the quote, the backslash and the
    control characters are escaped, everything else is copied. *)
Definition quote_char (c : ascii) : string :=
  let n := N_of_ascii c in
  if Ascii.eqb c dquote then String backslash (String dquote EmptyString)
  else if Ascii.eqb c backslash then String backslash (String backslash EmptyString)
  else if (n =? 8)%N then String backslash "b"
  else if (n =? 12)%N then String backslash "f"
  else if (n =? 10)%N then String backslash "n"
  else if (n =? 13)%N then String backslash "r"
  else if (n =? 9)%N then String backslash "t"
  else if (n <? 32)%N then
    String backslash
      (String "u" (String "0" (String "0"
         (String (hex_digit (n / 16)) (String (hex_digit (n mod 16)) EmptyString)))))
  else String c EmptyString.

Fixpoint quote_body (s : string) : string :=
  match s with
  | EmptyString => EmptyString
  | String c s' => quote_char c +:+ quote_body s'
  end.

Definition quote (s : string) : string :=
  String dquote (quote_body s +:+ String dquote EmptyString).

Fixpoint join (sep : string) (l : list string) : string :=
  match l with
  | [] => EmptyString
  | [x] => x
  | x :: l' => x +:+ sep +:+ join sep l'
  end.

Fixpoint stringify (v : value) : string :=
  match v with
  | JNull => "null"
  | JBool true => "true"
  | JBool false => "false"
  | JNum lit => lit
  | JStr s => quote s
  | JArr items => "[" +:+ join "," (map stringify items) +:+ "]"
  | JObj props =>
      "{" +:+ join "," (map (fun kv => quote (fst kv) +:+ ":" +:+ stringify (snd kv)) props)
          +:+ "}"
  end.

(** *** JSON.parse *)

Definition is_ws (c : ascii) : bool :=
  let n := N_of_ascii c in
  ((n =? 32) || (n =? 9) || (n =? 10) || (n =? 13))%N.

Fixpoint skip_ws (s : string) : string :=
  match s with
  | String c s' => if is_ws c then skip_ws s' else s
  | EmptyString => s
  end.

Definition is_digit (c : ascii) : bool :=
  let n := N_of_ascii c in ((48 <=? n) && (n <=? 57))%N.

Definition hex_value (c : ascii) : option N :=
  let n := N_of_ascii c in
  if ((48 <=? n) && (n <=? 57))%N then Some (n - 48)%N
  else if ((97 <=? n) && (n <=? 102))%N then Some (n - 87)%N
  else if ((65 <=? n) && (n <=? 70))%N then Some (n - 55)%N
  else None.

(** The UTF-8 bytes of a code point below 0x10000 (strings of the model
    are byte strings; a text above the ASCII range is its UTF-8 form). *)
Definition utf8 (cp : N) : string :=
  if (cp <? 128)%N then String (ascii_of_N cp) EmptyString
  else if (cp <? 2048)%N then
    String (ascii_of_N (192 + cp / 64))
      (String (ascii_of_N (128 + cp mod 64)) EmptyString)
  else
    String (ascii_of_N (224 + cp / 4096))
      (String (ascii_of_N (128 + (cp / 64) mod 64))
         (String (ascii_of_N (128 + cp mod 64)) EmptyString)).

Definition hex4 (a b c d : ascii) : option N :=
  x3 ← hex_value a; x2 ← hex_value b; x1 ← hex_value c; x0 ← hex_value d;
  Some (((x3 * 16 + x2) * 16 + x1) * 16 + x0)%N.

Definition simple_escape (c : ascii) : option ascii :=
  if Ascii.eqb c dquote then Some dquote
  else if Ascii.eqb c backslash then Some backslash
  else if Ascii.eqb c "/" then Some "/"%char
  else if Ascii.eqb c "b" then Some (ascii_of_N 8)
  else if Ascii.eqb c "f" then Some (ascii_of_N 12)
  else if Ascii.eqb c "n" then Some (ascii_of_N 10)
  else if Ascii.eqb c "r" then Some (ascii_of_N 13)
  else if Ascii.eqb c "t" then Some (ascii_of_N 9)
  else None.

(** The characters of a string literal after its opening quote: the
    decoded string and the text after the closing quote. *)
Fixpoint parse_string_body (s : string) : option (string * string) :=
  match s with
  | EmptyString => None
  | String c s' =>
      if Ascii.eqb c dquote then Some (EmptyString, s')
      else if Ascii.eqb c backslash then
        match s' with
        | String "u" (String h3 (String h2 (String h1 (String h0 s'')))) =>
            cp ← hex4 h3 h2 h1 h0;
            '(str, rest) ← parse_string_body s'';
            Some (utf8 cp +:+ str, rest)
        | String e s'' =>
            c' ← simple_escape e;
            '(str, rest) ← parse_string_body s'';
            Some (String c' str, rest)
        | EmptyString => None
        end
      else if (N_of_ascii c <? 32)%N then None
      else
        '(str, rest) ← parse_string_body s';
        Some (String c str, rest)
  end.

Fixpoint take_digits (s : string) : string * string :=
  match s with
  | String c s' =>
      if is_digit c then let '(ds, rest) := take_digits s' in (String c ds, rest)
      else (EmptyString, s)
  | EmptyString => (EmptyString, s)
  end.

(** [frac?]: a point and at least one digit, or nothing. *)
Definition parse_fraction (s : string) : option (string * string) :=
  match s with
  | String "." r =>
      let '(ds, r') := take_digits r in
      match ds with
      | EmptyString => None
      | String _ _ => Some ("." +:+ ds, r')
      end
  | _ => Some (EmptyString, s)
  end.

(** [exp?]: e or E, a sign or none, at least one digit; or nothing. *)
Definition parse_exponent (s : string) : option (string * string) :=
  match s with
  | String e r =>
      if Ascii.eqb e "e" || Ascii.eqb e "E" then
        let '(sg, r1) :=
          match r with
          | String "+" r1 => ("+", r1)
          | String "-" r1 => ("-", r1)
          | _ => (EmptyString, r)
          end in
        let '(ds, r2) := take_digits r1 in
        match ds with
        | EmptyString => None
        | String _ _ => Some (String e (sg +:+ ds), r2)
        end
      else Some (EmptyString, s)
  | EmptyString => Some (EmptyString, s)
  end.

(** [-? int frac? exp?]: the literal and the text after it.  The integer
    part has a digit and no zero before another digit. *)
Definition parse_number (s : string) : option (string * string) :=
  let '(sign, s1) :=
    match s with
    | String "-" r => ("-", r)
    | _ => (EmptyString, s)
    end in
  let '(int, s2) := take_digits s1 in
  match int with
  | EmptyString => None
  | String "0" (String _ _) => None
  | _ =>
      '(frac, s3) ← parse_fraction s2;
      '(expo, s4) ← parse_exponent s3;
      Some (sign +:+ int +:+ frac +:+ expo, s4)
  end.

(** A property set twice keeps its first position and its last value. *)
Fixpoint set_prop (k : string) (v : value) (props : list (string * value))
  : list (string * value) :=
  match props with
  | [] => [(k, v)]
  | (k', v') :: props' =>
      if String.eqb k k' then (k', v) :: props' else (k', v') :: set_prop k v props'
  end.

Section Composite.
(** The parser of one value, one nesting level below. *)
Variable parse_value : string -> option (value * string).

(** The elements of an array after the first bracket, the array not
    being empty; [acc] holds the elements read so far, last first. *)
Fixpoint parse_elements (fuel : nat) (acc : list value) (s : string)
  : option (value * string) :=
  match fuel with
  | O => None
  | S fuel' =>
      '(v, r) ← parse_value s;
      match skip_ws r with
      | String "," r' => parse_elements fuel' (v :: acc) r'
      | String "]" r' => Some (JArr (rev (v :: acc)), r')
      | _ => None
      end
  end.

(** The members of an object after the brace, the object not being
    empty. *)
Fixpoint parse_members (fuel : nat) (acc : list (string * value)) (s : string)
  : option (value * string) :=
  match fuel with
  | O => None
  | S fuel' =>
      match skip_ws s with
      | String q r0 =>
          if Ascii.eqb q dquote then
            '(k, r1) ← parse_string_body r0;
            match skip_ws r1 with
            | String ":" r2 =>
                '(v, r3) ← parse_value r2;
                match skip_ws r3 with
                | String "," r4 => parse_members fuel' (set_prop k v acc) r4
                | String "}" r4 => Some (JObj (set_prop k v acc), r4)
                | _ => None
                end
            | _ => None
            end
          else None
      | EmptyString => None
      end
  end.
End Composite.

Fixpoint parse_value (fuel : nat) (s : string) : option (value * string) :=
  match fuel with
  | O => None
  | S fuel' =>
      match skip_ws s with
      | String "n" (String "u" (String "l" (String "l" r))) => Some (JNull, r)
      | String "t" (String "r" (String "u" (String "e" r))) => Some (JBool true, r)
      | String "f" (String "a" (String "l" (String "s" (String "e" r)))) =>
          Some (JBool false, r)
      | String "[" r =>
          match skip_ws r with
          | String "]" r' => Some (JArr [], r')
          | _ => parse_elements (parse_value fuel') fuel' [] r
          end
      | String "{" r =>
          match skip_ws r with
          | String "}" r' => Some (JObj [], r')
          | _ => parse_members (parse_value fuel') fuel' [] r
          end
      | String c r =>
          if Ascii.eqb c dquote then
            '(str, r') ← parse_string_body r; Some (JStr str, r')
          else
            '(lit, r') ← parse_number (String c r); Some (JNum lit, r')
      | EmptyString => None
      end
  end.

(** [JSON.parse text]: one value, blanks around it, nothing else; [None]
    is the SyntaxError.  Every level of nesting and every element costs
    at least one character, so the length of the text is fuel enough. *)
Definition parse (text : string) : option value :=
  '(v, r) ← parse_value (S (String.length text)) text;
  match skip_ws r with
  | EmptyString => Some v
  | String _ _ => None
  end.

(** Property access [v.k] on a parsed value that is not null: the
    property of an object, undefined ([None]) anywhere else. *)
Fixpoint lookup_prop (k : string) (props : list (string * value)) : option value :=
  match props with
  | [] => None
  | (k', v) :: props' => if String.eqb k k' then Some v else lookup_prop k props'
  end.

Definition get (v : value) (k : string) : option value :=
  match v with
  | JObj props => lookup_prop k props
  | _ => None
  end.

(** [v.k] for any parsed value: reading a property of null throws. *)
Definition property (v : value) (k : string) : JS.completion (option value) :=
  match v with
  | JNull => JS.Throw JS.TypeError
  | _ => JS.Normal (get v k)
  end.

(** The digits of a literal before its exponent, read as one number
    [m], the count [f] of those after the point, and the text of the
    exponent: the literal denotes m * 10^(exponent - f), up to its
    sign. *)
Fixpoint scan_mantissa (lit : string) (point : bool) (m f : N) : N * N * string :=
  match lit with
  | EmptyString => (m, f, EmptyString)
  | String c lit' =>
      if Ascii.eqb c "e" || Ascii.eqb c "E" then (m, f, lit')
      else if Ascii.eqb c "." then scan_mantissa lit' true m f
      else if is_digit c then
        scan_mantissa lit' point (10 * m + (N_of_ascii c - 48)) (if point then f + 1 else f)
      else scan_mantissa lit' point m f
  end.

Fixpoint digits_value (s : string) (acc : N) : N :=
  match s with
  | EmptyString => acc
  | String c s' => digits_value s' (if is_digit c then 10 * acc + (N_of_ascii c - 48) else acc)
  end.

Definition exponent (s : string) : Z :=
  match s with
  | String c s' => if Ascii.eqb c "-" then - Z.of_N (digits_value s' 0)
                   else Z.of_N (digits_value s 0)
  | EmptyString => 0
  end.

(** The number a literal is read as is zero: its digits are all zeros,
    or it is so small that the nearest double is zero, which is the
    case up to 2^-1075, the half of the smallest double above zero. *)
Definition zero_literal (lit : string) : bool :=
  let '(m, f, ex) := scan_mantissa lit false 0 0 in
  let e10 := (exponent ex - Z.of_N f)%Z in
  (m =? 0)%N || ((e10 <? 0)%Z && (Z.of_N m * 2 ^ 1075 <=? 10 ^ (- e10))%Z).

(** Truthiness of what a property access yields; [None] is undefined. *)
Definition truthy (o : option value) : bool :=
  match o with
  | None => false
  | Some JNull => false
  | Some (JBool b) => b
  | Some (JNum lit) => negb (zero_literal lit)
  | Some (JStr s) => JS.truthy_string s
  | Some (JArr _) => true
  | Some (JObj _) => true
  end.

(** [JSON.parse] as the code calls it. *)
Definition parse_or_throw (text : string) : JS.completion value :=
  match parse text with
  | Some v => JS.Normal v
  | None => JS.Throw JS.SyntaxError
  end.

(** *** The texts JSON.stringify writes

    What follows a value inside a text that [stringify] wrote: nothing,
    a comma, or a closing bracket or brace. *)
Definition delimited (rest : string) : Prop :=
  match rest with
  | EmptyString => True
  | String c _ => c = ","%char ∨ c = "]"%char ∨ c = "}"%char
  end.

(** A number literal as [stringify] writes one: it starts with a digit or
    a minus sign and is read back whole. *)
Definition literal (lit : string) : Prop :=
  (exists c s, lit = String c s ∧ (c = "-"%char ∨ is_digit c = true))
  ∧ forall rest, delimited rest -> parse_number (lit +:+ rest) = Some (lit, rest).

(** The values [stringify] writes for the documents of the application:
    numbers are such literals and no object has a key twice. *)
Fixpoint written (v : value) : Prop :=
  match v with
  | JNum lit => literal lit
  | JArr items =>
      (fix all (l : list value) : Prop :=
         match l with
         | [] => True
         | x :: l' => written x ∧ all l'
         end) items
  | JObj props =>
      NoDup (map fst props)
      ∧ (fix all (l : list (string * value)) : Prop :=
           match l with
           | [] => True
           | kv :: l' => written (snd kv) ∧ all l'
           end) props
  | _ => True
  end.

(** Fuel that is enough to read a written value back. *)
Fixpoint size (v : value) : nat :=
  match v with
  | JArr items => S (sum_list (map size items))
  | JObj props => S (sum_list (map (fun kv => size (snd kv)) props))
  | _ => 1
  end.

(** One member of an object, as written. *)
Definition member (kv : string * value) : string :=
  quote (fst kv) +:+ ":" +:+ stringify (snd kv).

End JSON.

(* ===================================================================== *)
(** ** window.localStorage *)
(* ===================================================================== *)

Module LocalStorage.

(** The store of one origin: its items and the room the browser grants
    it, counted in characters of keys and values. *)
Record t : Type := { items : gmap string string; quota : N }.

Definition usage (m : gmap string string) : N :=
  map_fold (fun k v n => N.of_nat (String.length k) + N.of_nat (String.length v) + n)%N
    0%N m.

(** [getItem] returns null ([None]) for a key that is not set. *)
Definition getItem (k : string) (ls : t) : option string := items ls !! k.

(** [setItem] throws when the store would outgrow its quota, and then
    leaves the store as it was. *)
Definition setItem (k v : string) (ls : t) : JS.completion t :=
  let items' := <[k := v]> (items ls) in
  if decide (usage items' <= quota ls)%N
  then JS.Normal {| items := items'; quota := quota ls |}
  else JS.Throw JS.QuotaExceededError.

Definition removeItem (k : string) (ls : t) : t :=
  {| items := delete k (items ls); quota := quota ls |}.

End LocalStorage.

(* ===================================================================== *)
(** ** types.ts *)
(* ===================================================================== *)

(** ['male' | 'female' | 'other' | ''] *)
Inductive Gender : Type := male | female | other | unset.

Record UserProfile : Type := {
  age : string;
  gender : Gender;
  healthContext : string
}.

Record RecommendedProduct : Type := {
  product_name : string;      (* name *)
  product_reason : string     (* reason *)
}.

(** The three numbers are integers here, as the response schema asks
    them of the model.  The interface declares them [number]: a value
    with a fraction is not a value of this record, and [Doc.to_calories]
    reads none from a document that holds one. *)
Record CalorieAnalysis : Type := {
  productCalories : Z;
  userDailyNeed : Z;
  percentage : Z;
  note : string
}.

Record ImageQualityCheck : Type := {
  isUnclear : bool;
  reason : string
}.

Record AnalysisResult : Type := {
  imageQualityCheck : ImageQualityCheck;
  calorieAnalysis : option CalorieAnalysis;
  summary : string;
  pros : list string;
  cons : list string;
  recommendations : list RecommendedProduct
}.

Record ScanHistoryItem : Type := {
  id : string;
  timestamp : Z;
  result : AnalysisResult;
  imagePreviewUrl : option string
}.

Inductive AppState : Type := ONBOARDING | DASHBOARD.

(** ['scan' | 'history' | 'settings'], the type of [activeTab]. *)
Inductive Tab : Type := scan | history_tab | settings.

(** *** The documents the values are written as

    The order of the properties is the order in which the code creates
    them: the object literals of [App.tsx] for a profile and a history
    item, the order of the interface for an analysis result. *)

Module Doc.
Import JSON.

Definition gender_string (g : Gender) : string :=
  match g with
  | male => "male"
  | female => "female"
  | other => "other"
  | unset => EmptyString
  end.

Definition of_profile (p : UserProfile) : value :=
  JObj [("age", JStr (age p));
        ("gender", JStr (gender_string (gender p)));
        ("healthContext", JStr (healthContext p))].

Definition of_number (z : Z) : value := JNum (JS.number_string z).

Definition of_quality (q : ImageQualityCheck) : value :=
  JObj [("isUnclear", JBool (isUnclear q)); ("reason", JStr (reason q))].

Definition of_calories (c : CalorieAnalysis) : value :=
  JObj [("productCalories", of_number (productCalories c));
        ("userDailyNeed", of_number (userDailyNeed c));
        ("percentage", of_number (percentage c));
        ("note", JStr (note c))].

Definition of_product (r : RecommendedProduct) : value :=
  JObj [("name", JStr (product_name r)); ("reason", JStr (product_reason r))].

(** A property whose value is undefined is left out by JSON.stringify. *)
Definition optional (k : string) (o : option value) : list (string * value) :=
  match o with
  | Some v => [(k, v)]
  | None => []
  end.

Definition of_result (r : AnalysisResult) : value :=
  JObj ([("imageQualityCheck", of_quality (imageQualityCheck r))]
        ++ optional "calorieAnalysis" (of_calories <$> calorieAnalysis r)
        ++ [("summary", JStr (summary r));
            ("pros", JArr (JStr <$> pros r));
            ("cons", JArr (JStr <$> cons r));
            ("recommendations", JArr (of_product <$> recommendations r))]).

Definition of_item (h : ScanHistoryItem) : value :=
  JObj ([("id", JStr (id h));
         ("timestamp", of_number (timestamp h));
         ("result", of_result (result h))]
        ++ optional "imagePreviewUrl" (JStr <$> imagePreviewUrl h)).

Definition of_history (l : list ScanHistoryItem) : value := JArr (of_item <$> l).

(** *** Reading a parsed document through the interfaces of types.ts

    The casts of the code check nothing; these readers say which parsed
    values have the declared shape. *)

Definition to_string (v : value) : option string :=
  match v with JStr s => Some s | _ => None end.

Definition to_bool (v : value) : option bool :=
  match v with JBool b => Some b | _ => None end.

(** The integer a literal denotes, for a literal with neither fraction
    nor exponent. *)
Definition to_number (v : value) : option Z :=
  match v with
  | JNum lit => Z.of_int <$> NilZero.int_of_string lit
  | _ => None
  end.

Definition to_list {A} (f : value -> option A) (v : value) : option (list A) :=
  match v with
  | JArr items => mapM f items
  | _ => None
  end.

Definition to_gender (v : value) : option Gender :=
  s ← to_string v;
  if String.eqb s "male" then Some male
  else if String.eqb s "female" then Some female
  else if String.eqb s "other" then Some other
  else if String.eqb s EmptyString then Some unset
  else None.

Definition to_profile (v : value) : option UserProfile :=
  a ← get v "age" ≫= to_string;
  g ← get v "gender" ≫= to_gender;
  h ← get v "healthContext" ≫= to_string;
  Some {| age := a; gender := g; healthContext := h |}.

Definition to_quality (v : value) : option ImageQualityCheck :=
  u ← get v "isUnclear" ≫= to_bool;
  r ← get v "reason" ≫= to_string;
  Some {| isUnclear := u; reason := r |}.

Definition to_calories (v : value) : option CalorieAnalysis :=
  pc ← get v "productCalories" ≫= to_number;
  dn ← get v "userDailyNeed" ≫= to_number;
  pct ← get v "percentage" ≫= to_number;
  n ← get v "note" ≫= to_string;
  Some {| productCalories := pc; userDailyNeed := dn; percentage := pct; note := n |}.

Definition to_product (v : value) : option RecommendedProduct :=
  n ← get v "name" ≫= to_string;
  r ← get v "reason" ≫= to_string;
  Some {| product_name := n; product_reason := r |}.

(** An optional property: absent, or present with the declared shape. *)
Definition to_optional {A} (f : value -> option A) (o : option value)
  : option (option A) :=
  match o with
  | None => Some None
  | Some v => Some <$> f v
  end.

Definition to_result (v : value) : option AnalysisResult :=
  q ← get v "imageQualityCheck" ≫= to_quality;
  c ← to_optional to_calories (get v "calorieAnalysis");
  s ← get v "summary" ≫= to_string;
  ps ← get v "pros" ≫= to_list to_string;
  cs ← get v "cons" ≫= to_list to_string;
  rs ← get v "recommendations" ≫= to_list to_product;
  Some {| imageQualityCheck := q; calorieAnalysis := c; summary := s;
          pros := ps; cons := cs; recommendations := rs |}.

Definition to_item (v : value) : option ScanHistoryItem :=
  i ← get v "id" ≫= to_string;
  t ← get v "timestamp" ≫= to_number;
  r ← get v "result" ≫= to_result;
  u ← to_optional to_string (get v "imagePreviewUrl");
  Some {| id := i; timestamp := t; result := r; imagePreviewUrl := u |}.

Definition to_history (v : value) : option (list ScanHistoryItem) :=
  to_list to_item v.

End Doc.

(* ===================================================================== *)
(** ** App.tsx: state *)
(* ===================================================================== *)

(** The closure of one call of [handleAnalysis]: the profile and the
    images of the render in which the call was made.  The code after the
    [await] reads these, not the state of the time the response arrives. *)
Record Attempt : Type := {
  attemptProfile : UserProfile;
  attemptImages : list string
}.

(** The state of the [App] component together with what it acts on: the
    store, the alerts shown and the calls made to [analyzeHealthImpact]
    (both latest first). *)
Record World : Type := {
  appState : AppState;
  userProfile : UserProfile;
  activeTab : Tab;
  selectedImages : list string;
  isAnalyzing : bool;
  currentResult : option AnalysisResult;
  history : list ScanHistoryItem;
  localStorage : LocalStorage.t;
  alerts : list string;
  requests : list Attempt
}.

Definition setAppState (x : AppState) (w : World) : World :=
  {| appState := x; userProfile := userProfile w; activeTab := activeTab w;
     selectedImages := selectedImages w; isAnalyzing := isAnalyzing w;
     currentResult := currentResult w; history := history w;
     localStorage := localStorage w; alerts := alerts w; requests := requests w |}.

Definition setUserProfile (x : UserProfile) (w : World) : World :=
  {| appState := appState w; userProfile := x; activeTab := activeTab w;
     selectedImages := selectedImages w; isAnalyzing := isAnalyzing w;
     currentResult := currentResult w; history := history w;
     localStorage := localStorage w; alerts := alerts w; requests := requests w |}.

Definition setActiveTab (x : Tab) (w : World) : World :=
  {| appState := appState w; userProfile := userProfile w; activeTab := x;
     selectedImages := selectedImages w; isAnalyzing := isAnalyzing w;
     currentResult := currentResult w; history := history w;
     localStorage := localStorage w; alerts := alerts w; requests := requests w |}.

Definition setSelectedImages (x : list string) (w : World) : World :=
  {| appState := appState w; userProfile := userProfile w; activeTab := activeTab w;
     selectedImages := x; isAnalyzing := isAnalyzing w;
     currentResult := currentResult w; history := history w;
     localStorage := localStorage w; alerts := alerts w; requests := requests w |}.

Definition setIsAnalyzing (x : bool) (w : World) : World :=
  {| appState := appState w; userProfile := userProfile w; activeTab := activeTab w;
     selectedImages := selectedImages w; isAnalyzing := x;
     currentResult := currentResult w; history := history w;
     localStorage := localStorage w; alerts := alerts w; requests := requests w |}.

Definition setCurrentResult (x : option AnalysisResult) (w : World) : World :=
  {| appState := appState w; userProfile := userProfile w; activeTab := activeTab w;
     selectedImages := selectedImages w; isAnalyzing := isAnalyzing w;
     currentResult := x; history := history w;
     localStorage := localStorage w; alerts := alerts w; requests := requests w |}.

Definition setHistory (x : list ScanHistoryItem) (w : World) : World :=
  {| appState := appState w; userProfile := userProfile w; activeTab := activeTab w;
     selectedImages := selectedImages w; isAnalyzing := isAnalyzing w;
     currentResult := currentResult w; history := x;
     localStorage := localStorage w; alerts := alerts w; requests := requests w |}.

Definition setLocalStorage (x : LocalStorage.t) (w : World) : World :=
  {| appState := appState w; userProfile := userProfile w; activeTab := activeTab w;
     selectedImages := selectedImages w; isAnalyzing := isAnalyzing w;
     currentResult := currentResult w; history := history w;
     localStorage := x; alerts := alerts w; requests := requests w |}.

(** [alert(msg)] *)
Definition alert (msg : string) (w : World) : World :=
  {| appState := appState w; userProfile := userProfile w; activeTab := activeTab w;
     selectedImages := selectedImages w; isAnalyzing := isAnalyzing w;
     currentResult := currentResult w; history := history w;
     localStorage := localStorage w; alerts := msg :: alerts w; requests := requests w |}.

(** A call of [analyzeHealthImpact(profile, images)]. *)
Definition request (a : Attempt) (w : World) : World :=
  {| appState := appState w; userProfile := userProfile w; activeTab := activeTab w;
     selectedImages := selectedImages w; isAnalyzing := isAnalyzing w;
     currentResult := currentResult w; history := history w;
     localStorage := localStorage w; alerts := alerts w; requests := a :: requests w |}.

(** What a handler leaves behind: the state after its updates, or the
    exception that escaped it together with the state of the updates made
    before the throw.  An exception that escapes the mount effect or a
    state updater escapes a render of React, which has no error boundary
    in this application. *)
Inductive outcome : Type :=
| Done (w : World)
| Uncaught (e : JS.exn) (w : World).

(** The state an outcome leaves.  After an exception of an event handler
    the component goes on from this state.  After an exception of a state
    updater React takes the component off the page: of this state only
    the store lives on, for the next start, and nothing is rendered or
    offered from it. *)
Definition after (o : outcome) : World :=
  match o with
  | Done w => w
  | Uncaught _ w => w
  end.

Definition profile_key : string := "sukoyaka_profile".
Definition history_key : string := "sukoyaka_history".

(** The state of the first render, for a given store. *)
Definition initial (ls : LocalStorage.t) : World :=
  {| appState := ONBOARDING;
     userProfile := {| age := EmptyString; gender := unset; healthContext := EmptyString |};
     activeTab := scan;
     selectedImages := [];
     isAnalyzing := false;
     currentResult := None;
     history := [];
     localStorage := ls;
     alerts := [];
     requests := [] |}.

(* ===================================================================== *)
(** ** App.tsx: the mount effect *)
(* ===================================================================== *)

(** What the effect hands to the setters: the parsed documents, unread,
    and the screen it routes to.  [None] is a setter that is not called. *)
Record Loaded : Type := {
  loadedProfile : option JSON.value;
  loadedAppState : option AppState;
  loadedHistory : option JSON.value
}.

(** [if (savedProfile) { ... }] *)
Definition load_profile (ls : LocalStorage.t)
  : JS.completion (option JSON.value * option AppState) :=
  match LocalStorage.getItem profile_key ls with
  | Some savedProfile =>
      if JS.truthy_string savedProfile then
        parsedProfile ← JSON.parse_or_throw savedProfile;
        a ← JSON.property parsedProfile "age";
        if JSON.truthy a then
          h ← JSON.property parsedProfile "healthContext";
          mret (Some parsedProfile, Some (if JSON.truthy h then DASHBOARD else ONBOARDING))
        else mret (Some parsedProfile, Some ONBOARDING)
      else mret (None, None)
  | None => mret (None, None)
  end.

(** [if (savedHistory) { setHistory(JSON.parse(savedHistory)) }] *)
Definition load_history (ls : LocalStorage.t) : JS.completion (option JSON.value) :=
  match LocalStorage.getItem history_key ls with
  | Some savedHistory =>
      if JS.truthy_string savedHistory then
        parsed ← JSON.parse_or_throw savedHistory; mret (Some parsed)
      else mret None
  | None => mret None
  end.

(** The body of [useEffect(() => { ... }, [])]. *)
Definition initialize (ls : LocalStorage.t) : JS.completion Loaded :=
  pa ← load_profile ls;
  h ← load_history ls;
  mret {| loadedProfile := pa.1; loadedAppState := pa.2; loadedHistory := h |}.

(** The state of a persisted document, as the effect meets it: no item
    (or the empty string, which the guard treats alike), a text that is
    not JSON, or a text that parses. *)
Inductive DocState : Type :=
| Absent
| Malformed
| Parsed (v : JSON.value).

Definition doc_state (item : option string) : DocState :=
  match item with
  | None => Absent
  | Some text =>
      if JS.truthy_string text then
        match JSON.parse text with
        | Some v => Parsed v
        | None => Malformed
        end
      else Absent
  end.

Definition parsed (d : DocState) : option JSON.value :=
  match d with
  | Parsed v => Some v
  | _ => None
  end.

(** The screen the effect routes a parsed profile to. *)
Definition route (v : JSON.value) : AppState :=
  if JSON.truthy (JSON.get v "age") && JSON.truthy (JSON.get v "healthContext")
  then DASHBOARD else ONBOARDING.

(** The state after the effect, the documents read through the interfaces
    of types.ts; [None] when a document does not have the declared shape. *)
Definition apply_loaded (l : Loaded) (w : World) : option World :=
  p ← match loadedProfile l with
      | Some v => Doc.to_profile v
      | None => Some (userProfile w)
      end;
  h ← match loadedHistory l with
      | Some v => Doc.to_history v
      | None => Some (history w)
      end;
  Some (setHistory h (setAppState (default (appState w) (loadedAppState l))
                        (setUserProfile p w))).

(* ===================================================================== *)
(** ** App.tsx: handlers *)
(* ===================================================================== *)

Definition strip_preview (h : ScanHistoryItem) : ScanHistoryItem :=
  {| id := id h; timestamp := timestamp h; result := result h; imagePreviewUrl := None |}.

(** The updater given to [setHistory]: the new array and the store after
    the write.  The write of the catch block is not itself guarded. *)
Definition history_updater (item : ScanHistoryItem)
    (prev : list ScanHistoryItem) (ls : LocalStorage.t)
  : JS.completion (list ScanHistoryItem * LocalStorage.t) :=
  let updated := item :: prev in
  let updated := if (20 <? length updated)%nat then removelast updated else updated in
  ls' ← JS.try_catch
          (LocalStorage.setItem history_key (JSON.stringify (Doc.of_history updated)) ls)
          (fun e =>
             let noImageHistory := strip_preview <$> updated in
             LocalStorage.setItem history_key
               (JSON.stringify (Doc.of_history noImageHistory)) ls);
  mret (updated, ls').

(** The item [saveToHistory] creates. *)
Definition newItem (result : AnalysisResult) (images : list string) (idNow tsNow : Z)
  : ScanHistoryItem :=
  {| id := JS.number_string idNow; timestamp := tsNow; result := result;
     imagePreviewUrl := head images |}.

(** [saveToHistory(result, images)]; [idNow] and [tsNow] are the two
    readings of [Date.now()].  The quality check of a typed result is an
    object, hence truthy, and the guard is its [isUnclear].  React runs
    the updater when it renders the component, after the caller has been
    left: an exception of the updater is caught by no handler. *)
Definition saveToHistory (result : AnalysisResult) (images : list string)
    (idNow tsNow : Z) (w : World) : outcome :=
  if isUnclear (imageQualityCheck result) then Done w
  else
    match history_updater (newItem result images idNow tsNow)
            (history w) (localStorage w) with
    | JS.Normal (updated, ls') => Done (setLocalStorage ls' (setHistory updated w))
    | JS.Throw e => Uncaught e w
    end.

(** [clearHistory], given the answer to [window.confirm]. *)
Definition clearHistory (confirmed : bool) (w : World) : World :=
  if confirmed
  then setLocalStorage (LocalStorage.removeItem history_key (localStorage w))
         (setHistory [] w)
  else w.

Definition handleProfileSave (profile : UserProfile) (w : World) : outcome :=
  let w1 := setUserProfile profile w in
  match LocalStorage.setItem profile_key (JSON.stringify (Doc.of_profile profile))
          (localStorage w1) with
  | JS.Normal ls' => Done (setActiveTab scan (setAppState DASHBOARD (setLocalStorage ls' w1)))
  | JS.Throw e => Uncaught e w1
  end.

(** [handleAnalysis] up to its [await]: the state, and the attempt that
    is now in flight if the call was made. *)
Definition handleAnalysis (w : World) : World * option Attempt :=
  match selectedImages w with
  | [] => (w, None)
  | _ :: _ =>
      let a := {| attemptProfile := userProfile w; attemptImages := selectedImages w |} in
      (request a (setCurrentResult None (setIsAnalyzing true w)), Some a)
  end.

(** How the promise of [analyzeHealthImpact] settles. *)
Inductive Settlement : Type :=
| Fulfilled (result : AnalysisResult)
| Rejected (error : JS.exn).

(** [handleAnalysis] from its [await] on, run in the state of the time
    the promise settles; [a] is the closure of the call. *)
Definition handleAnalysis_resume (a : Attempt) (s : Settlement) (idNow tsNow : Z)
    (w : World) : outcome :=
  match s with
  | Fulfilled result =>
      match saveToHistory result (attemptImages a) idNow tsNow
              (setCurrentResult (Some result) w) with
      | Done w' => Done (setIsAnalyzing false w')
      | Uncaught e w' => Uncaught e (setIsAnalyzing false w')
      end
  | Rejected error => Done (setIsAnalyzing false (alert (JS.message error) w))
  end.

Definition resetScan (w : World) : World :=
  setCurrentResult None (setSelectedImages [] w).

Definition loadHistoryItem (item : ScanHistoryItem) (w : World) : World :=
  setActiveTab scan (setCurrentResult (Some (result item)) w).

(** [userProfile.age && userProfile.gender && userProfile.healthContext],
    as the conditions of the render read it. *)
Definition isProfileConfigured (p : UserProfile) : bool :=
  JS.truthy_string (age p)
  && JS.truthy_string (Doc.gender_string (gender p))
  && JS.truthy_string (healthContext p).

(* ===================================================================== *)
(** ** App.tsx: what is rendered, and the events it offers *)
(* ===================================================================== *)

Inductive ScanPane : Type :=
| Locked                                (* the card that sends to the settings *)
| Capture (analyze : option bool)       (* ImageCapture; the analyze button when
                                           it is rendered, and whether it is enabled *)
| ResultView (r : AnalysisResult).      (* AnalysisView, onRetry = resetScan *)

Inductive Pane : Type :=
| ScanTab (p : ScanPane)
| HistoryTab (clear : bool) (items : list ScanHistoryItem)
| SettingsTab.                          (* UserProfileForm, isEditing *)

Inductive Screen : Type :=
| OnboardingForm                        (* UserProfileForm alone *)
| Main (back : bool) (pane : Pane).

Definition render_scan (w : World) : ScanPane :=
  if negb (isProfileConfigured (userProfile w)) then Locked
  else match currentResult w with
       | None =>
           Capture (match selectedImages w with
                    | [] => None
                    | _ :: _ => Some (negb (isAnalyzing w))
                    end)
       | Some r => ResultView r
       end.

Definition render (w : World) : Screen :=
  match appState w with
  | ONBOARDING => OnboardingForm
  | DASHBOARD =>
      match activeTab w with
      | scan => Main (bool_decide (is_Some (currentResult w))) (ScanTab (render_scan w))
      | history_tab =>
          Main false (HistoryTab (bool_decide (history w ≠ [])) (history w))
      | settings => Main false SettingsTab
      end
  end.

(** The handlers a user or the environment can set off.  A click is
    offered only while the control that carries it is rendered and
    enabled; a batch of decoded images and the settlement of a promise
    arrive whatever is rendered. *)
Inductive Event : Type :=
| SaveProfile (p : UserProfile)          (* UserProfileForm calls onSave *)
| ImagesSelected (images : list string)  (* ImageCapture calls onImagesSelected *)
| ClickAnalyze
| ClickRetry
| ClickBack
| ClickSetup
| ClickTab (t : Tab)
| ClickClearHistory (confirmed : bool)
| ClickHistoryItem (i : nat)
| Settled (a : Attempt) (s : Settlement) (idNow tsNow : Z).

Definition offered (w : World) (ev : Event) : bool :=
  match ev, render w with
  | SaveProfile _, OnboardingForm => true
  | SaveProfile _, Main _ SettingsTab => true
  | ImagesSelected _, _ => true
  | ClickAnalyze, Main _ (ScanTab (Capture (Some enabled))) => enabled
  | ClickRetry, Main _ (ScanTab (ResultView r)) => isUnclear (imageQualityCheck r)
  | ClickBack, Main back _ => back
  | ClickSetup, Main _ (ScanTab Locked) => true
  | ClickTab _, Main _ _ => true
  | ClickClearHistory _, Main _ (HistoryTab clear _) => clear
  | ClickHistoryItem i, Main _ (HistoryTab _ items) => bool_decide (i < length items)
  | Settled _ _ _ _, _ => true
  | _, _ => false
  end.

(** The handler behind each event. *)
Definition handle (ev : Event) (w : World) : outcome :=
  match ev with
  | SaveProfile p => handleProfileSave p w
  | ImagesSelected images => Done (setSelectedImages images w)
  | ClickAnalyze => Done (handleAnalysis w).1
  | ClickRetry => Done (resetScan w)
  | ClickBack => Done (resetScan w)
  | ClickSetup => Done (setActiveTab settings w)
  | ClickTab scan => Done (setActiveTab scan (resetScan w))
  | ClickTab t => Done (setActiveTab t w)
  | ClickClearHistory confirmed => Done (clearHistory confirmed w)
  | ClickHistoryItem i =>
      match history w !! i with
      | Some item => Done (loadHistoryItem item w)
      | None => Done w
      end
  | Settled a s idNow tsNow => handleAnalysis_resume a s idNow tsNow w
  end.

Definition step (ev : Event) (w : World) : option outcome :=
  if offered w ev then Some (handle ev w) else None.

(** The events that are the settlement of a promise. *)
Definition settles (ev : Event) : bool :=
  match ev with
  | Settled _ _ _ _ => true
  | _ => false
  end.

(* ===================================================================== *)
(** ** ImageCapture.tsx *)
(* ===================================================================== *)

Module ImageCapture.

(** A file of the input, as far as the component sees it: what
    [reader.result] holds when [onloadend] fires, null after a failed
    read. *)
Record File : Type := { dataURL : option string }.

(** One call of [handleFileChange]: the variables its callbacks share,
    and the calls of [setPreviews] and [onImagesSelected] made so far
    (latest first; the two setters always get the same array). *)
Record Batch : Type := {
  files : list File;
  previews : list string;         (* of the render that took the event *)
  newPreviews : list string;
  processedCount : nat;
  published : list (list string)
}.

Definition handleFileChange (files : list File) (previews : list string) : Batch :=
  {| files := files; previews := previews; newPreviews := [];
     processedCount := 0; published := [] |}.

(** [reader.onloadend] of the reader of file [i]. *)
Definition onloadend (i : nat) (b : Batch) : Batch :=
  let newPreviews' :=
    match files b !! i ≫= dataURL with
    | Some r => if JS.truthy_string r then newPreviews b ++ [r] else newPreviews b
    | None => newPreviews b
    end in
  let processedCount' := S (processedCount b) in
  if (processedCount' =? length (files b))%nat then
    let updated := previews b ++ newPreviews' in
    {| files := files b; previews := previews b; newPreviews := newPreviews';
       processedCount := processedCount'; published := updated :: published b |}
  else
    {| files := files b; previews := previews b; newPreviews := newPreviews';
       processedCount := processedCount'; published := published b |}.

(** The readers finish in the order [order], a list of file indices. *)
Definition complete (order : list nat) (b : Batch) : Batch :=
  foldl (fun b i => onloadend i b) b order.

(** What the reader of file [i] adds to [newPreviews]. *)
Definition pushed (files : list File) (i : nat) : option string :=
  r ← files !! i ≫= dataURL; if JS.truthy_string r then Some r else None.

(** The images, in the order of [order], whose read gave a result. *)
Definition decoded (files : list File) (order : list nat) : list string :=
  omap (pushed files) order.

(** [removeImage(index)] *)
Definition removeImage (index : nat) (previews : list string) : list string :=
  snd <$> filter (fun ix => ix.1 ≠ index) (imap (fun i x => (i, x)) previews).

End ImageCapture.

(* ===================================================================== *)
(** ** Sessions *)
(* ===================================================================== *)

(** The page is loaded anew on the store the last session left: the
    first render, then the mount effect.  [None] when the effect throws
    or a document does not have the declared shape. *)
Definition restart (w : World) : option World :=
  match initialize (localStorage w) with
  | JS.Normal l => apply_loaded l (initial (localStorage w))
  | JS.Throw _ => None
  end.

(** A run of offered events, one after the other; [None] when an event
    is not offered in the state it meets. *)
Fixpoint run (evs : list Event) (w : World) : option World :=
  match evs with
  | [] => Some w
  | ev :: evs' =>
      match step ev w with
      | Some o => run evs' (after o)
      | None => None
      end
  end.

(** The states of the application: those of a first start, on a store
    that holds neither document, and those that an event or a restart
    leads to from there.  Nothing but the application writes the two
    documents. *)
Inductive reachable : World -> Prop :=
| reach_first ls :
    LocalStorage.getItem profile_key ls = None ->
    LocalStorage.getItem history_key ls = None ->
    reachable (initial ls)
| reach_step w ev o :
    reachable w -> step ev w = Some o -> reachable (after o)
| reach_restart w w' :
    reachable w -> restart w = Some w' -> reachable w'.

(** A log that holds no unclear result. *)
Definition all_clear (l : list ScanHistoryItem) : Prop :=
  Forall (fun h => isUnclear (imageQualityCheck (result h)) = false) l.

(** The history document of a store is absent or is the text of a log
    of at most twenty items, none of them unclear. *)
Definition history_doc_ok (ls : LocalStorage.t) : Prop :=
  match LocalStorage.getItem history_key ls with
  | None => True
  | Some text =>
      exists l, text = JSON.stringify (Doc.of_history l)
                ∧ length l <= 20 ∧ all_clear l
  end.

(** The profile document of a store is absent or is the text of a
    profile. *)
Definition profile_doc_ok (ls : LocalStorage.t) : Prop :=
  match LocalStorage.getItem profile_key ls with
  | None => True
  | Some text => exists p, text = JSON.stringify (Doc.of_profile p)
  end.

(** What holds of the log and of the store in every state of the
    application. *)
Definition invariant (w : World) : Prop :=
  length (history w) <= 20
  ∧ all_clear (history w)
  ∧ history_doc_ok (localStorage w)
  ∧ profile_doc_ok (localStorage w).

(* ===================================================================== *)
(** ** Concrete values for the examples *)
(* ===================================================================== *)

Module Sample.

Definition fileA : ImageCapture.File := {| ImageCapture.dataURL := Some "data:A" |}.
Definition fileB : ImageCapture.File := {| ImageCapture.dataURL := Some "data:B" |}.
Definition fileC : ImageCapture.File := {| ImageCapture.dataURL := Some "data:C" |}.
Definition unreadable : ImageCapture.File := {| ImageCapture.dataURL := None |}.

Definition configured : UserProfile :=
  {| age := "35"; gender := female; healthContext := "low salt" |}.

Definition no_gender : UserProfile :=
  {| age := "35"; gender := unset; healthContext := "low salt" |}.

Definition clear_result : AnalysisResult :=
  {| imageQualityCheck := {| isUnclear := false; reason := "" |};
     calorieAnalysis :=
       Some {| productCalories := 250; userDailyNeed := 2000; percentage := 12;
               note := "per bar" |};
     summary := "chocolate bar";
     pros := ["magnesium"];
     cons := ["sugar"];
     recommendations := [{| product_name := "dark chocolate"; product_reason := "less sugar" |}] |}.


Definition S1 : list string := ["data:image/png;base64,AAAAAAAAAAAAAAAAAAAAAAAAAAAAAAAA"].
Definition S2 : list string := ["data:image/png;base64,BBBB"].

(** An empty store with room for [q] characters. *)
Definition store (q : N) : LocalStorage.t :=
  {| LocalStorage.items := ∅; LocalStorage.quota := q |}.

(** A store that holds one document. *)
Definition store_with (k text : string) (q : N) : LocalStorage.t :=
  {| LocalStorage.items := {[ k := text ]}; LocalStorage.quota := q |}.

(** The dashboard of a configured user who has selected [images]. *)
Definition ready (images : list string) (ls : LocalStorage.t) : World :=
  setSelectedImages images (setAppState DASHBOARD (setUserProfile configured (initial ls))).

Definition entry (n : nat) : ScanHistoryItem :=
  {| id := JS.number_string (Z.of_nat n); timestamp := Z.of_nat n; result := clear_result;
     imagePreviewUrl := None |}.

(** A full log, newest first: the entries 20, 19, ..., 1. *)
Definition full_log : list ScanHistoryItem := entry <$> rev (seq 1 20).

(** A store that holds the profile and has room for the history without
    its previews only. *)
Definition tight : LocalStorage.t :=
  store_with profile_key (JSON.stringify (Doc.of_profile configured)) 450.

(** A store that holds the profile and has no room for the history. *)
Definition nearly_full : LocalStorage.t :=
  store_with profile_key (JSON.stringify (Doc.of_profile configured)) 300.

(** The attempt started from [ready S1]. *)
Definition attempt1 : Attempt :=
  {| attemptProfile := configured; attemptImages := S1 |}.

(** A store whose profile document is cut short. *)
Definition broken_profile : LocalStorage.t := store_with profile_key "{" 5000000.

(** A store whose history document is cut short. *)
Definition broken_history : LocalStorage.t := store_with history_key "[{" 5000000.

(** A store whose profile document is the JSON text null. *)
Definition null_profile : LocalStorage.t := store_with profile_key "null" 5000000.

(** A store that holds a profile with no gender. *)
Definition no_gender_store : LocalStorage.t :=
  store_with profile_key (JSON.stringify (Doc.of_profile no_gender)) 5000000.

(** What the mount effect reads from it, and the state it leaves. *)
Definition no_gender_loaded : Loaded :=
  {| loadedProfile := Some (Doc.of_profile no_gender);
     loadedAppState := Some DASHBOARD;
     loadedHistory := None |}.

Definition no_gender_started : World :=
  setHistory [] (setAppState DASHBOARD (setUserProfile no_gender (initial no_gender_store))).

(** A profile with an age and a gender and no health context, a store
    that holds it, what the mount effect reads from it and the state it
    leaves. *)
Definition no_context : UserProfile :=
  {| age := "35"; gender := female; healthContext := "" |}.

Definition no_context_store : LocalStorage.t :=
  store_with profile_key (JSON.stringify (Doc.of_profile no_context)) 5000000.

Definition no_context_loaded : Loaded :=
  {| loadedProfile := Some (Doc.of_profile no_context);
     loadedAppState := Some ONBOARDING;
     loadedHistory := None |}.

Definition no_context_started : World :=
  setHistory [] (setAppState ONBOARDING (setUserProfile no_context (initial no_context_store))).

(** The state in which the attempt on [S1] is in flight. *)
Definition first_started : World := (handleAnalysis (ready S1 (store 5000000))).1.

(** The dashboard with a full log and room in the store. *)
Definition full : World := setHistory full_log (ready S1 (store 100000)).

(** The scenario of a late response.  The analyze button is pressed on
    the selection [S1]; while the attempt is in flight the user looks at
    the history and comes back by the scan button, which resets the
    scan, and selects [S2] in the capture pane, mounted anew. *)
Definition reselect : list Event :=
  [ClickAnalyze; ClickTab history_tab; ClickTab scan; ImagesSelected S2].

Definition reselected : World :=
  default (ready S1 (store 5000000)) (run reselect (ready S1 (store 5000000))).

(** The state after the response of the attempt on [S1] has arrived
    there. *)
Definition late_applied : World :=
  default reselected
    (run [Settled attempt1 (Fulfilled clear_result) 1 1] reselected).

(** A log of twenty-one entries, a store that holds the profile and the
    document of that log, and the state the mount effect leaves on it. *)
Definition long_log : list ScanHistoryItem := entry <$> rev (seq 1 21).

Definition long_store : LocalStorage.t :=
  {| LocalStorage.items :=
       <[history_key := JSON.stringify (Doc.of_history long_log)]>
         {[ profile_key := JSON.stringify (Doc.of_profile configured) ]};
     LocalStorage.quota := 5000000 |}.

Definition long_started : World :=
  setHistory long_log (setAppState DASHBOARD (setUserProfile configured (initial long_store))).

(** The scan of [S1] on that state: selection, click, response. *)
Definition long_scan : list Event :=
  [ImagesSelected S1; ClickAnalyze; Settled attempt1 (Fulfilled clear_result) 22 22].

Definition long_scanned : World := default long_started (run long_scan long_started).

End Sample.

(* ===================================================================== *)
(** ** String methods the code calls *)
(* ===================================================================== *)

(** Strings of the model are byte strings, a text above the ASCII range
    being its UTF-8 form (and a surrogate that a JSON text gives by an
    escape, the three bytes [JSON.utf8] writes for it).  The characters
    searched for below are ASCII, and a position is only ever used to
    cut the string it was found in, so that the pieces are those of the
    JavaScript methods. *)
Module JSString.

(** [s.startsWith(p)] *)
Definition startsWith (p s : string) : bool := String.prefix p s.

(** [s.indexOf(c)] for a one-character [c]: its first position, or -1. *)
Fixpoint indexOf (c : ascii) (s : string) : Z :=
  match s with
  | EmptyString => -1
  | String x s' =>
      if Ascii.eqb x c then 0
      else let i := indexOf c s' in if (i <? 0)%Z then -1 else (i + 1)%Z
  end.

(** [s.substring(start, end)]: each end is brought into the string, and
    the two are swapped when they come in the wrong order. *)
Definition substring (start end_ : Z) (s : string) : string :=
  let len := Z.of_nat (String.length s) in
  let finalStart := Z.min (Z.max start 0) len in
  let finalEnd := Z.min (Z.max end_ 0) len in
  let from := Z.min finalStart finalEnd in
  let to := Z.max finalStart finalEnd in
  String.substring (Z.to_nat from) (Z.to_nat (to - from)) s.

(** [s.split(sep)] for a one-character [sep]: the pieces between the
    separators, of which there is always at least one. *)
Fixpoint split (sep : ascii) (s : string) : list string :=
  match s with
  | EmptyString => [EmptyString]
  | String c s' =>
      if Ascii.eqb c sep then EmptyString :: split sep s'
      else match split sep s' with
           | piece :: pieces => String c piece :: pieces
           | [] => [String c EmptyString]
           end
  end.

(** The characters [encodeURIComponent] copies: letters, digits and
    [- _ . ! ~ * ' ( )]. *)
Definition unreserved (c : ascii) : bool :=
  let n := N_of_ascii c in
  ((48 <=? n) && (n <=? 57) || (65 <=? n) && (n <=? 90) || (97 <=? n) && (n <=? 122)
   || (n =? 45) || (n =? 95) || (n =? 46) || (n =? 33) || (n =? 126) || (n =? 42)
   || (n =? 39) || (n =? 40) || (n =? 41))%N.

Definition upper_hex_digit (n : N) : ascii :=
  if (n <? 10)%N then ascii_of_N (48 + n) else ascii_of_N (55 + n).

(** [%XX] for one byte. *)
Definition percent_encode (c : ascii) : string :=
  let n := N_of_ascii c in
  String "%"
    (String (upper_hex_digit (n / 16)) (String (upper_hex_digit (n mod 16)) EmptyString)).

(** What [encodeURIComponent] writes for one byte. *)
Definition encode_char (c : ascii) : string :=
  if unreserved c then String c EmptyString else percent_encode c.

(** Every byte that is not copied is written as [%XX]. *)
Fixpoint encode_bytes (s : string) : string :=
  match s with
  | EmptyString => EmptyString
  | String c s' => encode_char c +:+ encode_bytes s'
  end.

(** A UTF-16 surrogate in a string of the model is the three bytes
    [JSON.utf8] writes for a code unit in D800..DFFF, which is how an
    escape of a JSON text arrives: the byte ED, then A0..AF for a high
    surrogate and B0..BF for a low one, then a continuation byte.  No
    UTF-8 form of a code point has ED followed by A0..BF. *)
Definition surrogate_lead (c : ascii) : bool := (N_of_ascii c =? 237)%N.

Definition high_surrogate (c : ascii) : bool :=
  let n := N_of_ascii c in ((160 <=? n) && (n <=? 175))%N.

Definition low_surrogate (c : ascii) : bool :=
  let n := N_of_ascii c in ((176 <=? n) && (n <=? 191))%N.

Definition continuation (c : ascii) : bool :=
  let n := N_of_ascii c in ((128 <=? n) && (n <=? 191))%N.

(** The string goes on with the second byte of a surrogate. *)
Definition surrogate_next (s : string) : bool :=
  match s with
  | String c _ => high_surrogate c || low_surrogate c
  | EmptyString => false
  end.

(** The four bytes of the code point of a surrogate pair, given the
    second and third byte of each half. *)
Definition pair_utf8 (h1 h2 l1 l2 : ascii) : string :=
  let high := ((N_of_ascii h1 - 160) * 64 + (N_of_ascii h2 - 128))%N in
  let low := ((N_of_ascii l1 - 176) * 64 + (N_of_ascii l2 - 128))%N in
  let cp := (65536 + high * 1024 + low)%N in
  String (ascii_of_N (240 + cp / 262144))
    (String (ascii_of_N (128 + (cp / 4096) mod 64))
       (String (ascii_of_N (128 + (cp / 64) mod 64))
          (String (ascii_of_N (128 + cp mod 64)) EmptyString))).

(** The UTF-8 form of the code points of a string: a surrogate pair
    becomes the four bytes of its code point, every other byte stays.
    [None] when a surrogate stands alone, which is where
    [encodeURIComponent] throws URIError. *)
Fixpoint utf8_text (s : string) : option string :=
  match s with
  | EmptyString => Some EmptyString
  | String c s' =>
      if surrogate_lead c && surrogate_next s' then
        match s' with
        | String h1 (String h2 (String c2 (String l1 (String l2 rest)))) =>
            if high_surrogate h1 && continuation h2 && surrogate_lead c2
               && low_surrogate l1 && continuation l2
            then (fun text => pair_utf8 h1 h2 l1 l2 +:+ text) <$> utf8_text rest
            else None
        | _ => None
        end
      else String c <$> utf8_text s'
  end.

(** [encodeURIComponent(s)]: the code points of the string in UTF-8,
    every byte that is not copied written as [%XX]; [None] is the
    URIError the function throws on a surrogate that stands alone. *)
Definition encodeURIComponent (s : string) : option string :=
  encode_bytes <$> utf8_text s.

(** No escaped surrogate occurs in the string: it is its own UTF-8
    form. *)
Fixpoint no_surrogate (s : string) : bool :=
  match s with
  | EmptyString => true
  | String c s' => negb (surrogate_lead c && surrogate_next s') && no_surrogate s'
  end.

End JSString.

(* ===================================================================== *)
(** ** services/geminiService.ts *)
(* ===================================================================== *)

Module GeminiService.

(** What [parseBase64] returns; [data] is undefined ([None]) when the
    split has no second piece. *)
Record Image : Type := { data : option string; mimeType : string }.

Definition parseBase64 (base64String : string) : Image :=
  if JSString.startsWith "data:" base64String then
    let base64Data := JSString.split "," base64String !! 1 in
    let mimeType :=
      JSString.substring (JSString.indexOf ":" base64String + 1)
        (JSString.indexOf ";" base64String) base64String in
    {| data := base64Data; mimeType := mimeType |}
  else {| data := Some base64String; mimeType := "image/jpeg" |}.

(** The two places a key is looked for: [import.meta.env.VITE_API_KEY]
    and [process.env.API_KEY]; [None] when the variable, or an object on
    the way to it, is undefined. *)
Record Env : Type := { VITE_API_KEY : option string; API_KEY : option string }.

Definition getApiKey (env : Env) : string :=
  match VITE_API_KEY env with
  | Some (String c k) => String c k
  | _ =>
      match API_KEY env with
      | Some (String c k) => String c k
      | _ => EmptyString
      end
  end.

(** The schema language of the request, as far as the code uses it; the
    descriptions of the properties, texts for the model, are left out. *)
Inductive Schema : Type :=
| BOOLEAN
| STRING
| INTEGER
| ARRAY (items : Schema)
| OBJECT (properties : list (string * Schema)) (required : list string).

Definition responseSchema : Schema :=
  OBJECT
    [("imageQualityCheck",
      OBJECT [("isUnclear", BOOLEAN); ("reason", STRING)] ["isUnclear"; "reason"]);
     ("calorieAnalysis",
      OBJECT [("productCalories", INTEGER); ("userDailyNeed", INTEGER);
              ("percentage", INTEGER); ("note", STRING)]
        ["productCalories"; "userDailyNeed"; "percentage"; "note"]);
     ("summary", STRING);
     ("pros", ARRAY STRING);
     ("cons", ARRAY STRING);
     ("recommendations",
      ARRAY (OBJECT [("name", STRING); ("reason", STRING)] ["name"; "reason"]))]
    ["imageQualityCheck"; "calorieAnalysis"; "summary"; "pros"; "cons"; "recommendations"].

(** An integer as a JSON text has it: digits, a minus sign before them or
    not. *)
Definition integer_literal (lit : string) : bool :=
  let digits := match lit with String "-" ds => ds | _ => lit end in
  match digits with
  | EmptyString => false
  | String _ _ => forallb JSON.is_digit (list_ascii_of_string digits)
  end.

(** A value has the shape a schema asks for: the type of the schema, the
    required properties present, and each declared property that is
    present of the shape declared for it. *)
Fixpoint conforms (s : Schema) (v : JSON.value) : bool :=
  match s, v with
  | BOOLEAN, JSON.JBool _ => true
  | STRING, JSON.JStr _ => true
  | INTEGER, JSON.JNum lit => integer_literal lit
  | ARRAY items, JSON.JArr l => forallb (conforms items) l
  | OBJECT properties required, JSON.JObj props =>
      forallb (fun k => match JSON.lookup_prop k props with
                        | Some _ => true
                        | None => false
                        end) required
      && forallb (fun ks =>
                    let '(k, sk) := ks in
                    match JSON.lookup_prop k props with
                    | Some x => conforms sk x
                    | None => true
                    end) properties
  | _, _ => false
  end.

(** The system instruction: the template of the source with the three
    fields of the profile filled in. *)
Definition systemInstruction (profile : UserProfile) : string :=
  "
    あなたは熟練したヘルスケアアドバイザーです。
    ユーザーから提供された商品画像（成分表示やパッケージ）とプロフィールを分析し、健康への影響を評価してください。

    ユーザープロフィール:
    - 年齢: "
  +:+ age profile +:+
  "
    - 性別: "
  +:+ Doc.gender_string (gender profile) +:+
  "
    - 健康状態/悩み/文脈: "
  +:+ healthContext profile +:+
  "

    ### 画像分析ルール:
    1. **画像の品質チェック**: 画像が不鮮明、暗すぎる、または商品が全く識別できない場合は、JSONの `imageQualityCheck.isUnclear` を true にしてください。その場合、他のフィールドは空またはダミーデータで構いません。
    
    2. **成分表示がない場合**:
       - 成分表示ラベルが見当たらない場合は、商品のパッケージや外見から**商品を特定**してください。
       - 特定した商品の**一般的・平均的な栄養情報**（Web上の一般的なデータ）を内部知識から引用して分析を行ってください。
       - 推測に基づく場合は、`calorieAnalysis.note` や `summary` に「成分表示がないため、同種の一般的な商品の数値を参照しました」と明記してください。

    ### カロリー分析ルール:
    1. ユーザーのプロフィールと「健康状態/悩み」のテキスト（運動習慣の有無など）から、**1日の推定消費カロリー（TDEE）**を計算してください。
    2. 商品のカロリー（ラベルから取得、または一般的数値から推測）が、そのTDEEの何%に当たるかを算出してください。

    ### 出力要件:
    - 回答はすべて日本語で行ってください。
    - メリット・デメリットはユーザーの「健康状態/悩み」に寄り添った内容にしてください。
  ".

Inductive Part : Type :=
| InlineData (image : Image)
| Text (text : string).

(** The argument of [ai.models.generateContent]. *)
Record Request : Type := {
  apiKey : string;
  model : string;
  parts : list Part;
  config_systemInstruction : string;
  config_responseMimeType : string;
  config_responseSchema : Schema
}.

(** How the promise of [generateContent] settles: with a response, whose
    [text] may be undefined, or with an error. *)
Inductive Reply : Type :=
| Response (text : option string)
| Failure (error : JS.exn).

Definition missing_key_message : string :=
  "APIキーが見つかりません。VercelのEnvironment Variablesに 'VITE_API_KEY' を設定してください。".

Definition failure_message : string :=
  "解析中にエラーが発生しました。しばらく待ってからもう一度お試しください。".

Definition prompt : string :=
  "この商品の画像を分析してください。成分表示がない場合は、商品名から一般的な数値を推測してください。".

(** One call of [analyzeHealthImpact]: the calls it made to the model and
    how its promise settles. *)
Record Run : Type := {
  calls : list Request;
  settled : JS.completion JSON.value
}.

(** The argument the code builds for [generateContent]: one inline part
    for each image, in order, and the text of the question after them. *)
Definition generateContent_request (apiKey : string) (profile : UserProfile)
    (images : list string) : Request :=
  let imageParts := (fun img => InlineData (parseBase64 img)) <$> images in
  {| apiKey := apiKey;
     model := "gemini-2.5-flash";
     parts := imageParts ++ [Text prompt];
     config_systemInstruction := systemInstruction profile;
     config_responseMimeType := "application/json";
     config_responseSchema := responseSchema |}.

(** [analyzeHealthImpact(profile, images)] in an environment [env], the
    model answering [generateContent]; the constructor of the client is
    taken not to throw.  The cast of the parsed text to [AnalysisResult]
    checks nothing: the value is returned as parsed. *)
Definition analyzeHealthImpact (env : Env) (generateContent : Request -> Reply)
    (profile : UserProfile) (images : list string) : Run :=
  let apiKey := getApiKey env in
  if negb (JS.truthy_string apiKey) then
    {| calls := []; settled := JS.Throw (JS.Error missing_key_message) |}
  else
    let request := generateContent_request apiKey profile images in
    {| calls := [request];
       settled :=
         JS.try_catch
           (match generateContent request with
            | Response (Some text) =>
                if JS.truthy_string text then JSON.parse_or_throw text
                else JS.Throw (JS.Error "No response from AI")
            | Response None => JS.Throw (JS.Error "No response from AI")
            | Failure error => JS.Throw error
            end)
           (fun error => JS.Throw (JS.Error failure_message)) |}.

End GeminiService.

(** What [handleAnalysis] is resumed with when the promise of
    [analyzeHealthImpact] settles, the value read through the interface of
    types.ts; [None] when it does not have the declared shape.  The code
    casts the parsed answer and checks nothing: on such a value the
    handler still runs, on a value the typed state of this development
    does not hold, and nothing is stated of that run. *)
Definition settlement (c : JS.completion JSON.value) : option Settlement :=
  match c with
  | JS.Normal v => Fulfilled <$> Doc.to_result v
  | JS.Throw e => Some (Rejected e)
  end.

(* ===================================================================== *)
(** ** components/UserProfileForm.tsx *)
(* ===================================================================== *)

Module UserProfileForm.

Record Props : Type := { initialProfile : UserProfile; isEditing : bool }.

Record State : Type := { profile : UserProfile; hasConsented : bool }.

(** The effect on [initialProfile] and [isEditing]. *)
Definition effect (props : Props) (s : State) : State :=
  {| profile := initialProfile props;
     hasConsented := if isEditing props then true else hasConsented s |}.

(** The first render and the effect that follows it. *)
Definition mount (props : Props) : State :=
  effect props {| profile := initialProfile props; hasConsented := false |}.

(** The three buttons of the gender row. *)
Inductive GenderOption : Type := option_male | option_female | option_other.

Definition val (opt : GenderOption) : Gender :=
  match opt with
  | option_male => male
  | option_female => female
  | option_other => other
  end.

(** [profile.age && profile.gender && profile.healthContext && hasConsented] *)
Definition isFormValid (s : State) : bool :=
  JS.truthy_string (age (profile s))
  && JS.truthy_string (Doc.gender_string (gender (profile s)))
  && JS.truthy_string (healthContext (profile s))
  && hasConsented s.

(** [handleSubmit]: the call of [onSave] it makes, if any. *)
Definition handleSubmit (s : State) : option UserProfile :=
  if negb (hasConsented s) then None else Some (profile s).

Inductive Event : Type :=
| ChangeAge (value : string)
| ClickGender (opt : GenderOption)
| ChangeHealthContext (value : string)
| ClickConsent
| Rerender (props : Props).       (* the parent renders the form with new props *)

Definition handle (ev : Event) (s : State) : State :=
  match ev with
  | ChangeAge value =>
      {| profile := {| age := value; gender := gender (profile s);
                       healthContext := healthContext (profile s) |};
         hasConsented := hasConsented s |}
  | ClickGender opt =>
      {| profile := {| age := age (profile s); gender := val opt;
                       healthContext := healthContext (profile s) |};
         hasConsented := hasConsented s |}
  | ChangeHealthContext value =>
      {| profile := {| age := age (profile s); gender := gender (profile s);
                       healthContext := value |};
         hasConsented := hasConsented s |}
  | ClickConsent => {| profile := profile s; hasConsented := negb (hasConsented s) |}
  | Rerender props => effect props s
  end.

(** A submit reaches [handleSubmit] only through the submit button, which
    is disabled unless the form is valid. *)
Definition submit (s : State) : option UserProfile :=
  if isFormValid s then handleSubmit s else None.

Definition run (evs : list Event) (s : State) : State :=
  foldl (fun s ev => handle ev s) s evs.

(** An event that gives the consent: a click on the consent row while it
    is not given, or a render of the form as the settings form. *)
Definition consenting (ev : Event) : bool :=
  match ev with
  | ClickConsent => true
  | Rerender props => isEditing props
  | _ => false
  end.

End UserProfileForm.

(* ===================================================================== *)
(** ** components/AnalysisView.tsx *)
(* ===================================================================== *)

Module AnalysisView.

Definition AMAZON_TAG : string := "simplemind0f-22".

(** [None] when [encodeURIComponent] throws. *)
Definition getAmazonSearchUrl (keyword : string) : option string :=
  encoded ← JSString.encodeURIComponent keyword;
  Some ("https://www.amazon.co.jp/s?k=" +:+ encoded +:+ "&tag=" +:+ AMAZON_TAG).

End AnalysisView.

(* ===================================================================== *)
(** ** ImageCapture.tsx: the mounted component *)
(* ===================================================================== *)

Module Capture.
Import ImageCapture.

(** The component between two renders: its previews, the calls of
    [handleFileChange] made so far, each with the variables of its
    closure, and the calls of [onImagesSelected] (latest first). *)
Record Component : Type := {
  shown : list string;
  batches : list Batch;
  selected : list (list string)
}.

Inductive Event : Type :=
| FilesChosen (fs : list File)       (* onChange of the input *)
| LoadEnd (b i : nat)                (* onloadend of the reader of file i of call b *)
| RemoveClicked (index : nat).

(** What the reader of file [i] publishes when it is the last of its
    batch to end. *)
Definition publication (i : nat) (batch : Batch) : option (list string) :=
  if (S (processedCount batch) =? length (files batch))%nat
  then head (published (onloadend i batch))
  else None.

Definition handle (ev : Event) (c : Component) : Component :=
  match ev with
  | FilesChosen fs =>
      {| shown := shown c;
         batches := batches c ++ [handleFileChange fs (shown c)];
         selected := selected c |}
  | LoadEnd b i =>
      match batches c !! b with
      | Some batch =>
          let batches' := <[b := onloadend i batch]> (batches c) in
          match publication i batch with
          | Some updated =>
              {| shown := updated; batches := batches'; selected := updated :: selected c |}
          | None =>
              {| shown := shown c; batches := batches'; selected := selected c |}
          end
      | None => c
      end
  | RemoveClicked index =>
      let updated := removeImage index (shown c) in
      {| shown := updated; batches := batches c; selected := updated :: selected c |}
  end.

Definition run (evs : list Event) (c : Component) : Component :=
  foldl (fun c ev => handle ev c) c evs.

End Capture.

(* ===================================================================== *)
(** ** The log in memory and the log in the store *)
(* ===================================================================== *)

(** The document of the log is the text of the log of the state, with its
    previews or without them; with no document the log is empty. *)
Definition log_in_sync (w : World) : Prop :=
  match LocalStorage.getItem history_key (localStorage w) with
  | None => history w = []
  | Some text =>
      text = JSON.stringify (Doc.of_history (history w))
      ∨ text = JSON.stringify (Doc.of_history (strip_preview <$> history w))
  end.

(** An attempt the gate lets through: it has an image and the profile of
    its call is configured. *)
Definition guarded (a : Attempt) : Prop :=
  attemptImages a ≠ [] ∧ isProfileConfigured (attemptProfile a) = true.

(* ===================================================================== *)
(** ** Concrete values for the examples of the service, the form and the
       component *)
(* ===================================================================== *)

Module Scenario.

(** An environment with a key, and a model that answers every call with
    the same text. *)
Definition env : GeminiService.Env :=
  {| GeminiService.VITE_API_KEY := Some "key"; GeminiService.API_KEY := None |}.

Definition no_key : GeminiService.Env :=
  {| GeminiService.VITE_API_KEY := None; GeminiService.API_KEY := Some EmptyString |}.

Definition answers (text : string) : GeminiService.Request -> GeminiService.Reply :=
  fun _ => GeminiService.Response (Some text).

(** The onboarding form, filled in and consented to. *)
Definition filled : UserProfileForm.State :=
  {| UserProfileForm.profile := Sample.configured; UserProfileForm.hasConsented := true |}.

(** A first session: the profile is saved, an image is selected and
    analysed, the result is saved, the history tab is opened. *)
Definition first_session : list Event :=
  [SaveProfile Sample.configured;
   ImagesSelected Sample.S1;
   ClickAnalyze;
   Settled Sample.attempt1 (Fulfilled Sample.clear_result) 5 5;
   ClickTab history_tab].

Definition fresh : World := initial (Sample.store 5000000).

Definition used : World := default fresh (run first_session fresh).

(** A component that shows one preview. *)
Definition one_preview : Capture.Component :=
  {| Capture.shown := ["data:P"]; Capture.batches := []; Capture.selected := [] |}.

End Scenario.

(* ===================================================================== *)
(** ** JSON.parse reads back what JSON.stringify writes *)
(* ===================================================================== *)

Module JSONFacts.
Import JSON.

Lemma append_cons (c : ascii) (a b : string) : String c a +:+ b = String c (a +:+ b).
Proof. reflexivity. Qed.

Lemma append_assoc (a b c : string) : (a +:+ b) +:+ c = a +:+ (b +:+ c).
Proof.
  induction a as [|x a IH]; [reflexivity|].
  rewrite !append_cons. f_equal. exact IH.
Qed.

(** One quoted character is read back as that character. *)
Lemma parse_quote_char (c : ascii) (text str rest : string) :
  parse_string_body text = Some (str, rest) ->
  parse_string_body (quote_char c +:+ text) = Some (String c str, rest).
Proof.
  intros H.
  destruct c as [[] [] [] [] [] [] [] []];
    match goal with
    | |- context [quote_char ?c] =>
        let q := eval vm_compute in (quote_char c) in change (quote_char c) with q
    end;
    cbv [String.append]; simpl; rewrite H; reflexivity.
Qed.

Lemma parse_quote_body (s rest : string) :
  parse_string_body (quote_body s +:+ String dquote rest) = Some (s, rest).
Proof.
  induction s as [|c s IH].
  - reflexivity.
  - change (quote_body (String c s)) with (quote_char c +:+ quote_body s).
    rewrite append_assoc. by apply parse_quote_char.
Qed.

Lemma quote_append (s rest : string) :
  quote s +:+ rest = String dquote (quote_body s +:+ String dquote rest).
Proof. unfold quote. rewrite append_cons, append_assoc. reflexivity. Qed.

(** A quoted string is read back as a string value, by any parser that
    has fuel left. *)
Lemma parse_value_quote (fuel : nat) (s rest : string) :
  parse_value (S fuel) (quote s +:+ rest) = Some (JStr s, rest).
Proof.
  rewrite quote_append. simpl. by rewrite parse_quote_body.
Qed.

Section Members.
Variable pv : string -> option (value * string).

(** A member followed by a comma: the rest of the members is read
    with the member added. *)
Lemma parse_members_more fuel acc k v text rest :
  pv text = Some (v, String "," rest) ->
  parse_members pv (S fuel) acc (quote k +:+ String ":" text)
  = parse_members pv fuel (set_prop k v acc) rest.
Proof.
  intros H. rewrite quote_append. simpl.
  rewrite parse_quote_body. simpl. rewrite H. reflexivity.
Qed.

(** A member followed by the closing brace ends the object. *)
Lemma parse_members_last fuel acc k v text rest :
  pv text = Some (v, String "}" rest) ->
  parse_members pv (S fuel) acc (quote k +:+ String ":" text)
  = Some (JObj (set_prop k v acc), rest).
Proof.
  intros H. rewrite quote_append. simpl.
  rewrite parse_quote_body. simpl. rewrite H. reflexivity.
Qed.
End Members.

Lemma parse_value_object fuel k text :
  parse_value (S fuel) (String "{" (quote k +:+ text))
  = parse_members (parse_value fuel) fuel [] (quote k +:+ text).
Proof. rewrite quote_append. reflexivity. Qed.

Lemma append_nil_r (s : string) : s +:+ "" = s.
Proof. induction s as [|c s IH]; [reflexivity|]. rewrite append_cons. by f_equal. Qed.

(** A delimiter is no digit, no point and no exponent mark. *)
Lemma take_digits_delimited rest : delimited rest -> take_digits rest = ("", rest).
Proof. destruct rest as [|c r]; [reflexivity|]. by intros [->|[->| ->]]. Qed.

Lemma parse_fraction_delimited rest : delimited rest -> parse_fraction rest = Some ("", rest).
Proof. destruct rest as [|c r]; [reflexivity|]. by intros [->|[->| ->]]. Qed.

Lemma parse_exponent_delimited rest : delimited rest -> parse_exponent rest = Some ("", rest).
Proof. destruct rest as [|c r]; [reflexivity|]. by intros [->|[->| ->]]. Qed.

(** The digits of a decimal number are taken whole. *)
Lemma take_digits_uint (d : uint) (rest : string) :
  delimited rest ->
  take_digits (NilEmpty.string_of_uint d +:+ rest) = (NilEmpty.string_of_uint d, rest).
Proof.
  intros Hrest. induction d; simpl NilEmpty.string_of_uint;
    [exact (take_digits_delimited rest Hrest) | ..];
    rewrite append_cons; simpl; by rewrite IHd.
Qed.

(** Digits that do not start with a zero followed by more digits are a
    number. *)
Lemma parse_number_uint (d : uint) (rest : string) :
  d ≠ Nil -> (forall d', d = D0 d' -> d' = Nil) -> delimited rest ->
  parse_number (NilEmpty.string_of_uint d +:+ rest) = Some (NilEmpty.string_of_uint d, rest).
Proof.
  intros Hnil Hzero Hrest. unfold parse_number.
  destruct d; [done | ..]; simpl NilEmpty.string_of_uint; rewrite append_cons.
  1: rewrite (Hzero d eq_refl).
  all: simpl; rewrite ?take_digits_uint, ?take_digits_delimited by done; simpl.
  all: rewrite parse_fraction_delimited by done; simpl.
  all: rewrite parse_exponent_delimited by done; simpl.
  all: by rewrite ?append_nil_r.
Qed.

Lemma parse_number_neg_uint (d : uint) (rest : string) :
  d ≠ Nil -> (forall d', d ≠ D0 d') -> delimited rest ->
  parse_number (String "-" (NilEmpty.string_of_uint d +:+ rest))
  = Some (String "-" (NilEmpty.string_of_uint d), rest).
Proof.
  intros Hnil Hzero Hrest. unfold parse_number.
  destruct d; [done | by destruct (Hzero d) | ..];
    simpl NilEmpty.string_of_uint; rewrite append_cons.
  all: simpl; rewrite ?take_digits_uint, ?take_digits_delimited by done; simpl.
  all: rewrite parse_fraction_delimited by done; simpl.
  all: rewrite parse_exponent_delimited by done; simpl.
  all: by rewrite ?append_nil_r.
Qed.

Lemma to_int_norm (z : Z) : norm (Z.to_int z) = Z.to_int z.
Proof. rewrite <- DecimalZ.to_of. by rewrite DecimalZ.of_to. Qed.

Lemma string_of_uint_nonnil (d : uint) :
  d ≠ Nil -> NilZero.string_of_uint d = NilEmpty.string_of_uint d.
Proof. by destruct d. Qed.

Lemma string_of_uint_head (d : uint) :
  d ≠ Nil -> exists c s, NilEmpty.string_of_uint d = String c s ∧ is_digit c = true.
Proof. destruct d; [done | ..]; intros _; eexists _, _; by split. Qed.

(** The digits of an integer are a literal. *)
Lemma literal_number_string (z : Z) : literal (JS.number_string z).
Proof.
  unfold JS.number_string. pose proof (to_int_norm z) as Hnorm.
  destruct (Z.to_int z) as [d|d]; simpl in Hnorm; simpl NilZero.string_of_int.
  - injection Hnorm as Hd.
    assert (Hnil : d ≠ Nil) by (rewrite <- Hd; apply unorm_nonnil).
    rewrite string_of_uint_nonnil by done. split.
    + destruct (string_of_uint_head d Hnil) as (c & s & -> & Hc). eauto.
    + intros rest Hrest. apply parse_number_uint; [done | | done].
      intros d' ->. rewrite unorm_D0 in Hd. unfold unorm in Hd.
      destruct (nzhead d') eqn:Hz; try discriminate Hd.
      * congruence.
      * injection Hd as ->. by destruct (nzhead_nonzero d' d').
  - assert (Hd : nzhead d = d ∧ d ≠ Nil).
    { destruct (nzhead d) eqn:Hz; [discriminate|..];
        injection Hnorm as Hd; subst d; by split. }
    destruct Hd as [Hd Hnil]. rewrite string_of_uint_nonnil by done. split.
    + eexists _, _. split; [reflexivity | by left].
    + intros rest Hrest. rewrite append_cons.
      apply parse_number_neg_uint; [done | | done].
      intros d' ->. by destruct (nzhead_nonzero (D0 d') d').
Qed.

Lemma to_number_of_number (z : Z) : Doc.to_number (Doc.of_number z) = Some z.
Proof.
  unfold Doc.to_number, Doc.of_number, JS.number_string.
  pose proof (to_int_norm z) as Hnorm.
  rewrite NilZero.isi.
  - simpl. by rewrite DecimalZ.of_to.
  - intros H. rewrite H in Hnorm. discriminate.
  - intros H. rewrite H in Hnorm. discriminate.
Qed.

(** Induction on values, the items of an array and the values of the
    properties of an object taken as smaller. *)
Lemma value_ind_nested (P : value -> Prop) :
  P JNull -> (forall b, P (JBool b)) -> (forall lit, P (JNum lit)) ->
  (forall s, P (JStr s)) ->
  (forall items, Forall P items -> P (JArr items)) ->
  (forall props, Forall (fun kv => P (snd kv)) props -> P (JObj props)) ->
  forall v, P v.
Proof.
  intros Hnull Hbool Hnum Hstr Harr Hobj.
  fix IH 1. intros [| b | lit | s | items | props].
  - exact Hnull.
  - apply Hbool.
  - apply Hnum.
  - apply Hstr.
  - apply Harr. induction items as [|x items IHitems]; constructor; [apply IH | exact IHitems].
  - apply Hobj. induction props as [|kv props IHprops]; constructor;
      [apply IH | exact IHprops].
Qed.

Lemma written_array items : written (JArr items) <-> Forall written items.
Proof.
  simpl. induction items as [|x items IH]; [by split|].
  rewrite Forall_cons. by rewrite IH.
Qed.

Lemma written_object props :
  written (JObj props)
  <-> NoDup (map fst props) ∧ Forall (fun kv => written (snd kv)) props.
Proof.
  simpl. apply and_iff_compat_l.
  induction props as [|kv props IH]; [by split|].
  rewrite Forall_cons. by rewrite IH.
Qed.

(** The first character of a written value: no blank, and no closing
    bracket. *)
Lemma stringify_head v :
  written v ->
  exists c s, stringify v = String c s ∧ is_ws c = false ∧ c ≠ "]"%char.
Proof.
  destruct v as [| [] | lit | s | items | props]; intros Hw;
    try (eexists _, _; split; [reflexivity | by split]).
  - destruct Hw as [(c & s & -> & Hc) _]. exists c, s. split; [reflexivity|].
    destruct Hc as [->|Hc]; [by split|].
    destruct c as [[] [] [] [] [] [] [] []]; try discriminate Hc; by split.
Qed.

(** *** One step of [parse_value] on each kind of text *)

Lemma parse_value_null fuel rest :
  parse_value (S fuel) ("null" +:+ rest) = Some (JNull, rest).
Proof. reflexivity. Qed.

Lemma parse_value_true fuel rest :
  parse_value (S fuel) ("true" +:+ rest) = Some (JBool true, rest).
Proof. reflexivity. Qed.

Lemma parse_value_false fuel rest :
  parse_value (S fuel) ("false" +:+ rest) = Some (JBool false, rest).
Proof. reflexivity. Qed.

Lemma parse_value_number fuel lit rest :
  literal lit -> delimited rest ->
  parse_value (S fuel) (lit +:+ rest) = Some (JNum lit, rest).
Proof.
  intros [(c & s & -> & Hc) Hparse] Hrest.
  specialize (Hparse rest Hrest). rewrite append_cons in *.
  destruct Hc as [->|Hc].
  - simpl. by rewrite Hparse.
  - destruct c as [[] [] [] [] [] [] [] []]; try discriminate Hc;
      simpl; by rewrite Hparse.
Qed.

Lemma parse_value_empty_array fuel rest :
  parse_value (S fuel) ("[" +:+ "]" +:+ rest) = Some (JArr [], rest).
Proof. reflexivity. Qed.

Lemma parse_value_empty_object fuel rest :
  parse_value (S fuel) ("{" +:+ "}" +:+ rest) = Some (JObj [], rest).
Proof. reflexivity. Qed.

Lemma parse_value_array fuel c s :
  is_ws c = false -> c ≠ "]"%char ->
  parse_value (S fuel) (String "[" (String c s))
  = parse_elements (parse_value fuel) fuel [] (String c s).
Proof.
  intros Hws Hc.
  destruct c as [[] [] [] [] [] [] [] []]; try discriminate Hws; try done.
Qed.

(** *** The loops *)

Lemma skip_ws_comma r : skip_ws (String "," r) = String "," r.
Proof. reflexivity. Qed.

Section Loops.
Variable pv : string -> option (value * string).

Lemma join_cons2 sep x y l : join sep (x :: y :: l) = x +:+ sep +:+ join sep (y :: l).
Proof. reflexivity. Qed.

(** The items of an array, each read by [pv], are read by the loop. *)
Lemma parse_elements_written items : forall acc fuel rest,
  items ≠ [] ->
  length items <= fuel ->
  Forall (fun x => forall rest', delimited rest' ->
                   pv (stringify x +:+ rest') = Some (x, rest')) items ->
  parse_elements pv fuel acc (join "," (map stringify items) +:+ String "]" rest)
  = Some (JArr (rev acc ++ items), rest).
Proof.
  induction items as [|x [|y items] IH]; intros acc fuel rest Hne Hlen Hpv; [done | |].
  - destruct fuel as [|fuel]; [simpl in Hlen; lia|].
    apply Forall_cons in Hpv as [Hx _]. simpl.
    rewrite Hx by (by right; left). simpl. reflexivity.
  - destruct fuel as [|fuel]; [simpl in Hlen; lia|].
    apply Forall_cons in Hpv as [Hx Hrest].
    change (map stringify (x :: y :: items))
      with (stringify x :: stringify y :: map stringify items).
    rewrite join_cons2.
    change (join "," (stringify y :: map stringify items))
      with (join "," (map stringify (y :: items))).
    rewrite !append_assoc, append_cons.
    change ("" +:+ join "," (map stringify (y :: items)) +:+ String "]" rest)
      with (join "," (map stringify (y :: items)) +:+ String "]" rest).
    cbn [parse_elements]. rewrite Hx by (by left).
    cbn [mbind option_bind]. rewrite skip_ws_comma. cbv beta iota.
    rewrite IH; [| done | simpl in *; lia | done].
    simpl. by rewrite <- app_assoc.
Qed.

(** A key that is new is put last. *)
Lemma set_prop_new k v (acc : list (string * value)) :
  k ∉ map fst acc -> set_prop k v acc = acc ++ [(k, v)].
Proof.
  induction acc as [|[k' v'] acc IH]; intros Hk; [reflexivity|].
  simpl in *. apply not_elem_of_cons in Hk as [Hne Hk].
  destruct (String.eqb_spec k k'); [done|]. by rewrite IH.
Qed.

(** The members of an object, each value read by [pv], are read by the
    loop. *)
Lemma parse_members_written props : forall acc fuel rest,
  props ≠ [] ->
  length props <= fuel ->
  NoDup (map fst (acc ++ props)) ->
  Forall (fun kv => forall rest', delimited rest' ->
                    pv (stringify (snd kv) +:+ rest') = Some (snd kv, rest')) props ->
  parse_members pv fuel acc (join "," (map member props) +:+ String "}" rest)
  = Some (JObj (acc ++ props), rest).
Proof.
  induction props as [|[k v] [|kv props] IH]; intros acc fuel rest Hne Hlen Hnd Hpv;
    [done | |].
  - destruct fuel as [|fuel]; [simpl in Hlen; lia|].
    apply Forall_cons in Hpv as [Hv _]. simpl in Hv.
    simpl join. unfold member. simpl fst. simpl snd.
    rewrite !append_assoc, append_cons.
    erewrite parse_members_last by (apply Hv; by right; right).
    rewrite set_prop_new; [done|].
    rewrite map_app in Hnd. apply NoDup_app in Hnd as (_ & Hnd & _).
    intros Hin. apply (Hnd k Hin). simpl. by left.
  - destruct fuel as [|fuel]; [simpl in Hlen; lia|].
    apply Forall_cons in Hpv as [Hv Hrest]. simpl in Hv.
    change (map member ((k, v) :: kv :: props))
      with (member (k, v) :: member kv :: map member props).
    rewrite join_cons2.
    change (join "," (member kv :: map member props))
      with (join "," (map member (kv :: props))).
    unfold member at 1. simpl fst. simpl snd.
    rewrite !append_assoc, !append_cons.
    change ("" +:+ join "," (map member (kv :: props)) +:+ String "}" rest)
      with (join "," (map member (kv :: props)) +:+ String "}" rest).
    erewrite parse_members_more by (apply Hv; by left).
    assert (Hk : k ∉ map fst acc).
    { rewrite map_app in Hnd. apply NoDup_app in Hnd as (_ & Hnd & _).
      intros Hin. apply (Hnd k Hin). simpl. by left. }
    rewrite set_prop_new by done.
    rewrite IH; [| done | simpl in *; lia | | done].
    + by rewrite <- app_assoc.
    + by rewrite <- app_assoc.
Qed.

End Loops.

Lemma size_pos v : 1 <= size v.
Proof. destruct v; simpl; lia. Qed.

Lemma size_elem_of (x : value) (items : list value) :
  x ∈ items -> size x <= sum_list (map size items).
Proof.
  induction 1 as [x l|x y l _ IH]; simpl; lia.
Qed.

Lemma length_le_sum_size (items : list value) :
  length items <= sum_list (map size items).
Proof.
  induction items as [|x l IH]; simpl; [lia|]. pose proof (size_pos x). lia.
Qed.

Lemma size_elem_of_props (kv : string * value) (props : list (string * value)) :
  kv ∈ props -> size (snd kv) <= sum_list (map (fun kv => size (snd kv)) props).
Proof.
  induction 1 as [x l|x y l _ IH]; simpl; lia.
Qed.

Lemma length_le_sum_size_props (props : list (string * value)) :
  length props <= sum_list (map (fun kv => size (snd kv)) props).
Proof.
  induction props as [|x l IH]; simpl; [lia|]. pose proof (size_pos (snd x)). lia.
Qed.

(** The text of a non-empty array after its bracket starts like its
    first item. *)
Lemma array_body_head x items rest :
  written x ->
  exists c s,
    join "," (map stringify (x :: items)) +:+ String "]" rest = String c s
    ∧ is_ws c = false ∧ c ≠ "]"%char.
Proof.
  intros Hx. destruct (stringify_head x Hx) as (c & s & Hs & Hc).
  exists c. destruct items as [|y items].
  - simpl join. rewrite Hs, append_cons. eauto.
  - change (map stringify (x :: y :: items))
      with (stringify x :: stringify y :: map stringify items).
    rewrite join_cons2, Hs, !append_cons. eauto.
Qed.

(** The text of a non-empty object after its brace starts with the
    quoted key of its first member. *)
Lemma object_body_head k v props rest :
  exists text,
    join "," (map member ((k, v) :: props)) +:+ String "}" rest = quote k +:+ text.
Proof.
  destruct props as [|kv props].
  - simpl join. unfold member. simpl fst. rewrite !append_assoc. eauto.
  - change (map member ((k, v) :: kv :: props))
      with (member (k, v) :: member kv :: map member props).
    rewrite join_cons2. unfold member at 1. simpl fst. rewrite !append_assoc. eauto.
Qed.

(** A written value is read back, whatever delimited text follows it,
    by a parser with fuel for its size. *)
Theorem parse_value_written v :
  written v ->
  forall fuel rest, size v <= fuel -> delimited rest ->
  parse_value fuel (stringify v +:+ rest) = Some (v, rest).
Proof.
  induction v as [| b | lit | s | items IH | props IH] using value_ind_nested;
    intros Hw fuel rest Hfuel Hrest;
    (destruct fuel as [|fuel]; [simpl in Hfuel; lia|]).
  - apply parse_value_null.
  - destruct b; [apply parse_value_true | apply parse_value_false].
  - by apply parse_value_number.
  - apply parse_value_quote.
  - apply written_array in Hw. simpl in Hfuel.
    change (stringify (JArr items)) with ("[" +:+ join "," (map stringify items) +:+ "]").
    rewrite !append_assoc, append_cons.
    change ("" +:+ join "," (map stringify items) +:+ "]" +:+ rest)
      with (join "," (map stringify items) +:+ String "]" rest).
    destruct items as [|x items]; [apply parse_value_empty_array|].
    destruct (array_body_head x items rest) as (c & s & Heq & Hws & Hc).
    { by apply Forall_cons in Hw as [? _]. }
    rewrite Heq, parse_value_array, <- Heq by done.
    apply (parse_elements_written _ (x :: items) []); [done | |].
    + pose proof (length_le_sum_size (x :: items)). lia.
    + rewrite Forall_forall in IH, Hw. apply Forall_forall.
      intros y Hy rest' Hrest'. apply IH; [done | by apply Hw | | done].
      pose proof (size_elem_of y _ Hy). lia.
  - apply written_object in Hw as [Hnd Hw]. simpl in Hfuel.
    change (stringify (JObj props)) with ("{" +:+ join "," (map member props) +:+ "}").
    rewrite !append_assoc, append_cons.
    change ("" +:+ join "," (map member props) +:+ "}" +:+ rest)
      with (join "," (map member props) +:+ String "}" rest).
    destruct props as [|[k v] props]; [apply parse_value_empty_object|].
    destruct (object_body_head k v props rest) as (text & Heq).
    rewrite Heq, parse_value_object, <- Heq.
    apply (parse_members_written _ ((k, v) :: props) []); [done | | done |].
    + pose proof (length_le_sum_size_props ((k, v) :: props)). lia.
    + rewrite Forall_forall in IH, Hw. apply Forall_forall.
      intros kv Hkv rest' Hrest'. apply IH; [done | by apply Hw | | done].
      pose proof (size_elem_of_props kv _ Hkv). lia.
Qed.

Lemma length_append (a b : string) :
  String.length (a +:+ b) = String.length a + String.length b.
Proof.
  induction a as [|c a IH]; [reflexivity|]. rewrite append_cons. simpl. by rewrite IH.
Qed.

Lemma length_join_ge (f : value -> string) (g : value -> nat) (items : list value) :
  Forall (fun x => g x <= String.length (f x)) items ->
  sum_list (map g items) <= String.length (join "," (map f items)).
Proof.
  induction items as [|x [|y items] IH]; intros Hall; [simpl; lia | |].
  - apply Forall_cons in Hall as [Hx _]. simpl. lia.
  - apply Forall_cons in Hall as [Hx Hall].
    change (map f (x :: y :: items)) with (f x :: f y :: map f items).
    rewrite join_cons2, !length_append.
    specialize (IH Hall). simpl in *. lia.
Qed.

Lemma length_join_members_ge (props : list (string * value)) :
  Forall (fun kv => size (snd kv) <= String.length (stringify (snd kv))) props ->
  sum_list (map (fun kv => size (snd kv)) props)
  <= String.length (join "," (map member props)).
Proof.
  induction props as [|x [|y props] IH]; intros Hall; [simpl; lia | |].
  - apply Forall_cons in Hall as [Hx _]. simpl. unfold member.
    rewrite !length_append. lia.
  - apply Forall_cons in Hall as [Hx Hall].
    change (map member (x :: y :: props)) with (member x :: member y :: map member props).
    rewrite join_cons2, !length_append. unfold member at 1. rewrite !length_append.
    specialize (IH Hall). simpl in *. lia.
Qed.

(** The text of a written value is at least as long as the value is
    large: the length of a text is fuel enough. *)
Lemma size_le_length v : written v -> size v <= String.length (stringify v).
Proof.
  induction v as [| b | lit | s | items IH | props IH] using value_ind_nested;
    intros Hw.
  - simpl. lia.
  - destruct b; simpl; lia.
  - destruct Hw as [(c & s & -> & _) _]. simpl. lia.
  - simpl. lia.
  - apply written_array in Hw.
    change (stringify (JArr items)) with ("[" +:+ join "," (map stringify items) +:+ "]").
    rewrite !length_append. simpl.
    assert (sum_list (map size items)
            <= String.length (join "," (map stringify items))); [|lia].
    apply length_join_ge. rewrite Forall_forall in IH, Hw. apply Forall_forall.
    intros x Hx. apply IH; [done | by apply Hw].
  - apply written_object in Hw as [_ Hw].
    change (stringify (JObj props)) with ("{" +:+ join "," (map member props) +:+ "}").
    rewrite !length_append. simpl.
    assert (sum_list (map (fun kv => size (snd kv)) props)
            <= String.length (join "," (map member props))); [|lia].
    apply length_join_members_ge. rewrite Forall_forall in IH, Hw. apply Forall_forall.
    intros x Hx. apply IH; [done | by apply Hw].
Qed.

(** JSON.parse(JSON.stringify(v)) is v, for every written value. *)
Theorem parse_stringify v : written v -> parse (stringify v) = Some v.
Proof.
  intros Hw. unfold parse.
  rewrite <- (append_nil_r (stringify v)) at 2.
  rewrite parse_value_written; [reflexivity | done | | done].
  pose proof (size_le_length v Hw). lia.
Qed.

(** *** The documents of the application *)

Lemma written_list {A} (f : A -> value) (l : list A) :
  (forall x, written (f x)) -> written (JArr (f <$> l)).
Proof.
  intros Hf. apply written_array. induction l; constructor; [apply Hf | done].
Qed.

Lemma written_number z : written (Doc.of_number z).
Proof. apply literal_number_string. Qed.

Lemma written_profile p : written (Doc.of_profile p).
Proof. split; [by apply (bool_decide_unpack _) | done]. Qed.

Lemma written_quality q : written (Doc.of_quality q).
Proof. split; [by apply (bool_decide_unpack _) | done]. Qed.

Lemma written_calories c : written (Doc.of_calories c).
Proof.
  split; [by apply (bool_decide_unpack _)|].
  repeat split; apply literal_number_string.
Qed.

Lemma written_product r : written (Doc.of_product r).
Proof. split; [by apply (bool_decide_unpack _) | done]. Qed.

Lemma written_result r : written (Doc.of_result r).
Proof.
  unfold Doc.of_result. apply written_object.
  destruct (calorieAnalysis r) as [c|]; simpl; (split; [by apply (bool_decide_unpack _)|]).
  all: repeat (apply Forall_cons; split); try apply Forall_nil; cbn [snd].
  all: first [ exact (written_quality _) | exact (written_calories _)
             | exact I | by apply (written_list JStr)
             | apply (written_list Doc.of_product), written_product ].
Qed.

Lemma written_item h : written (Doc.of_item h).
Proof.
  unfold Doc.of_item. apply written_object.
  destruct (imagePreviewUrl h) as [u|]; simpl; (split; [by apply (bool_decide_unpack _)|]).
  all: repeat (apply Forall_cons; split); try apply Forall_nil; cbn [snd].
  all: first [ exact (written_number _) | exact (written_result _) | exact I ].
Qed.

Lemma written_history l : written (Doc.of_history l).
Proof. apply written_list, written_item. Qed.

(** *** Reading the documents back through the interfaces *)

Lemma to_quality_of_quality q : Doc.to_quality (Doc.of_quality q) = Some q.
Proof. by destruct q. Qed.

Lemma to_product_of_product r : Doc.to_product (Doc.of_product r) = Some r.
Proof. by destruct r. Qed.

Lemma to_calories_of_calories c : Doc.to_calories (Doc.of_calories c) = Some c.
Proof.
  destruct c as [pc dn pct n]. unfold Doc.to_calories, Doc.of_calories.
  cbn -[Doc.to_number Doc.of_number]. rewrite !to_number_of_number. reflexivity.
Qed.

Lemma to_strings (l : list string) : Doc.to_list Doc.to_string (JArr (JStr <$> l)) = Some l.
Proof. simpl. by apply mapM_fmap_Some. Qed.

Lemma to_result_of_result r : Doc.to_result (Doc.of_result r) = Some r.
Proof.
  destruct r as [q c s ps cs rs]. unfold Doc.to_result, Doc.of_result.
  destruct c as [c|];
    cbn -[Doc.to_quality Doc.of_quality Doc.to_calories Doc.of_calories Doc.to_list
          Doc.to_product Doc.of_product].
  all: rewrite to_quality_of_quality, ?to_calories_of_calories, !to_strings.
  all: cbn -[Doc.to_product Doc.of_product].
  all: by rewrite (mapM_fmap_Some _ _ _ to_product_of_product).
Qed.

Lemma to_item_of_item h : Doc.to_item (Doc.of_item h) = Some h.
Proof.
  destruct h as [i t r u]. unfold Doc.to_item, Doc.of_item.
  destruct u as [u|];
    cbn -[Doc.to_number Doc.of_number Doc.to_result Doc.of_result].
  all: by rewrite to_number_of_number, to_result_of_result.
Qed.

Lemma to_history_of_history l : Doc.to_history (Doc.of_history l) = Some l.
Proof. apply mapM_fmap_Some, to_item_of_item. Qed.

(** JSON.parse(JSON.stringify(profile)) is the profile, property for
    property. *)
Lemma parse_stringify_profile (p : UserProfile) :
  parse (stringify (Doc.of_profile p)) = Some (Doc.of_profile p).
Proof. apply parse_stringify, written_profile. Qed.

(** JSON.parse(JSON.stringify(history)) is the history. *)
Lemma parse_stringify_history (l : list ScanHistoryItem) :
  parse (stringify (Doc.of_history l)) = Some (Doc.of_history l).
Proof. apply parse_stringify, written_history. Qed.

Lemma stringify_profile_truthy (p : UserProfile) :
  JS.truthy_string (stringify (Doc.of_profile p)) = true.
Proof. reflexivity. Qed.

(** Read through the interface, the document of a profile is the
    profile. *)
Lemma to_profile_of_profile (p : UserProfile) :
  Doc.to_profile (Doc.of_profile p) = Some p.
Proof. destruct p as [a [] h]; reflexivity. Qed.

End JSONFacts.

(* ===================================================================== *)
(** ** ImageCapture: what a batch publishes *)
(* ===================================================================== *)

Module ImageCaptureFacts.
Import ImageCapture.

Lemma decoded_cons fs i order :
  decoded fs (i :: order) = option_list (pushed fs i) ++ decoded fs order.
Proof.
  unfold decoded, pushed. simpl.
  destruct (fs !! i ≫= dataURL) as [r|]; simpl; [|reflexivity].
  destruct (JS.truthy_string r); reflexivity.
Qed.

(** A reader that is not the last to end only counts and pushes. *)
Lemma onloadend_not_last i b :
  S (processedCount b) ≠ length (files b) ->
  onloadend i b =
  {| files := files b; previews := previews b;
     newPreviews := newPreviews b ++ option_list (pushed (files b) i);
     processedCount := S (processedCount b); published := published b |}.
Proof.
  intros Hne. unfold onloadend, pushed.
  destruct (Nat.eqb_spec (S (processedCount b)) (length (files b))) as [?|_]; [done|].
  destruct (files b !! i ≫= dataURL) as [r|]; simpl.
  - destruct (JS.truthy_string r); simpl; by rewrite ?app_nil_r.
  - by rewrite app_nil_r.
Qed.

(** The last reader to end publishes. *)
Lemma onloadend_last i b :
  S (processedCount b) = length (files b) ->
  published (onloadend i b)
  = (previews b ++ newPreviews b ++ option_list (pushed (files b) i)) :: published b.
Proof.
  intros Heq. unfold onloadend, pushed.
  destruct (Nat.eqb_spec (S (processedCount b)) (length (files b))) as [_|?]; [|done].
  destruct (files b !! i ≫= dataURL) as [r|]; simpl.
  - destruct (JS.truthy_string r); simpl; by rewrite ?app_nil_r.
  - by rewrite app_nil_r.
Qed.

(** While readers are still running nothing is published, and the
    shared array holds what the ended readers pushed, in the order in
    which they ended. *)
Lemma complete_partial order : forall b,
  processedCount b + length order < length (files b) ->
  complete order b =
  {| files := files b; previews := previews b;
     newPreviews := newPreviews b ++ decoded (files b) order;
     processedCount := processedCount b + length order;
     published := published b |}.
Proof.
  induction order as [|i order IH]; intros b Hlt.
  - destruct b; simpl. f_equal; [by rewrite app_nil_r | lia].
  - change (complete (i :: order) b) with (complete order (onloadend i b)).
    rewrite length_cons in Hlt.
    rewrite onloadend_not_last by lia.
    rewrite IH by (simpl; lia).
    rewrite decoded_cons, length_cons. simpl.
    f_equal; [by rewrite app_assoc | lia].
Qed.

Lemma sample_order : [2; 0; 1] ≡ₚ seq 0 3.
Proof. exact (Permutation_cons_append [0; 1] 2). Qed.

(** C1, as amended.  A batch publishes once, when the last of its
    readers has ended, and what it publishes is the previews of before
    followed by the decoded images of the batch in the order in which
    their reads ended.  That list holds the same images as the list in
    input order, and is the list in input order when the reads end in
    input order ([order = seq 0 (length fs)]). *)
Theorem C1_published_in_completion_order
    (fs : list File) (prev : list string) (order : list nat) :
  fs ≠ [] ->
  order ≡ₚ seq 0 (length fs) ->
  published (complete order (handleFileChange fs prev)) = [prev ++ decoded fs order]
  ∧ decoded fs order ≡ₚ decoded fs (seq 0 (length fs)).
Proof.
  intros Hfs Hperm. split.
  - assert (Hlen : length order = length fs).
    { rewrite (Permutation_length Hperm). apply length_seq. }
    destruct (exists_last (l := order)) as (order' & i & ->).
    { intros ->. destruct fs; [done | discriminate]. }
    rewrite length_app in Hlen. simpl in Hlen.
    unfold complete. rewrite foldl_app. simpl.
    fold (complete order' (handleFileChange fs prev)).
    rewrite complete_partial by (simpl; lia). simpl.
    rewrite onloadend_last by (simpl; lia). simpl.
    unfold decoded. rewrite omap_app. simpl.
    destruct (pushed fs i); reflexivity.
  - unfold decoded. by rewrite Hperm.
Qed.

Lemma C1_published_in_completion_order_witness :
  [Sample.fileA; Sample.fileB; Sample.fileC] ≠ []
  ∧ [2; 0; 1] ≡ₚ seq 0 3
  ∧ published (complete [2; 0; 1]
                 (handleFileChange [Sample.fileA; Sample.fileB; Sample.fileC] ["data:P"]))
    = [["data:P"; "data:C"; "data:A"; "data:B"]].
Proof.
  split; [discriminate|]. split; [exact sample_order|].
  exact (proj1 (C1_published_in_completion_order
                  [Sample.fileA; Sample.fileB; Sample.fileC] ["data:P"] [2; 0; 1]
                  ltac:(discriminate) sample_order)).
Defined.

(** A file whose read fails is left out; the others are published. *)
Example failed_read_is_dropped :
  published (complete [1; 2; 0]
               (handleFileChange [Sample.fileA; Sample.unreadable; Sample.fileC] []))
  = [["data:C"; "data:A"]].
Proof. reflexivity. Qed.

(** The files A, B, C of one batch, their reads ending in the order
    C, A, B: the batch publishes C, A, B, not A, B, C. *)
Lemma C1_input_order_counterexample :
  [2; 0; 1] ≡ₚ seq 0 3
  ∧ published (complete [2; 0; 1]
                 (handleFileChange [Sample.fileA; Sample.fileB; Sample.fileC] []))
    = [["data:C"; "data:A"; "data:B"]]
  ∧ published (complete [2; 0; 1]
                 (handleFileChange [Sample.fileA; Sample.fileB; Sample.fileC] []))
    ≠ [decoded [Sample.fileA; Sample.fileB; Sample.fileC] (seq 0 3)].
Proof.
  split; [exact sample_order|]. split; [reflexivity | discriminate].
Qed.

End ImageCaptureFacts.

(* ===================================================================== *)
(** ** localStorage *)
(* ===================================================================== *)

Module StorageFacts.
Import LocalStorage.

(** What was set is what is got. *)
Lemma getItem_setItem k v ls ls' :
  setItem k v ls = JS.Normal ls' -> getItem k ls' = Some v.
Proof.
  unfold setItem, getItem. case_decide; [|discriminate].
  intros [= <-]. simpl. apply lookup_insert_eq.
Qed.

Lemma getItem_setItem_other k k' v ls ls' :
  k ≠ k' -> setItem k v ls = JS.Normal ls' -> getItem k' ls' = getItem k' ls.
Proof.
  unfold setItem, getItem. intros Hne. case_decide; [|discriminate].
  intros [= <-]. simpl. by apply lookup_insert_ne.
Qed.

(** A write the quota has room for is accepted. *)
Lemma setItem_accepted k v ls :
  (usage (<[k := v]> (items ls)) <= quota ls)%N ->
  setItem k v ls = JS.Normal {| items := <[k := v]> (items ls); quota := quota ls |}.
Proof. intros H. unfold setItem. by rewrite decide_True. Qed.

Lemma setItem_throws k v ls e :
  setItem k v ls = JS.Throw e -> e = JS.QuotaExceededError.
Proof. unfold setItem. case_decide; congruence. Qed.

End StorageFacts.

(* ===================================================================== *)
(** ** The history: bound, guard and storage fallback *)
(* ===================================================================== *)

Module HistoryFacts.

(** The two writes of the updater, spelled out. *)
Lemma history_updater_cases item prev ls :
  let updated :=
    if (20 <? length (item :: prev))%nat then removelast (item :: prev) else item :: prev in
  history_updater item prev ls =
  match LocalStorage.setItem history_key (JSON.stringify (Doc.of_history updated)) ls with
  | JS.Normal ls' => JS.Normal (updated, ls')
  | JS.Throw _ =>
      match LocalStorage.setItem history_key
              (JSON.stringify (Doc.of_history (strip_preview <$> updated))) ls with
      | JS.Normal ls' => JS.Normal (updated, ls')
      | JS.Throw e => JS.Throw e
      end
  end.
Proof.
  intros updated. unfold history_updater. fold updated.
  destruct (LocalStorage.setItem history_key (JSON.stringify (Doc.of_history updated)) ls);
    simpl; [reflexivity|].
  destruct (LocalStorage.setItem history_key
              (JSON.stringify (Doc.of_history (strip_preview <$> updated))) ls);
    reflexivity.
Qed.

(** Within the bound, one [pop] is all the eviction there is to do. *)
Lemma updated_within_bound (item : ScanHistoryItem) (prev : list ScanHistoryItem) :
  length prev <= 20 ->
  (if (20 <? length (item :: prev))%nat then removelast (item :: prev) else item :: prev)
  = item :: (if (length prev =? 20)%nat then removelast prev else prev).
Proof.
  intros Hle. simpl length.
  destruct (Nat.ltb_spec 20 (S (length prev))), (Nat.eqb_spec (length prev) 20);
    try lia; [|reflexivity].
  destruct prev; [discriminate | reflexivity].
Qed.

Lemma removelast_length_pred {A} (l : list A) : length (removelast l) = pred (length l).
Proof.
  induction l as [|x [|y l] IH]; [reflexivity..|].
  change (removelast (x :: y :: l)) with (x :: removelast (y :: l)).
  rewrite length_cons, IH. reflexivity.
Qed.

Lemma removelast_snoc {A} (l : list A) :
  l ≠ [] -> exists x, l = removelast l ++ [x].
Proof.
  intros Hne. destruct (exists_last Hne) as (l' & x & ->).
  exists x. by rewrite removelast_last.
Qed.

Lemma Forall_removelast {A} (P : A -> Prop) (l : list A) :
  Forall P l -> Forall P (removelast l).
Proof.
  induction 1 as [|x [|y l] Hx Hl IH]; [constructor..|].
  change (removelast (x :: y :: l)) with (x :: removelast (y :: l)).
  by constructor.
Qed.

(** The log the updater returns and the document it leaves in the store,
    when it returns. *)
Lemma history_updater_returns item prev ls updated ls' :
  history_updater item prev ls = JS.Normal (updated, ls') ->
  updated = (if (20 <? length (item :: prev))%nat
             then removelast (item :: prev) else item :: prev)
  ∧ (LocalStorage.getItem history_key ls'
       = Some (JSON.stringify (Doc.of_history updated))
     ∨ LocalStorage.getItem history_key ls'
       = Some (JSON.stringify (Doc.of_history (strip_preview <$> updated)))).
Proof.
  rewrite history_updater_cases.
  destruct (LocalStorage.setItem history_key _ ls) as [ls1|e1] eqn:H1.
  - intros [= <- <-]. split; [reflexivity|]. left.
    by apply StorageFacts.getItem_setItem in H1.
  - destruct (LocalStorage.setItem history_key
                (JSON.stringify (Doc.of_history (strip_preview <$> _))) ls)
      as [ls2|e2] eqn:H2; [|discriminate].
    intros [= <- <-]. split; [reflexivity|]. right.
    by apply StorageFacts.getItem_setItem in H2.
Qed.

(** What [saveToHistory] does with a result that is not unclear. *)
Lemma saveToHistory_clear r images idNow tsNow w :
  isUnclear (imageQualityCheck r) = false ->
  saveToHistory r images idNow tsNow w =
  match history_updater (newItem r images idNow tsNow) (history w) (localStorage w) with
  | JS.Normal (updated, ls') => Done (setLocalStorage ls' (setHistory updated w))
  | JS.Throw e => Uncaught e w
  end.
Proof. intros H. unfold saveToHistory. by rewrite H. Qed.

(** The state an append leaves, when it takes place: the log the updater
    returned, and in the store the document of that log, with or without
    its previews. *)
Lemma saveToHistory_returns r images idNow tsNow w w' :
  isUnclear (imageQualityCheck r) = false ->
  saveToHistory r images idNow tsNow w = Done w' ->
  history w' = (if (20 <? length (newItem r images idNow tsNow :: history w))%nat
                then removelast (newItem r images idNow tsNow :: history w)
                else newItem r images idNow tsNow :: history w)
  ∧ (LocalStorage.getItem history_key (localStorage w')
       = Some (JSON.stringify (Doc.of_history (history w')))
     ∨ LocalStorage.getItem history_key (localStorage w')
       = Some (JSON.stringify (Doc.of_history (strip_preview <$> history w')))).
Proof.
  intros Hclear. rewrite saveToHistory_clear by done.
  destruct (history_updater _ _ _) as [[updated ls']|e] eqn:Hup; [|discriminate].
  intros [= <-]. cbn [history localStorage setLocalStorage setHistory].
  by apply history_updater_returns in Hup.
Qed.

(** The twenty-first item on a full log: twenty items, the new one first,
    the oldest gone. *)
Example append_to_full_log :
  history (after (saveToHistory Sample.clear_result Sample.S1 21 21 Sample.full))
  = newItem Sample.clear_result Sample.S1 21 21 :: (Sample.entry <$> rev (seq 2 19)).
Proof. vm_compute. reflexivity. Qed.

(** Outside the bound the single [pop] does not restore it: a log of
    twenty-one items has twenty-one after an append. *)
Example append_beyond_bound :
  length (history (after (saveToHistory Sample.clear_result Sample.S1 22 22
                            (setHistory (Sample.entry 21 :: Sample.full_log) Sample.full))))
  = 21.
Proof. vm_compute. reflexivity. Qed.

Lemma saveToHistory_all_clear r images idNow tsNow w :
  all_clear (history w) -> all_clear (history (after (saveToHistory r images idNow tsNow w))).
Proof.
  intros Hall. unfold saveToHistory.
  destruct (isUnclear (imageQualityCheck r)) eqn:Hr; [exact Hall|].
  destruct (history_updater _ _ _) as [[updated ls']|e] eqn:Hup; [|exact Hall].
  apply history_updater_returns in Hup as [-> _]. cbn -[removelast Nat.ltb length].
  assert (all_clear (newItem r images idNow tsNow :: history w)) by by constructor.
  destruct (20 <? _)%nat; [by apply Forall_removelast | done].
Qed.

(** The fallback of the updater: when the store refuses the log and
    accepts the log without previews, the append takes place; the state
    keeps the previews, the store holds the log without them. *)
Lemma fallback_write_strips r images idNow tsNow w e ls' :
  isUnclear (imageQualityCheck r) = false ->
  let updated :=
    if (20 <? length (newItem r images idNow tsNow :: history w))%nat
    then removelast (newItem r images idNow tsNow :: history w)
    else newItem r images idNow tsNow :: history w in
  LocalStorage.setItem history_key (JSON.stringify (Doc.of_history updated))
    (localStorage w) = JS.Throw e ->
  LocalStorage.setItem history_key
    (JSON.stringify (Doc.of_history (strip_preview <$> updated))) (localStorage w)
  = JS.Normal ls' ->
  saveToHistory r images idNow tsNow w = Done (setLocalStorage ls' (setHistory updated w))
  ∧ LocalStorage.getItem history_key ls'
    = Some (JSON.stringify (Doc.of_history (strip_preview <$> updated))).
Proof.
  intros Hr updated H1 H2. rewrite saveToHistory_clear by done.
  rewrite history_updater_cases. fold updated. rewrite H1, H2.
  split; [reflexivity|]. by apply StorageFacts.getItem_setItem in H2.
Qed.

(** When the store refuses both writes, the exception of the second one
    leaves the updater: nothing is appended. *)
Lemma fallback_write_unguarded r images idNow tsNow w e1 e2 :
  isUnclear (imageQualityCheck r) = false ->
  let updated :=
    if (20 <? length (newItem r images idNow tsNow :: history w))%nat
    then removelast (newItem r images idNow tsNow :: history w)
    else newItem r images idNow tsNow :: history w in
  LocalStorage.setItem history_key (JSON.stringify (Doc.of_history updated))
    (localStorage w) = JS.Throw e1 ->
  LocalStorage.setItem history_key
    (JSON.stringify (Doc.of_history (strip_preview <$> updated))) (localStorage w)
  = JS.Throw e2 ->
  saveToHistory r images idNow tsNow w = Uncaught JS.QuotaExceededError w.
Proof.
  intros Hr updated H1 H2. rewrite saveToHistory_clear by done.
  rewrite history_updater_cases. fold updated. rewrite H1, H2.
  by rewrite (StorageFacts.setItem_throws _ _ _ _ H2).
Qed.

(** A store with room for the stripped log only: the first write is
    refused, the second accepted, and the result is in the log. *)
Example fallback_in_a_tight_store :
  LocalStorage.setItem history_key
    (JSON.stringify (Doc.of_history [newItem Sample.clear_result Sample.S1 1 1]))
    Sample.tight = JS.Throw JS.QuotaExceededError
  ∧ exists w', saveToHistory Sample.clear_result Sample.S1 1 1 (Sample.ready Sample.S1 Sample.tight)
               = Done w'
    ∧ history w' = [newItem Sample.clear_result Sample.S1 1 1]
    ∧ LocalStorage.getItem history_key (localStorage w')
      = Some (JSON.stringify
                (Doc.of_history [strip_preview (newItem Sample.clear_result Sample.S1 1 1)])).
Proof.
  split; [vm_compute; reflexivity|].
  eexists. split; [vm_compute; reflexivity|].
  split; vm_compute; reflexivity.
Qed.

(** C3, where the code departs from it.  The store has no room for the
    log, with or without previews: the second write throws inside the
    updater, outside any try block.  The exception is not swallowed, the
    result is not in the log, and the analysis handler that called
    [saveToHistory] ends with the exception uncaught. *)
Theorem C3_second_write_escapes :
  saveToHistory Sample.clear_result Sample.S1 1 1 (Sample.ready Sample.S1 Sample.nearly_full)
  = Uncaught JS.QuotaExceededError (Sample.ready Sample.S1 Sample.nearly_full)
  ∧ history (after (saveToHistory Sample.clear_result Sample.S1 1 1
                      (Sample.ready Sample.S1 Sample.nearly_full))) = []
  ∧ exists w', handleAnalysis_resume Sample.attempt1 (Fulfilled Sample.clear_result) 1 1
                 (handleAnalysis (Sample.ready Sample.S1 Sample.nearly_full)).1
               = Uncaught JS.QuotaExceededError w'
               ∧ history w' = [].
Proof.
  split; [vm_compute; reflexivity|]. split; [vm_compute; reflexivity|].
  eexists. split; vm_compute; reflexivity.
Qed.

End HistoryFacts.

(* ===================================================================== *)
(** ** The mount effect and the profile *)
(* ===================================================================== *)

Module LoadFacts.

Lemma load_profile_cases ls :
  load_profile ls =
  match doc_state (LocalStorage.getItem profile_key ls) with
  | Absent => JS.Normal (None, None)
  | Malformed => JS.Throw JS.SyntaxError
  | Parsed JSON.JNull => JS.Throw JS.TypeError
  | Parsed v => JS.Normal (Some v, Some (route v))
  end.
Proof.
  unfold load_profile, doc_state, JSON.parse_or_throw, route.
  destruct (LocalStorage.getItem profile_key ls) as [text|]; [|reflexivity].
  destruct (JS.truthy_string text); [|reflexivity].
  destruct (JSON.parse text) as [v|]; [|reflexivity].
  destruct v; simpl; try reflexivity.
  destruct (JSON.truthy (JSON.lookup_prop "age" props)); reflexivity.
Qed.

Lemma load_history_cases ls :
  load_history ls =
  match doc_state (LocalStorage.getItem history_key ls) with
  | Absent => JS.Normal None
  | Malformed => JS.Throw JS.SyntaxError
  | Parsed v => JS.Normal (Some v)
  end.
Proof.
  unfold load_history, doc_state, JSON.parse_or_throw.
  destruct (LocalStorage.getItem history_key ls) as [text|]; [|reflexivity].
  destruct (JS.truthy_string text); [|reflexivity].
  destruct (JSON.parse text); reflexivity.
Qed.

(** What the mount effect does is decided by the state of the two
    documents. *)
Lemma initialize_cases (ls : LocalStorage.t) :
  initialize ls =
  match doc_state (LocalStorage.getItem profile_key ls),
        doc_state (LocalStorage.getItem history_key ls) with
  | Malformed, _ => JS.Throw JS.SyntaxError
  | Parsed JSON.JNull, _ => JS.Throw JS.TypeError
  | Absent, Malformed => JS.Throw JS.SyntaxError
  | Parsed _, Malformed => JS.Throw JS.SyntaxError
  | p, h =>
      JS.Normal {| loadedProfile := parsed p;
                   loadedAppState := route <$> parsed p;
                   loadedHistory := parsed h |}
  end.
Proof.
  unfold initialize. rewrite load_profile_cases, load_history_cases.
  destruct (doc_state (LocalStorage.getItem profile_key ls)) as [| |v];
    [| reflexivity |].
  - destruct (doc_state (LocalStorage.getItem history_key ls)); reflexivity.
  - destruct v; try reflexivity;
      destruct (doc_state (LocalStorage.getItem history_key ls)); reflexivity.
Qed.

(** C4, as amended.  What the mount effect does is decided by the state
    of the two documents.  A profile that is not JSON, or a history that
    is not JSON, makes [JSON.parse] throw, and the exception leaves the
    effect; so does the profile [null].  In every other case the effect
    returns, and a document that parses is handed to its setter as
    parsed.  An absent document calls no setter: after the effect an
    absent profile leaves the empty profile and the onboarding screen, an
    absent history the empty log. *)
Theorem C4_load_by_document_state (ls : LocalStorage.t) :
  initialize ls =
  match doc_state (LocalStorage.getItem profile_key ls),
        doc_state (LocalStorage.getItem history_key ls) with
  | Malformed, _ => JS.Throw JS.SyntaxError
  | Parsed JSON.JNull, _ => JS.Throw JS.TypeError
  | Absent, Malformed => JS.Throw JS.SyntaxError
  | Parsed _, Malformed => JS.Throw JS.SyntaxError
  | p, h =>
      JS.Normal {| loadedProfile := parsed p;
                   loadedAppState := route <$> parsed p;
                   loadedHistory := parsed h |}
  end
  ∧ (forall (l : Loaded) (w : World),
       initialize ls = JS.Normal l ->
       apply_loaded l (initial ls) = Some w ->
       (doc_state (LocalStorage.getItem profile_key ls) = Absent ->
        userProfile w
        = {| age := EmptyString; gender := unset; healthContext := EmptyString |}
        ∧ appState w = ONBOARDING)
       ∧ (doc_state (LocalStorage.getItem history_key ls) = Absent -> history w = [])).
Proof.
  split; [apply initialize_cases|].
  intros l w Hinit Happ. rewrite initialize_cases in Hinit. split.
  - intros Hp. rewrite Hp in Hinit.
    destruct (doc_state (LocalStorage.getItem history_key ls)); [|discriminate|];
      injection Hinit as <-; unfold apply_loaded in Happ; simpl in Happ.
    + by injection Happ as <-.
    + destruct (Doc.to_history v); [|discriminate]. by injection Happ as <-.
  - intros Hh. rewrite Hh in Hinit.
    destruct (doc_state (LocalStorage.getItem profile_key ls)) as [| |v];
      [|discriminate|].
    + injection Hinit as <-. unfold apply_loaded in Happ. simpl in Happ.
      by injection Happ as <-.
    + destruct v; try discriminate; injection Hinit as <-;
        unfold apply_loaded in Happ; cbn [loadedProfile loadedHistory] in Happ;
        destruct (Doc.to_profile _); try discriminate; by injection Happ as <-.
Qed.

(** A profile document cut short, a history document cut short, and the
    profile document null: the effect throws on each. *)
Lemma C4_malformed_document_throws :
  initialize Sample.broken_profile = JS.Throw JS.SyntaxError
  ∧ initialize Sample.broken_history = JS.Throw JS.SyntaxError
  ∧ initialize Sample.null_profile = JS.Throw JS.TypeError.
Proof. repeat split; vm_compute; reflexivity. Qed.

(** The route of a typed profile: age and health context, not gender. *)
Lemma route_of_profile (p : UserProfile) :
  route (Doc.of_profile p)
  = if JS.truthy_string (age p) && JS.truthy_string (healthContext p)
    then DASHBOARD else ONBOARDING.
Proof. reflexivity. Qed.

(** The profile block of the effect, on the document of a typed profile. *)
Lemma load_profile_saved ls (p : UserProfile) :
  LocalStorage.getItem profile_key ls = Some (JSON.stringify (Doc.of_profile p)) ->
  load_profile ls = JS.Normal (Some (Doc.of_profile p), Some (route (Doc.of_profile p))).
Proof.
  intros Hdoc. rewrite load_profile_cases, Hdoc. unfold doc_state.
  rewrite JSONFacts.stringify_profile_truthy, JSONFacts.parse_stringify_profile.
  reflexivity.
Qed.

(** The state after the effect holds the profile of the document. *)
Lemma loaded_profile_typed ls (p : UserProfile) l w :
  LocalStorage.getItem profile_key ls = Some (JSON.stringify (Doc.of_profile p)) ->
  initialize ls = JS.Normal l ->
  apply_loaded l (initial ls) = Some w ->
  userProfile w = p ∧ appState w = route (Doc.of_profile p)
  ∧ activeTab w = scan ∧ currentResult w = None ∧ selectedImages w = [].
Proof.
  intros Hdoc Hinit Happ. unfold initialize in Hinit.
  rewrite (load_profile_saved ls p Hdoc) in Hinit. simpl in Hinit.
  destruct (load_history ls) as [h|e]; [|discriminate].
  simpl in Hinit. injection Hinit as <-.
  unfold apply_loaded in Happ. cbn [loadedProfile loadedAppState loadedHistory] in Happ.
  rewrite JSONFacts.to_profile_of_profile in Happ. simpl in Happ.
  destruct (match h with Some v => Doc.to_history v | None => Some [] end) as [hl|];
    [|discriminate].
  simpl in Happ. injection Happ as <-. repeat split; reflexivity.
Qed.

(** C9.  Saving a profile that the store has room for and then loading
    gives the profile back: the save returns, the document it wrote
    parses to the properties of the profile, and the state after the
    mount effect holds the profile. *)
Theorem C9_profile_round_trip (w : World) (p : UserProfile) :
  (LocalStorage.usage
     (<[profile_key := JSON.stringify (Doc.of_profile p)]>
        (LocalStorage.items (localStorage w)))
   <= LocalStorage.quota (localStorage w))%N ->
  exists w',
    handleProfileSave p w = Done w'
    ∧ load_profile (localStorage w')
      = JS.Normal (Some (Doc.of_profile p), Some (route (Doc.of_profile p)))
    ∧ Doc.to_profile (Doc.of_profile p) = Some p
    ∧ forall l w'',
        initialize (localStorage w') = JS.Normal l ->
        apply_loaded l (initial (localStorage w')) = Some w'' ->
        userProfile w'' = p.
Proof.
  intros Hroom. unfold handleProfileSave.
  cbn [localStorage setUserProfile].
  rewrite StorageFacts.setItem_accepted by exact Hroom.
  eexists. split; [reflexivity|].
  assert (Hdoc : LocalStorage.getItem profile_key
                   {| LocalStorage.items :=
                        <[profile_key := JSON.stringify (Doc.of_profile p)]>
                          (LocalStorage.items (localStorage w));
                      LocalStorage.quota := LocalStorage.quota (localStorage w) |}
                 = Some (JSON.stringify (Doc.of_profile p)))
    by apply lookup_insert_eq.
  split; [|split].
  - by apply load_profile_saved.
  - apply JSONFacts.to_profile_of_profile.
  - intros l w'' Hinit Happ.
    by destruct (loaded_profile_typed _ p l w'' Hdoc Hinit Happ).
Qed.

Lemma C9_profile_round_trip_witness :
  (LocalStorage.usage
     (<[profile_key := JSON.stringify (Doc.of_profile Sample.configured)]>
        (LocalStorage.items (localStorage (initial (Sample.store 5000000)))))
   <= LocalStorage.quota (localStorage (initial (Sample.store 5000000))))%N
  ∧ exists w',
      handleProfileSave Sample.configured (initial (Sample.store 5000000)) = Done w'
      ∧ load_profile (localStorage w')
        = JS.Normal (Some (Doc.of_profile Sample.configured),
                     Some (route (Doc.of_profile Sample.configured))).
Proof.
  assert (H : (LocalStorage.usage
                 (<[profile_key := JSON.stringify (Doc.of_profile Sample.configured)]>
                    (LocalStorage.items (localStorage (initial (Sample.store 5000000)))))
               <= LocalStorage.quota (localStorage (initial (Sample.store 5000000))))%N)
    by (vm_compute; discriminate).
  split; [exact H|].
  destruct (C9_profile_round_trip (initial (Sample.store 5000000)) Sample.configured H)
    as (w' & Hsave & Hload & _).
  exists w'. split; assumption.
Defined.

(** C10.  On startup the route of a saved profile is decided by its age
    and its health context alone: with both non-empty the effect routes
    to the dashboard whatever the gender, and with one of them empty it
    routes to the onboarding form, again whatever the gender.  When age
    and health context are given and the gender is unset, the dashboard
    the effect leaves shows, on its scan tab, the locked card and not
    the capture pane, and the analyze button is not offered. *)
Theorem C10_startup_routes_without_gender
    (ls : LocalStorage.t) (p : UserProfile) (l : Loaded) (w : World) :
  LocalStorage.getItem profile_key ls = Some (JSON.stringify (Doc.of_profile p)) ->
  initialize ls = JS.Normal l ->
  apply_loaded l (initial ls) = Some w ->
  (age p ≠ "" ∧ healthContext p ≠ "" ->
   loadedAppState l = Some DASHBOARD
   ∧ appState w = DASHBOARD
   ∧ (gender p = unset ->
      isProfileConfigured (userProfile w) = false
      ∧ render w = Main false (ScanTab Locked)
      ∧ offered w ClickAnalyze = false))
  ∧ (age p = "" ∨ healthContext p = "" ->
     loadedAppState l = Some ONBOARDING
     ∧ appState w = ONBOARDING
     ∧ render w = OnboardingForm).
Proof.
  intros Hdoc Hinit Happ.
  destruct (loaded_profile_typed ls p l w Hdoc Hinit Happ)
    as (Hp & Hstate & Htab & Hres & _).
  assert (Hloaded : loadedAppState l = Some (route (Doc.of_profile p))).
  { unfold initialize in Hinit. rewrite (load_profile_saved ls p Hdoc) in Hinit.
    simpl in Hinit. destruct (load_history ls); [|discriminate].
    simpl in Hinit. by injection Hinit as <-. }
  split.
  - intros [Hage Hctx].
    assert (Hroute : route (Doc.of_profile p) = DASHBOARD).
    { rewrite route_of_profile.
      destruct (age p); [done|]. destruct (healthContext p); [done|]. reflexivity. }
    split; [by rewrite Hloaded, Hroute|]. split; [by rewrite Hstate|].
    intros Hg.
    assert (Hconf : isProfileConfigured (userProfile w) = false).
    { rewrite Hp. unfold isProfileConfigured. rewrite Hg. simpl.
      by rewrite andb_false_r. }
    assert (Hrender : render w = Main false (ScanTab Locked)).
    { unfold render, render_scan. rewrite Hstate, Hroute, Htab, Hres, Hconf.
      reflexivity. }
    split; [exact Hconf|]. split; [exact Hrender|].
    unfold offered. by rewrite Hrender.
  - intros Hempty.
    assert (Hroute : route (Doc.of_profile p) = ONBOARDING).
    { rewrite route_of_profile. destruct Hempty as [-> | ->]; [reflexivity|].
      by rewrite andb_false_r. }
    split; [by rewrite Hloaded, Hroute|]. split; [by rewrite Hstate|].
    unfold render. by rewrite Hstate, Hroute.
Qed.

Lemma C10_startup_routes_without_gender_witness :
  (LocalStorage.getItem profile_key Sample.no_gender_store
   = Some (JSON.stringify (Doc.of_profile Sample.no_gender))
   ∧ initialize Sample.no_gender_store = JS.Normal Sample.no_gender_loaded
   ∧ apply_loaded Sample.no_gender_loaded (initial Sample.no_gender_store)
     = Some Sample.no_gender_started
   ∧ appState Sample.no_gender_started = DASHBOARD
   ∧ render Sample.no_gender_started = Main false (ScanTab Locked))
  ∧ (LocalStorage.getItem profile_key Sample.no_context_store
     = Some (JSON.stringify (Doc.of_profile Sample.no_context))
     ∧ initialize Sample.no_context_store = JS.Normal Sample.no_context_loaded
     ∧ apply_loaded Sample.no_context_loaded (initial Sample.no_context_store)
       = Some Sample.no_context_started
     ∧ appState Sample.no_context_started = ONBOARDING
     ∧ render Sample.no_context_started = OnboardingForm).
Proof.
  assert (H1 : LocalStorage.getItem profile_key Sample.no_gender_store
               = Some (JSON.stringify (Doc.of_profile Sample.no_gender)))
    by (vm_compute; reflexivity).
  assert (H2 : initialize Sample.no_gender_store = JS.Normal Sample.no_gender_loaded)
    by (vm_compute; reflexivity).
  assert (H3 : apply_loaded Sample.no_gender_loaded (initial Sample.no_gender_store)
               = Some Sample.no_gender_started)
    by (vm_compute; reflexivity).
  assert (G1 : LocalStorage.getItem profile_key Sample.no_context_store
               = Some (JSON.stringify (Doc.of_profile Sample.no_context)))
    by (vm_compute; reflexivity).
  assert (G2 : initialize Sample.no_context_store = JS.Normal Sample.no_context_loaded)
    by (vm_compute; reflexivity).
  assert (G3 : apply_loaded Sample.no_context_loaded (initial Sample.no_context_store)
               = Some Sample.no_context_started)
    by (vm_compute; reflexivity).
  split.
  - destruct (C10_startup_routes_without_gender _ _ _ _ H1 H2 H3) as [Hdash _].
    destruct Hdash as (_ & Hstate & Hlocked); [split; discriminate|].
    destruct (Hlocked eq_refl) as (_ & Hrender & _).
    repeat split; assumption.
  - destruct (C10_startup_routes_without_gender _ _ _ _ G1 G2 G3) as [_ Hform].
    destruct Hform as (_ & Hstate & Hrender); [by right|].
    repeat split; assumption.
Defined.

End LoadFacts.

(* ===================================================================== *)
(** ** The scan: gate, failure, late response *)
(* ===================================================================== *)

Module ScanFacts.

(** Only the analysis handler calls the gateway. *)
Lemma handle_requests ev w :
  requests (after (handle ev w))
  = match ev with
    | ClickAnalyze => requests (handleAnalysis w).1
    | _ => requests w
    end.
Proof.
  destruct ev as [p|images| | | | |t|c|i|a s idNow tsNow]; simpl; try reflexivity.
  - unfold handleProfileSave. by destruct (LocalStorage.setItem _ _ _).
  - by destruct t.
  - by destruct c.
  - by destruct (history w !! i).
  - destruct s as [r|e]; [|reflexivity]. simpl. unfold saveToHistory.
    destruct (isUnclear (imageQualityCheck r)); [reflexivity|].
    by destruct (history_updater _ _ _) as [[? ?]|?].
Qed.

(** The analyze button is rendered only for a configured profile. *)
Lemma analyze_offered w :
  offered w ClickAnalyze = true ->
  isProfileConfigured (userProfile w) = true
  ∧ appState w = DASHBOARD ∧ activeTab w = scan ∧ currentResult w = None
  ∧ selectedImages w ≠ [] ∧ isAnalyzing w = false.
Proof.
  unfold offered, render, render_scan.
  destruct (appState w); [discriminate|].
  destruct (activeTab w); [|discriminate..].
  destruct (isProfileConfigured (userProfile w)); [|discriminate]. simpl.
  destruct (currentResult w); [discriminate|].
  destruct (selectedImages w); [discriminate|].
  destruct (isAnalyzing w); [discriminate|]. done.
Qed.

(** C7.  [isProfileConfigured] holds exactly when the age is not empty,
    the gender is set and the health context is not empty.  While it does
    not hold, no event the application offers adds a call of the gateway,
    and what the scan tab shows is the locked card, whose button leads to
    the settings (before the first save, the onboarding form is all that
    is shown). *)
Theorem C7_profile_gate :
  (forall p : UserProfile,
     isProfileConfigured p = true
     <-> age p ≠ "" ∧ gender p ≠ unset ∧ healthContext p ≠ "")
  ∧ (forall (w : World) (ev : Event) (o : outcome),
       isProfileConfigured (userProfile w) = false ->
       step ev w = Some o ->
       requests (after o) = requests w)
  ∧ (forall w : World,
       isProfileConfigured (userProfile w) = false ->
       match render w with
       | OnboardingForm => True
       | Main _ (ScanTab pane) =>
           pane = Locked ∧ step ClickSetup w = Some (Done (setActiveTab settings w))
       | Main _ _ => True
       end).
Proof.
  split; [|split].
  - intros [a g h]. unfold isProfileConfigured. simpl.
    rewrite !andb_true_iff.
    destruct a, g, h; simpl; intuition (discriminate || congruence).
  - intros w ev o Hgate. unfold step.
    destruct (offered w ev) eqn:Hoff; [|discriminate].
    intros [= <-]. rewrite handle_requests.
    destruct ev; try reflexivity.
    apply analyze_offered in Hoff as [Hconf _]. congruence.
  - intros w Hgate. unfold step, offered, render, render_scan. rewrite Hgate.
    destruct (appState w); [done|]. by destruct (activeTab w).
Qed.

(** With a configured profile and an image selected the button is there,
    and a click on it calls the gateway. *)
Example configured_scan_dispatches :
  step ClickAnalyze (Sample.ready Sample.S1 (Sample.store 5000000))
  = Some (Done (handleAnalysis (Sample.ready Sample.S1 (Sample.store 5000000))).1)
  ∧ requests (handleAnalysis (Sample.ready Sample.S1 (Sample.store 5000000))).1
    = [Sample.attempt1].
Proof. split; reflexivity. Qed.

Lemma analyze_offered_when w :
  appState w = DASHBOARD -> activeTab w = scan ->
  isProfileConfigured (userProfile w) = true -> currentResult w = None ->
  selectedImages w ≠ [] -> isAnalyzing w = false ->
  offered w ClickAnalyze = true.
Proof.
  intros Hs Ht Hc Hr Hi Ha. unfold offered, render, render_scan.
  rewrite Hs, Ht, Hc, Hr, Ha. simpl. by destruct (selectedImages w).
Qed.

(** The state in which [handleAnalysis] suspends. *)
Lemma handleAnalysis_started w w1 a :
  handleAnalysis w = (w1, Some a) ->
  a = {| attemptProfile := userProfile w; attemptImages := selectedImages w |}
  ∧ w1 = request a (setCurrentResult None (setIsAnalyzing true w))
  ∧ selectedImages w ≠ [].
Proof.
  unfold handleAnalysis. destruct (selectedImages w) eqn:Hsel; [discriminate|].
  intros [= <- <-]. by repeat split.
Qed.

(** C8.  When the promise of the gateway is rejected, the handler shows
    the message and clears the busy flag; the selection, the result, the
    log and the store are as they were.  After a failed attempt the
    analyze button is offered again on the same selection.  After an
    unclear result, by contrast, what is offered is the retry of the
    result view, and that retry empties the selection. *)
Theorem C8_failure_keeps_selection :
  (forall (w : World) (a : Attempt) (e : JS.exn) (idNow tsNow : Z),
     exists w',
       handleAnalysis_resume a (Rejected e) idNow tsNow w = Done w'
       ∧ selectedImages w' = selectedImages w
       ∧ history w' = history w
       ∧ localStorage w' = localStorage w
       ∧ currentResult w' = currentResult w
       ∧ isAnalyzing w' = false
       ∧ alerts w' = JS.message e :: alerts w)
  ∧ (forall (w w1 : World) (a : Attempt) (e : JS.exn) (idNow tsNow : Z),
       offered w ClickAnalyze = true ->
       handleAnalysis w = (w1, Some a) ->
       selectedImages (after (handleAnalysis_resume a (Rejected e) idNow tsNow w1))
       = selectedImages w
       ∧ offered (after (handleAnalysis_resume a (Rejected e) idNow tsNow w1)) ClickAnalyze
         = true)
  ∧ (forall (w w1 : World) (a : Attempt) (r : AnalysisResult) (idNow tsNow : Z),
       offered w ClickAnalyze = true ->
       handleAnalysis w = (w1, Some a) ->
       isUnclear (imageQualityCheck r) = true ->
       exists w2,
         handleAnalysis_resume a (Fulfilled r) idNow tsNow w1 = Done w2
         ∧ selectedImages w2 = selectedImages w
         ∧ offered w2 ClickAnalyze = false
         ∧ offered w2 ClickRetry = true
         ∧ selectedImages (after (handle ClickRetry w2)) = []).
Proof.
  split; [|split].
  - intros w a e idNow tsNow. eexists. split; [reflexivity|]. repeat split.
  - intros w w1 a e idNow tsNow Hoff Hstart.
    apply analyze_offered in Hoff as (Hc & Hs & Ht & Hr & Hi & Ha).
    apply handleAnalysis_started in Hstart as (-> & -> & _).
    split; [reflexivity|]. by apply analyze_offered_when.
  - intros w w1 a r idNow tsNow Hoff Hstart Hunclear.
    apply analyze_offered in Hoff as (Hc & Hs & Ht & Hr & Hi & Ha).
    apply handleAnalysis_started in Hstart as (-> & -> & _).
    unfold handleAnalysis_resume, saveToHistory. rewrite Hunclear.
    eexists. split; [reflexivity|]. split; [reflexivity|].
    unfold offered, render, render_scan. cbn -[isProfileConfigured].
    rewrite Hs, Ht, Hc. simpl. rewrite Hunclear. by repeat split.
Qed.

Lemma head_of_updated {A} (x : A) (l : list A) :
  head (if (20 <? length (x :: l))%nat then removelast (x :: l) else x :: l) = Some x.
Proof.
  destruct (20 <? length (x :: l))%nat eqn:Hlen; [|reflexivity].
  destruct l; [discriminate | reflexivity].
Qed.

(** What the handler does with a fulfilled promise, in any state. *)
Lemma resume_fulfilled (w : World) (a : Attempt) (r : AnalysisResult) (idNow tsNow : Z) :
  isUnclear (imageQualityCheck r) = false ->
  match handleAnalysis_resume a (Fulfilled r) idNow tsNow w with
  | Done w' =>
      currentResult w' = Some r ∧ isAnalyzing w' = false
      ∧ head (history w') = Some (newItem r (attemptImages a) idNow tsNow)
      ∧ selectedImages w' = selectedImages w ∧ requests w' = requests w
  | Uncaught e w' =>
      e = JS.QuotaExceededError
      ∧ currentResult w' = Some r ∧ isAnalyzing w' = false ∧ history w' = history w
      ∧ selectedImages w' = selectedImages w ∧ requests w' = requests w
  end.
Proof.
  intros Hr. unfold handleAnalysis_resume.
  rewrite HistoryFacts.saveToHistory_clear by done.
  rewrite HistoryFacts.history_updater_cases.
  cbn [history localStorage setCurrentResult].
  destruct (LocalStorage.setItem history_key _ (localStorage w)) as [ls1|e1];
    [cbn -[removelast Nat.ltb length head newItem]; by rewrite head_of_updated|].
  destruct (LocalStorage.setItem history_key _ (localStorage w)) as [ls2|e2] eqn:H2;
    [cbn -[removelast Nat.ltb length head newItem]; by rewrite head_of_updated|].
  apply StorageFacts.setItem_throws in H2 as ->. by cbn.
Qed.

(** While an analysis is in flight the analyze button is not offered:
    from what is rendered, no second attempt starts before the first has
    settled. *)
Lemma busy_blocks_analyze w : isAnalyzing w = true -> offered w ClickAnalyze = false.
Proof.
  intros Hbusy. destruct (offered w ClickAnalyze) eqn:Hoff; [|reflexivity].
  apply analyze_offered in Hoff as (_ & _ & _ & _ & _ & Hidle). congruence.
Qed.

(** An event other than a click on the analyze button and the settlement
    of a promise leaves the busy flag as it is. *)
Lemma handle_keeps_busy ev w :
  settles ev = false -> ev ≠ ClickAnalyze ->
  isAnalyzing (after (handle ev w)) = isAnalyzing w.
Proof.
  intros Hset Hev.
  destruct ev as [p|images| | | | |t|c|i|a s idNow tsNow]; simpl;
    try reflexivity; try done.
  - unfold handleProfileSave. by destruct (LocalStorage.setItem _ _ _).
  - by destruct t.
  - by destruct c.
  - by destruct (history w !! i).
Qed.

(** While an attempt is in flight, whatever the user does, the busy flag
    stays up and the gateway is not called again, until a promise
    settles. *)
Lemma busy_until_settled evs : forall w w',
  isAnalyzing w = true ->
  Forall (fun ev => settles ev = false) evs ->
  run evs w = Some w' ->
  isAnalyzing w' = true ∧ requests w' = requests w.
Proof.
  induction evs as [|ev evs IH]; intros w w' Hbusy Hevs Hrun.
  - simpl in Hrun. by injection Hrun as <-.
  - apply Forall_cons in Hevs as [Hev Hevs]. simpl in Hrun. unfold step in Hrun.
    destruct (offered w ev) eqn:Hoff; [|discriminate].
    assert (Hne : ev ≠ ClickAnalyze).
    { intros ->. rewrite busy_blocks_analyze in Hoff by exact Hbusy. discriminate. }
    destruct (IH (after (handle ev w)) w') as [Hb Hq]; [|exact Hevs|exact Hrun|].
    + by rewrite handle_keeps_busy.
    + split; [exact Hb|]. rewrite Hq, handle_requests. by destruct ev.
Qed.

(** C2, as amended.  An attempt is started by the analyze button on the
    selection of that moment.  Whatever the user then does before its
    response arrives, a reset of the scan and another selection
    included, the busy flag stays up, the analyze button is not offered
    and no second attempt is started.  The response, when it arrives,
    is handled and not recognised as late: where the history update
    returns, the result is the current result, the busy flag is down,
    the selection is the one made in between, and the log is headed by
    an item for the result with the first image of the first selection.
    The reset and the selection [S2] of the claim are such a run. *)
Theorem C2_late_response_is_applied
    (w0 w3 : World) (evs : list Event) (S2 : list string)
    (r : AnalysisResult) (idNow tsNow : Z) :
  offered w0 ClickAnalyze = true ->
  Forall (fun ev => settles ev = false) evs ->
  run (ClickAnalyze :: evs) w0 = Some w3 ->
  isUnclear (imageQualityCheck r) = false ->
  let a1 := {| attemptProfile := userProfile w0; attemptImages := selectedImages w0 |} in
  (isAnalyzing w3 = true
   ∧ requests w3 = a1 :: requests w0
   ∧ step ClickAnalyze w3 = None)
  ∧ step (Settled a1 (Fulfilled r) idNow tsNow) w3
    = Some (handleAnalysis_resume a1 (Fulfilled r) idNow tsNow w3)
  ∧ match handleAnalysis_resume a1 (Fulfilled r) idNow tsNow w3 with
    | Done w5 =>
        currentResult w5 = Some r ∧ isAnalyzing w5 = false
        ∧ head (history w5) = Some (newItem r (selectedImages w0) idNow tsNow)
        ∧ selectedImages w5 = selectedImages w3
        ∧ requests w5 = a1 :: requests w0
    | Uncaught e _ => e = JS.QuotaExceededError
    end
  ∧ exists w, run [ClickAnalyze; ClickTab scan; ImagesSelected S2] w0 = Some w
              ∧ selectedImages w = S2 ∧ currentResult w = None
              ∧ isAnalyzing w = true ∧ step ClickAnalyze w = None.
Proof.
  intros Hoff Hevs Hrun Hr a1.
  pose proof (analyze_offered w0 Hoff) as (Hconf & Hstate & Htab & Hres & Hsel & Hidle).
  assert (Hstart : handleAnalysis w0
                   = (request a1 (setCurrentResult None (setIsAnalyzing true w0)), Some a1)).
  { unfold handleAnalysis. subst a1. by destruct (selectedImages w0). }
  simpl in Hrun. unfold step in Hrun. rewrite Hoff in Hrun.
  cbn [handle after] in Hrun. rewrite Hstart in Hrun. cbn [fst] in Hrun.
  assert (Hup : isAnalyzing (request a1 (setCurrentResult None (setIsAnalyzing true w0)))
                = true) by reflexivity.
  destruct (busy_until_settled evs _ w3 Hup Hevs Hrun) as [Hbusy Hreq].
  cbn [requests request setCurrentResult setIsAnalyzing] in Hreq.
  split; [|split; [|split]].
  - split; [exact Hbusy|]. split; [exact Hreq|].
    unfold step. by rewrite busy_blocks_analyze.
  - reflexivity.
  - pose proof (resume_fulfilled w3 a1 r idNow tsNow Hr) as H.
    destruct (handleAnalysis_resume a1 (Fulfilled r) idNow tsNow w3) as [w5|e w5].
    + destruct H as (Hc & Hb & Hh & Hs & Hq). rewrite Hq, Hreq. by repeat split.
    + by destruct H as [He _].
  - exists (setSelectedImages S2
              (setActiveTab scan
                 (resetScan (request a1 (setCurrentResult None (setIsAnalyzing true w0)))))).
    split.
    + simpl. unfold step. rewrite Hoff. cbn [handle after]. rewrite Hstart. cbn [fst].
      assert (Hnav : offered (request a1 (setCurrentResult None (setIsAnalyzing true w0)))
                       (ClickTab scan) = true).
      { unfold offered, render. simpl. by rewrite Hstate, Htab. }
      rewrite Hnav. reflexivity.
    + split; [reflexivity|]. split; [reflexivity|]. split; [reflexivity|].
      unfold step. by rewrite busy_blocks_analyze.
Qed.

Lemma C2_late_response_is_applied_witness :
  offered (Sample.ready Sample.S1 (Sample.store 5000000)) ClickAnalyze = true
  ∧ run Sample.reselect (Sample.ready Sample.S1 (Sample.store 5000000))
    = Some Sample.reselected
  ∧ step ClickAnalyze Sample.reselected = None
  ∧ match handleAnalysis_resume Sample.attempt1 (Fulfilled Sample.clear_result) 1 1
            Sample.reselected with
    | Done w5 =>
        currentResult w5 = Some Sample.clear_result ∧ isAnalyzing w5 = false
        ∧ head (history w5) = Some (newItem Sample.clear_result Sample.S1 1 1)
        ∧ selectedImages w5 = selectedImages Sample.reselected
        ∧ requests w5 = [Sample.attempt1]
    | Uncaught e _ => e = JS.QuotaExceededError
    end.
Proof.
  assert (H1 : offered (Sample.ready Sample.S1 (Sample.store 5000000)) ClickAnalyze = true)
    by (vm_compute; reflexivity).
  assert (H2 : Forall (fun ev => settles ev = false)
                 [ClickTab history_tab; ClickTab scan; ImagesSelected Sample.S2])
    by (repeat constructor).
  assert (H3 : run (ClickAnalyze
                      :: [ClickTab history_tab; ClickTab scan; ImagesSelected Sample.S2])
                 (Sample.ready Sample.S1 (Sample.store 5000000))
               = Some Sample.reselected) by (vm_compute; reflexivity).
  destruct (C2_late_response_is_applied _ _ _ Sample.S2 Sample.clear_result 1 1
              H1 H2 H3 eq_refl) as ((_ & _ & Hblocked) & _ & Happlied & _).
  split; [exact H1|]. split; [exact H3|]. split; [exact Hblocked|]. exact Happlied.
Defined.

(** C2, the claim as stated.  After the attempt on [S1], the reset and
    the selection [S2], the second attempt of the claim cannot be
    started: the analyze button is not offered while the first attempt
    is in flight.  The response of the first attempt, arriving then, is
    not dropped: it is the current result, shown over the selection
    [S2], the busy flag is down, and the log holds an item for it with
    the image of [S1]. *)
Lemma C2_stale_response_counterexample :
  run Sample.reselect (Sample.ready Sample.S1 (Sample.store 5000000))
  = Some Sample.reselected
  ∧ selectedImages Sample.reselected = Sample.S2
  ∧ isAnalyzing Sample.reselected = true
  ∧ requests Sample.reselected = [Sample.attempt1]
  ∧ step ClickAnalyze Sample.reselected = None
  ∧ run [Settled Sample.attempt1 (Fulfilled Sample.clear_result) 1 1] Sample.reselected
    = Some Sample.late_applied
  ∧ handleAnalysis_resume Sample.attempt1 (Fulfilled Sample.clear_result) 1 1
      Sample.reselected = Done Sample.late_applied
  ∧ currentResult Sample.late_applied = Some Sample.clear_result
  ∧ isAnalyzing Sample.late_applied = false
  ∧ history Sample.late_applied = [newItem Sample.clear_result Sample.S1 1 1]
  ∧ selectedImages Sample.late_applied = Sample.S2
  ∧ render Sample.late_applied = Main true (ScanTab (ResultView Sample.clear_result)).
Proof.
  assert (Hdone : handleAnalysis_resume Sample.attempt1 (Fulfilled Sample.clear_result) 1 1
                    Sample.reselected = Done Sample.late_applied)
    by (vm_compute; reflexivity).
  split; [vm_compute; reflexivity|]. split; [vm_compute; reflexivity|].
  split; [vm_compute; reflexivity|]. split; [vm_compute; reflexivity|].
  split; [vm_compute; reflexivity|]. split; [vm_compute; reflexivity|].
  split; [exact Hdone|].
  repeat split; vm_compute; reflexivity.
Qed.

End ScanFacts.

(* ===================================================================== *)
(** ** Sessions: what holds in every state of the application *)
(* ===================================================================== *)

Module SessionFacts.

Lemma keys_differ : history_key ≠ profile_key.
Proof. discriminate. Qed.

Lemma all_clear_strip l : all_clear l -> all_clear (strip_preview <$> l).
Proof. unfold all_clear. rewrite Forall_fmap. intros H. eapply Forall_impl; [exact H|]. by intros []. Qed.

(** The updater writes the history document and no other. *)
Lemma history_updater_other_key item prev ls updated ls' k :
  history_key ≠ k ->
  history_updater item prev ls = JS.Normal (updated, ls') ->
  LocalStorage.getItem k ls' = LocalStorage.getItem k ls.
Proof.
  intros Hk. rewrite HistoryFacts.history_updater_cases.
  destruct (LocalStorage.setItem history_key _ ls) as [ls1|e1] eqn:H1.
  - intros [= <- <-]. exact (StorageFacts.getItem_setItem_other _ _ _ _ _ Hk H1).
  - destruct (LocalStorage.setItem history_key
                (JSON.stringify (Doc.of_history (strip_preview <$> _))) ls)
      as [ls2|e2] eqn:H2; [|intros [=]].
    intros [= <- <-]. exact (StorageFacts.getItem_setItem_other _ _ _ _ _ Hk H2).
Qed.

Lemma invariant_saveToHistory r images idNow tsNow w :
  invariant w -> invariant (after (saveToHistory r images idNow tsNow w)).
Proof.
  intros (Hlen & Hclear & Hdoc & Hprof). unfold saveToHistory.
  destruct (isUnclear (imageQualityCheck r)) eqn:Hr; [done|].
  destruct (history_updater _ _ _) as [[updated ls']|e] eqn:Hup; [|done].
  pose proof (HistoryFacts.saveToHistory_all_clear r images idNow tsNow w Hclear) as Hc.
  unfold saveToHistory in Hc. rewrite Hr, Hup in Hc. simpl in Hc.
  pose proof (history_updater_other_key _ _ _ _ _ profile_key keys_differ Hup) as Hsame.
  apply HistoryFacts.history_updater_returns in Hup as [Hu Hd].
  assert (Hbound : length updated <= 20).
  { rewrite Hu, HistoryFacts.updated_within_bound by done.
    destruct (Nat.eqb_spec (length (history w)) 20); simpl;
      rewrite ?HistoryFacts.removelast_length_pred; lia. }
  simpl. repeat split; [done | done | | ].
  - unfold history_doc_ok. simpl. destruct Hd as [-> | ->].
    + by exists updated.
    + exists (strip_preview <$> updated).
      split; [done|]. split; [by rewrite length_fmap | by apply all_clear_strip].
  - unfold profile_doc_ok in *. simpl. by rewrite Hsame.
Qed.

Lemma invariant_handleProfileSave p w :
  invariant w -> invariant (after (handleProfileSave p w)).
Proof.
  intros (Hlen & Hclear & Hdoc & Hprof). unfold handleProfileSave.
  destruct (LocalStorage.setItem profile_key _ _) as [ls'|e] eqn:Hset; [|done].
  simpl in *. repeat split; [done | done | |].
  - unfold history_doc_ok in *. simpl.
    by rewrite (StorageFacts.getItem_setItem_other _ _ _ _ _ (not_eq_sym keys_differ) Hset).
  - unfold profile_doc_ok. simpl.
    rewrite (StorageFacts.getItem_setItem _ _ _ _ Hset). by exists p.
Qed.

Lemma invariant_clearHistory c w : invariant w -> invariant (clearHistory c w).
Proof.
  intros (Hlen & Hclear & Hdoc & Hprof). destruct c; [|done].
  unfold clearHistory. repeat split; simpl.
  - lia.
  - constructor.
  - unfold history_doc_ok, LocalStorage.getItem, LocalStorage.removeItem. simpl.
    by rewrite lookup_delete_eq.
  - unfold profile_doc_ok, LocalStorage.getItem, LocalStorage.removeItem in *. simpl.
    by rewrite lookup_delete_ne by exact keys_differ.
Qed.

(** Every handler keeps the invariant. *)
Lemma invariant_step ev w o : invariant w -> step ev w = Some o -> invariant (after o).
Proof.
  intros Hinv. unfold step. destruct (offered w ev); [|discriminate].
  intros [= <-]. destruct ev as [p|images| | | | |t|c|i|a s idNow tsNow]; simpl;
    try exact Hinv.
  - by apply invariant_handleProfileSave.
  - unfold handleAnalysis. by destruct (selectedImages w).
  - by destruct t.
  - by apply invariant_clearHistory.
  - by destruct (history w !! i).
  - destruct s as [r|e]; [|exact Hinv]. simpl.
    pose proof (invariant_saveToHistory r (attemptImages a) idNow tsNow
                  (setCurrentResult (Some r) w) Hinv) as H.
    by destruct (saveToHistory _ _ _ _ _).
Qed.

(** A text tells its log, and a text tells its profile. *)
Lemma stringify_history_inj l l' :
  JSON.stringify (Doc.of_history l) = JSON.stringify (Doc.of_history l') -> l = l'.
Proof.
  intros Heq. apply (f_equal JSON.parse) in Heq.
  rewrite !JSONFacts.parse_stringify_history in Heq.
  assert (Hdoc : Doc.of_history l = Doc.of_history l') by congruence.
  apply (f_equal Doc.to_history) in Hdoc.
  rewrite !JSONFacts.to_history_of_history in Hdoc. congruence.
Qed.

Lemma stringify_profile_inj p p' :
  JSON.stringify (Doc.of_profile p) = JSON.stringify (Doc.of_profile p') -> p = p'.
Proof.
  intros Heq. apply (f_equal JSON.parse) in Heq.
  rewrite !JSONFacts.parse_stringify_profile in Heq.
  assert (Hdoc : Doc.of_profile p = Doc.of_profile p') by congruence.
  apply (f_equal Doc.to_profile) in Hdoc.
  rewrite !JSONFacts.to_profile_of_profile in Hdoc. congruence.
Qed.

(** The effect reads a history document that the application wrote. *)
Lemma load_history_written ls l :
  LocalStorage.getItem history_key ls = Some (JSON.stringify (Doc.of_history l)) ->
  load_history ls = JS.Normal (Some (Doc.of_history l)).
Proof.
  intros Hdoc. rewrite LoadFacts.load_history_cases, Hdoc. unfold doc_state.
  rewrite JSONFacts.parse_stringify_history.
  by destruct (JSONFacts.stringify_head _ (JSONFacts.written_history l))
    as (c & s & -> & _).
Qed.

(** On a store that satisfies the invariant the mount effect returns and
    its documents have the declared shape: the state it leaves holds the
    profile and the log of the documents, and satisfies the invariant. *)
Lemma restart_returns w :
  invariant w ->
  exists w',
    restart w = Some w' ∧ invariant w'
    ∧ localStorage w' = localStorage w
    ∧ (forall l, LocalStorage.getItem history_key (localStorage w)
                 = Some (JSON.stringify (Doc.of_history l)) -> history w' = l)
    ∧ (forall p, LocalStorage.getItem profile_key (localStorage w)
                 = Some (JSON.stringify (Doc.of_profile p)) -> userProfile w' = p).
Proof.
  intros (Hlen & Hclear & Hdoc & Hprof). unfold restart, initialize.
  assert (Hp : exists pa, load_profile (localStorage w) = JS.Normal pa
             ∧ (pa.1 = None ∧ LocalStorage.getItem profile_key (localStorage w) = None
                ∨ exists p, pa.1 = Some (Doc.of_profile p)
                    ∧ LocalStorage.getItem profile_key (localStorage w)
                      = Some (JSON.stringify (Doc.of_profile p)))).
  { unfold profile_doc_ok in Hprof.
    destruct (LocalStorage.getItem profile_key (localStorage w)) as [text|] eqn:Hget.
    - destruct Hprof as (p & ->). eexists. split.
      + by apply LoadFacts.load_profile_saved.
      + right. by exists p.
    - eexists. split.
      + rewrite LoadFacts.load_profile_cases, Hget. reflexivity.
      + by left. }
  assert (Hh : exists h, load_history (localStorage w) = JS.Normal h
             ∧ (h = None ∧ LocalStorage.getItem history_key (localStorage w) = None
                ∨ exists l, h = Some (Doc.of_history l)
                    ∧ LocalStorage.getItem history_key (localStorage w)
                      = Some (JSON.stringify (Doc.of_history l))
                    ∧ length l <= 20 ∧ all_clear l)).
  { unfold history_doc_ok in Hdoc.
    destruct (LocalStorage.getItem history_key (localStorage w)) as [text|] eqn:Hget.
    - destruct Hdoc as (l & -> & Hl & Hc). eexists. split.
      + by apply load_history_written.
      + right. by exists l.
    - eexists. split.
      + rewrite LoadFacts.load_history_cases, Hget. reflexivity.
      + by left. }
  destruct Hp as ([pv pr] & -> & Hp), Hh as (h & -> & Hh).
  cbn [mbind JS.completion_bind mret JS.completion_ret fst snd].
  unfold apply_loaded. cbn [loadedProfile loadedHistory loadedAppState].
  cbn [fst] in Hp.
  destruct Hp as [[-> Hpnone] | (p & -> & Hpdoc)],
           Hh as [[-> Hhnone] | (l & -> & Hhdoc & Hl & Hc)];
    rewrite ?JSONFacts.to_profile_of_profile, ?JSONFacts.to_history_of_history;
    cbn [mbind option_bind];
    (eexists; split; [reflexivity|]);
    (split; [repeat split; simpl; first [done | lia | constructor | idtac]|]).
  all: try (split; [reflexivity|]).
  all: try (split; [intros l' Heq | intros p' Heq]; simpl).
  all: try congruence.
  all: try (apply stringify_history_inj; congruence).
  all: apply stringify_profile_inj; congruence.
Qed.

(** The invariant holds in every state of the application. *)
Theorem reachable_invariant w : reachable w -> invariant w.
Proof.
  induction 1 as [ls Hp Hh | w ev o _ IH Hstep | w w' _ IH Hrestart].
  - repeat split; simpl; [lia | constructor | |].
    + unfold history_doc_ok. simpl. by rewrite Hh.
    + unfold profile_doc_ok. simpl. by rewrite Hp.
  - by apply (invariant_step ev w).
  - destruct (restart_returns w IH) as (w'' & Hr & Hinv & _). congruence.
Qed.

(** The documents the application writes are always loaded back: in no
    state of the application does a restart throw. *)
Theorem restart_never_throws w : reachable w -> exists w', restart w = Some w'.
Proof.
  intros Hw. destruct (restart_returns w (reachable_invariant w Hw)) as (w' & Hr & _).
  eauto.
Qed.

(** A log that was written is the log of the next session, with its
    previews or, after the fallback, without them. *)
Lemma history_survives_restart r images idNow tsNow w w1 :
  invariant w ->
  isUnclear (imageQualityCheck r) = false ->
  saveToHistory r images idNow tsNow w = Done w1 ->
  exists w2, restart w1 = Some w2
    ∧ (history w2 = history w1 ∨ history w2 = strip_preview <$> history w1).
Proof.
  intros Hinv Hr Hsave.
  pose proof (invariant_saveToHistory r images idNow tsNow w Hinv) as Hinv1.
  rewrite Hsave in Hinv1. simpl in Hinv1.
  destruct (restart_returns w1 Hinv1) as (w2 & Hrestart & _ & _ & Hlog & _).
  exists w2. split; [exact Hrestart|].
  destruct (HistoryFacts.saveToHistory_returns r images idNow tsNow w w1 Hr Hsave)
    as [_ [Hdoc|Hdoc]]; [left | right]; by apply Hlog.
Qed.

(** C5.  On a log within its bound, an append that takes place puts the
    new item at the head and, when the log was full, drops its last item
    and nothing else: the log of twenty items becomes the new item
    followed by the first nineteen.  The log stays within the bound, and
    the document in the store is the log (or the log without previews).
    The bound holds in every state of the application, of the log and of
    the document in the store.  The updater pops once: on a log of more
    than twenty items an append drops the last item and no more, and
    the log keeps its length. *)
Theorem C5_append_bounded :
  (forall (w w' : World) (r : AnalysisResult) (images : list string) (idNow tsNow : Z),
     length (history w) <= 20 ->
     isUnclear (imageQualityCheck r) = false ->
     saveToHistory r images idNow tsNow w = Done w' ->
     history w' = newItem r images idNow tsNow
                  :: (if (length (history w) =? 20)%nat
                      then removelast (history w) else history w)
     ∧ length (history w') <= 20
     ∧ (length (history w) = 20 ->
        length (history w') = 20
        ∧ exists oldest, history w = removelast (history w) ++ [oldest])
     ∧ (LocalStorage.getItem history_key (localStorage w')
          = Some (JSON.stringify (Doc.of_history (history w')))
        ∨ LocalStorage.getItem history_key (localStorage w')
          = Some (JSON.stringify (Doc.of_history (strip_preview <$> history w')))))
  ∧ (forall w : World,
       reachable w -> length (history w) <= 20 ∧ history_doc_ok (localStorage w))
  ∧ (forall (w w' : World) (r : AnalysisResult) (images : list string) (idNow tsNow : Z),
       20 < length (history w) ->
       isUnclear (imageQualityCheck r) = false ->
       saveToHistory r images idNow tsNow w = Done w' ->
       history w' = newItem r images idNow tsNow :: removelast (history w)
       ∧ length (history w') = length (history w)).
Proof.
  split; [|split].
  - intros w w' r images idNow tsNow Hle Hclear Hsave.
    destruct (HistoryFacts.saveToHistory_returns r images idNow tsNow w w' Hclear Hsave)
      as [Hlog Hdoc].
    rewrite HistoryFacts.updated_within_bound in Hlog by done. rewrite Hlog.
    split; [reflexivity|]. split; [|split; [|by rewrite <- Hlog]].
    + destruct (Nat.eqb_spec (length (history w)) 20) as [Heq|Hne]; simpl.
      * rewrite HistoryFacts.removelast_length_pred. lia.
      * lia.
    + intros Hfull. rewrite Hfull. simpl. split.
      * rewrite HistoryFacts.removelast_length_pred. lia.
      * apply HistoryFacts.removelast_snoc. intros Hnil. by rewrite Hnil in Hfull.
  - intros w Hw. by destruct (reachable_invariant w Hw) as (? & _ & ? & _).
  - intros w w' r images idNow tsNow Hlong Hclear Hsave.
    destruct (HistoryFacts.saveToHistory_returns r images idNow tsNow w w' Hclear Hsave)
      as [Hlog _].
    assert (Hpop : (20 <? length (newItem r images idNow tsNow :: history w))%nat = true)
      by (apply Nat.ltb_lt; simpl; lia).
    rewrite Hpop in Hlog.
    assert (Hcut : removelast (newItem r images idNow tsNow :: history w)
                   = newItem r images idNow tsNow :: removelast (history w)).
    { destruct (history w); [simpl in Hlong; lia | reflexivity]. }
    rewrite Hcut in Hlog. rewrite Hlog. split; [reflexivity|].
    simpl. rewrite HistoryFacts.removelast_length_pred. lia.
Qed.

Lemma C5_append_bounded_witness :
  length (history Sample.full) <= 20
  ∧ isUnclear (imageQualityCheck Sample.clear_result) = false
  ∧ saveToHistory Sample.clear_result Sample.S1 21 21 Sample.full
    = Done (after (saveToHistory Sample.clear_result Sample.S1 21 21 Sample.full))
  ∧ length (history (after (saveToHistory Sample.clear_result Sample.S1 21 21 Sample.full)))
    <= 20.
Proof.
  assert (H1 : length (history Sample.full) <= 20) by (vm_compute; lia).
  assert (H3 : saveToHistory Sample.clear_result Sample.S1 21 21 Sample.full
               = Done (after (saveToHistory Sample.clear_result Sample.S1 21 21 Sample.full)))
    by (vm_compute; reflexivity).
  split; [exact H1|]. split; [reflexivity|]. split; [exact H3|].
  exact (proj1 (proj2 (proj1 C5_append_bounded Sample.full _ Sample.clear_result
                         Sample.S1 21%Z 21%Z H1 eq_refl H3))).
Defined.

(** C5, beyond the bound.  The mount effect takes the log from the store
    as it finds it: on a store whose document holds twenty-one entries
    the application starts with twenty-one.  A scan then puts its result
    at the head and drops the last entry only: the log, and the document
    written back, have twenty-one entries, not twenty. *)
Lemma C5_longer_log_counterexample :
  restart (initial Sample.long_store) = Some Sample.long_started
  ∧ length (history Sample.long_started) = 21
  ∧ run Sample.long_scan Sample.long_started = Some Sample.long_scanned
  ∧ history Sample.long_scanned
    = newItem Sample.clear_result Sample.S1 22 22 :: removelast Sample.long_log
  ∧ length (history Sample.long_scanned) = 21
  ∧ ¬ length (history Sample.long_scanned) <= 20
  ∧ LocalStorage.getItem history_key (localStorage Sample.long_scanned)
    = Some (JSON.stringify (Doc.of_history (history Sample.long_scanned))).
Proof.
  assert (Hlen : length (history Sample.long_scanned) = 21) by (vm_compute; reflexivity).
  split; [vm_compute; reflexivity|]. split; [vm_compute; reflexivity|].
  split; [vm_compute; reflexivity|]. split; [vm_compute; reflexivity|].
  split; [exact Hlen|]. split; [rewrite Hlen; lia|].
  vm_compute. reflexivity.
Qed.



End SessionFacts.

(* ===================================================================== *)
(** ** String methods *)
(* ===================================================================== *)

Module JSStringFacts.
Import JSString.

(** [indexOf] gives -1 or a position. *)
Lemma indexOf_range c s : indexOf c s = (-1)%Z ∨ (0 <= indexOf c s)%Z.
Proof.
  induction s as [|x s IH]; simpl; [by left|].
  destruct (Ascii.eqb x c); [right; lia|].
  destruct (Z.ltb_spec (indexOf c s) 0); [by left | right; lia].
Qed.

(** A character that does not occur in a string is not its head and does
    not occur in its tail. *)
Lemma indexOf_absent_cons c x s :
  indexOf c (String x s) = (-1)%Z -> Ascii.eqb x c = false ∧ indexOf c s = (-1)%Z.
Proof.
  simpl. destruct (Ascii.eqb x c); [discriminate|]. intros H. split; [done|].
  destruct (Z.ltb_spec (indexOf c s) 0); [|lia].
  destruct (indexOf_range c s); lia.
Qed.

Lemma indexOf_absent_app c a b :
  indexOf c a = (-1)%Z -> indexOf c b = (-1)%Z -> indexOf c (a +:+ b) = (-1)%Z.
Proof.
  intros Ha Hb. induction a as [|x a IH]; [exact Hb|].
  apply indexOf_absent_cons in Ha as [Hx Ha].
  rewrite JSONFacts.append_cons. simpl. rewrite Hx, (IH Ha). reflexivity.
Qed.

(** The first occurrence after a piece that has none. *)
Lemma indexOf_found c a b :
  indexOf c a = (-1)%Z -> indexOf c (a +:+ String c b) = Z.of_nat (String.length a).
Proof.
  intros Ha. induction a as [|x a IH].
  - simpl. by rewrite Ascii.eqb_refl.
  - apply indexOf_absent_cons in Ha as [Hx Ha].
    rewrite JSONFacts.append_cons. cbn [indexOf String.length]. rewrite Hx, (IH Ha).
    destruct (Z.ltb_spec (Z.of_nat (String.length a)) 0); lia.
Qed.

Lemma split_nonempty sep s : split sep s ≠ [].
Proof.
  destruct s as [|c s]; simpl; [done|].
  destruct (Ascii.eqb c sep); [done|]. by destruct (split sep s).
Qed.

(** A string without the separator is one piece. *)
Lemma split_absent sep s : indexOf sep s = (-1)%Z -> split sep s = [s].
Proof.
  induction s as [|c s IH]; [done|]. intros H.
  apply indexOf_absent_cons in H as [Hc Hs]. simpl. by rewrite Hc, (IH Hs).
Qed.

(** The first piece ends at the first separator. *)
Lemma split_found sep a b :
  indexOf sep a = (-1)%Z -> split sep (a +:+ String sep b) = a :: split sep b.
Proof.
  intros Ha. induction a as [|c a IH].
  - simpl. by rewrite Ascii.eqb_refl.
  - apply indexOf_absent_cons in Ha as [Hc Ha].
    rewrite JSONFacts.append_cons. simpl. by rewrite Hc, (IH Ha).
Qed.

(** There is a second piece exactly when the separator occurs. *)
Lemma split_second sep s : split sep s !! 1 = None <-> indexOf sep s = (-1)%Z.
Proof.
  induction s as [|c s IH]; simpl; [done|].
  destruct (Ascii.eqb c sep).
  - pose proof (split_nonempty sep s). destruct (split sep s); [done|]. simpl. split; discriminate.
  - pose proof (split_nonempty sep s) as Hne.
    destruct (split sep s) as [|piece pieces]; [done|]. simpl in *. rewrite IH.
    destruct (Z.ltb_spec (indexOf sep s) 0) as [Hlt|Hge].
    + destruct (indexOf_range sep s); split; intros; lia.
    + split; intros; lia.
Qed.

Lemma substring_prefix b c : String.substring 0 (String.length b) (b +:+ c) = b.
Proof.
  induction b as [|y b IH]; [destruct c; reflexivity|].
  rewrite JSONFacts.append_cons. simpl. by rewrite IH.
Qed.

Lemma substring_middle a b c :
  String.substring (String.length a) (String.length b) (a +:+ b +:+ c) = b.
Proof.
  induction a as [|x a IH]; [exact (substring_prefix b c)|].
  rewrite JSONFacts.append_cons. exact IH.
Qed.

(** A string that starts with a prefix is the prefix and a rest. *)
Lemma startsWith_split p s : startsWith p s = true -> exists rest, s = p +:+ rest.
Proof.
  unfold startsWith. revert s. induction p as [|x p IH]; intros s H.
  - by exists s.
  - destruct s as [|y s]; [discriminate|]. simpl in H.
    destruct (ascii_dec x y) as [->|]; [|discriminate].
    destruct (IH s H) as [rest ->]. by exists rest.
Qed.

(** [encodeURIComponent] writes copied characters and percent signs
    only; the two digits after a percent sign are copied characters. *)
Lemma upper_hex_digit_unreserved n : (n < 16)%N -> unreserved (upper_hex_digit n) = true.
Proof.
  intros H.
  assert (Hn : In n (map N.of_nat (seq 0 16))).
  { apply in_map_iff. exists (N.to_nat n). split; [lia|]. apply in_seq. lia. }
  cbn in Hn. repeat (destruct Hn as [<-|Hn]; [reflexivity|]). destruct Hn.
Qed.

End JSStringFacts.

(* ===================================================================== *)
(** ** geminiService.ts *)
(* ===================================================================== *)

Module GeminiFacts.
Import GeminiService.

Lemma data_prefix (rest : string) :
  "data:" +:+ rest = String "d" (String "a" (String "t" (String "a" (String ":" rest)))).
Proof. reflexivity. Qed.

Lemma startsWith_data (rest : string) : JSString.startsWith "data:" ("data:" +:+ rest) = true.
Proof. rewrite data_prefix. unfold JSString.startsWith. simpl. by destruct rest. Qed.

Lemma indexOf_colon_data (rest : string) : JSString.indexOf ":" ("data:" +:+ rest) = 4%Z.
Proof. reflexivity. Qed.

Lemma indexOf_skip (c x : ascii) (s : string) :
  x ≠ c ->
  JSString.indexOf c (String x s)
  = (if (JSString.indexOf c s <? 0)%Z then -1 else JSString.indexOf c s + 1)%Z.
Proof. intros Hx. cbn [JSString.indexOf]. by destruct (Ascii.eqb_spec x c). Qed.

(** A character other than those of [data:] is found in the rest. *)
Lemma indexOf_data (c : ascii) (rest : string) :
  c ≠ "d"%char -> c ≠ "a"%char -> c ≠ "t"%char -> c ≠ ":"%char ->
  JSString.indexOf c ("data:" +:+ rest)
  = (if (JSString.indexOf c rest <? 0)%Z then -1 else JSString.indexOf c rest + 5)%Z.
Proof.
  intros Hd Ha Ht Hc. rewrite data_prefix.
  rewrite (indexOf_skip c "d"), (indexOf_skip c "a"), (indexOf_skip c "t"),
    (indexOf_skip c "a"), (indexOf_skip c ":") by congruence.
  destruct (JSStringFacts.indexOf_range c rest) as [->|Hge]; [reflexivity|].
  destruct (Z.ltb_spec (JSString.indexOf c rest) 0) as [?|_]; [lia|].
  destruct (Z.ltb_spec (JSString.indexOf c rest + 1) 0) as [?|_]; [lia|].
  destruct (Z.ltb_spec (JSString.indexOf c rest + 1 + 1) 0) as [?|_]; [lia|].
  destruct (Z.ltb_spec (JSString.indexOf c rest + 1 + 1 + 1) 0) as [?|_]; [lia|].
  destruct (Z.ltb_spec (JSString.indexOf c rest + 1 + 1 + 1 + 1) 0) as [?|_]; lia.
Qed.

Lemma substring_data_mime (mime rest : string) :
  JSString.substring 5 (5 + Z.of_nat (String.length mime)) ("data:" +:+ mime +:+ rest) = mime.
Proof.
  unfold JSString.substring. rewrite !JSONFacts.length_append. cbn [String.length].
  set (n := String.length mime). set (k := String.length rest).
  replace (Z.min (Z.max 5 0) _) with 5%Z by lia.
  replace (Z.min (Z.max (5 + Z.of_nat n) 0) _) with (5 + Z.of_nat n)%Z by lia.
  replace (Z.to_nat (Z.min 5 (5 + Z.of_nat n))) with 5 by lia.
  replace (Z.to_nat (Z.max 5 (5 + Z.of_nat n) - Z.min 5 (5 + Z.of_nat n))) with n by lia.
  exact (JSStringFacts.substring_middle "data:" mime rest).
Qed.

Lemma parseBase64_data_url (mime params payload more : string) :
  JSString.indexOf ";" mime = (-1)%Z ->
  JSString.indexOf "," mime = (-1)%Z ->
  JSString.indexOf "," params = (-1)%Z ->
  JSString.indexOf "," payload = (-1)%Z ->
  more = EmptyString ∨ (exists rest, more = String "," rest) ->
  parseBase64 ("data:" +:+ mime +:+ ";" +:+ params +:+ "," +:+ payload +:+ more)
  = {| data := Some payload; mimeType := mime |}.
Proof.
  intros Hsemi Hmime Hparams Hpayload Hmore. unfold parseBase64.
  rewrite startsWith_data, indexOf_colon_data. f_equal.
  - assert (Hhead : JSString.indexOf "," ("data:" +:+ mime +:+ ";" +:+ params) = (-1)%Z).
    { rewrite indexOf_data by done.
      rewrite (JSStringFacts.indexOf_absent_app _ _ _ Hmime); [reflexivity|].
      change (";" +:+ params) with (String ";" params). cbn [JSString.indexOf].
      destruct (Ascii.eqb_spec ";" ","); [done|]. by rewrite Hparams. }
    replace ("data:" +:+ mime +:+ ";" +:+ params +:+ "," +:+ payload +:+ more)
      with (("data:" +:+ mime +:+ ";" +:+ params) +:+ String "," (payload +:+ more))
      by (by rewrite !JSONFacts.append_assoc).
    rewrite JSStringFacts.split_found by exact Hhead.
    destruct Hmore as [-> | [rest ->]].
    + rewrite JSONFacts.append_nil_r. by rewrite JSStringFacts.split_absent.
    + by rewrite JSStringFacts.split_found.
  - rewrite indexOf_data by done.
    change (";" +:+ params +:+ "," +:+ payload +:+ more)
      with (String ";" (params +:+ "," +:+ payload +:+ more)).
    rewrite JSStringFacts.indexOf_found by exact Hsemi.
    destruct (Z.ltb_spec (Z.of_nat (String.length mime)) 0) as [?|_]; [lia|].
    replace (4 + 1)%Z with 5%Z by lia.
    replace (Z.of_nat (String.length mime) + 5)%Z with (5 + Z.of_nat (String.length mime))%Z
      by lia.
    apply substring_data_mime.
Qed.

Lemma parseBase64_base64 (mime payload : string) :
  JSString.indexOf ";" mime = (-1)%Z ->
  JSString.indexOf "," mime = (-1)%Z ->
  JSString.indexOf "," payload = (-1)%Z ->
  parseBase64 ("data:" +:+ mime +:+ ";base64," +:+ payload)
  = {| data := Some payload; mimeType := mime |}.
Proof.
  intros Hsemi Hmime Hpayload.
  rewrite <- (JSONFacts.append_nil_r payload) at 1.
  exact (parseBase64_data_url mime "base64" payload EmptyString Hsemi Hmime eq_refl
           Hpayload (or_introl eq_refl)).
Qed.

(** X1.  A data URL [data:<mime>;<params>,<payload>], as a file reader
    writes one, is split into its payload and its media type: the media
    type has no semicolon, and neither it, the parameters nor the payload
    has a comma.  What follows a second comma is dropped. *)
Theorem X1_parseBase64_data_url (mime params payload : string) :
  JSString.indexOf ";" mime = (-1)%Z ->
  JSString.indexOf "," mime = (-1)%Z ->
  JSString.indexOf "," params = (-1)%Z ->
  JSString.indexOf "," payload = (-1)%Z ->
  parseBase64 ("data:" +:+ mime +:+ ";" +:+ params +:+ "," +:+ payload)
  = {| data := Some payload; mimeType := mime |}
  ∧ forall rest,
      parseBase64 ("data:" +:+ mime +:+ ";" +:+ params +:+ "," +:+ payload +:+ "," +:+ rest)
      = {| data := Some payload; mimeType := mime |}.
Proof.
  intros Hsemi Hmime Hparams Hpayload. split.
  - rewrite <- (JSONFacts.append_nil_r payload) at 1.
    apply parseBase64_data_url; auto.
  - intros rest. apply parseBase64_data_url; eauto.
Qed.

Lemma X1_parseBase64_data_url_witness :
  parseBase64 "data:image/png;base64,iVBORw0KGgo="
  = {| data := Some "iVBORw0KGgo="; mimeType := "image/png" |}.
Proof.
  exact (proj1 (X1_parseBase64_data_url "image/png" "base64" "iVBORw0KGgo="
                  eq_refl eq_refl eq_refl eq_refl)).
Defined.

(** X2.  A string that starts with [data:] and has no semicolon gets the
    media type [data:]: the end of the cut, -1, is taken for 0 and the two
    ends are swapped. *)
Theorem X2_parseBase64_no_semicolon (s : string) :
  JSString.startsWith "data:" s = true ->
  JSString.indexOf ";" s = (-1)%Z ->
  mimeType (parseBase64 s) = "data:".
Proof.
  intros Hstart Hsemi. unfold parseBase64. rewrite Hstart, Hsemi.
  apply JSStringFacts.startsWith_split in Hstart as [rest ->].
  rewrite indexOf_colon_data. cbn [mimeType].
  unfold JSString.substring. rewrite JSONFacts.length_append. cbn [String.length].
  set (n := String.length rest).
  replace (Z.min (Z.max (4 + 1) 0) _) with 5%Z by lia.
  replace (Z.min (Z.max (-1) 0) _) with 0%Z by lia.
  exact (JSStringFacts.substring_prefix "data:" rest).
Qed.

Lemma X2_parseBase64_no_semicolon_witness :
  mimeType (parseBase64 "data:,hello") = "data:".
Proof. exact (X2_parseBase64_no_semicolon "data:,hello" eq_refl eq_refl). Defined.

(** X3.  The data of an image is undefined exactly when the string starts
    with [data:] and has no comma; a string that does not start with
    [data:] is itself the data, of type image/jpeg. *)
Theorem X3_parseBase64_data_undefined (s : string) :
  (data (parseBase64 s) = None
   <-> JSString.startsWith "data:" s = true ∧ JSString.indexOf "," s = (-1)%Z)
  ∧ (JSString.startsWith "data:" s = false ->
     parseBase64 s = {| data := Some s; mimeType := "image/jpeg" |}).
Proof.
  unfold parseBase64. destruct (JSString.startsWith "data:" s); cbn [data].
  - split; [|discriminate]. rewrite JSStringFacts.split_second. tauto.
  - split; [|reflexivity]. split; [discriminate | intros [? _]; discriminate].
Qed.

(** The key is looked for in the Vite variable first; an empty string
    there is no key. *)
Lemma getApiKey_empty (env : Env) :
  getApiKey env = EmptyString
  <-> (VITE_API_KEY env = None ∨ VITE_API_KEY env = Some EmptyString)
      ∧ (API_KEY env = None ∨ API_KEY env = Some EmptyString).
Proof.
  unfold getApiKey.
  destruct (VITE_API_KEY env) as [[|c k]|], (API_KEY env) as [[|c' k']|];
    split; try discriminate; try tauto;
    intros [[?|?] [?|?]]; discriminate.
Qed.

Lemma truthy_nonempty (s : string) : JS.truthy_string s = true <-> s ≠ EmptyString.
Proof. destruct s; simpl; split; (done || discriminate). Qed.

Lemma analyzeHealthImpact_with_key env generateContent profile images :
  getApiKey env ≠ EmptyString ->
  analyzeHealthImpact env generateContent profile images
  = {| calls := [generateContent_request (getApiKey env) profile images];
       settled :=
         JS.try_catch
           (match generateContent
                    (generateContent_request (getApiKey env) profile images) with
            | Response (Some text) =>
                if JS.truthy_string text then JSON.parse_or_throw text
                else JS.Throw (JS.Error "No response from AI")
            | Response None => JS.Throw (JS.Error "No response from AI")
            | Failure error => JS.Throw error
            end)
           (fun error => JS.Throw (JS.Error failure_message)) |}.
Proof.
  intros Hkey. apply truthy_nonempty in Hkey. unfold analyzeHealthImpact.
  by rewrite Hkey.
Qed.

Lemma parse_empty : JSON.parse EmptyString = None.
Proof. reflexivity. Qed.

(** X4.  Without a key in either place no call is made to the model and
    the promise is rejected with the message that asks for the key; with
    a key exactly one call is made, and it carries the key, that of the
    Vite variable when both are set. *)
Theorem X4_key_decides_the_call (env : Env) (generateContent : Request -> Reply)
    (profile : UserProfile) (images : list string) :
  ((VITE_API_KEY env = None ∨ VITE_API_KEY env = Some EmptyString)
   ∧ (API_KEY env = None ∨ API_KEY env = Some EmptyString) ->
   analyzeHealthImpact env generateContent profile images
   = {| calls := []; settled := JS.Throw (JS.Error missing_key_message) |})
  ∧ (forall key, key ≠ EmptyString ->
       VITE_API_KEY env = Some key
       ∨ ((VITE_API_KEY env = None ∨ VITE_API_KEY env = Some EmptyString)
          ∧ API_KEY env = Some key) ->
       exists request,
         calls (analyzeHealthImpact env generateContent profile images) = [request]
         ∧ apiKey request = key).
Proof.
  split.
  - intros Hnone. apply getApiKey_empty in Hnone. unfold analyzeHealthImpact.
    by rewrite Hnone.
  - intros key Hkey Hset.
    assert (Hget : getApiKey env = key).
    { unfold getApiKey. destruct key as [|c k]; [done|].
      destruct Hset as [-> | [[-> | ->] ->]]; reflexivity. }
    rewrite analyzeHealthImpact_with_key by congruence.
    eexists. split; [reflexivity | exact Hget].
Qed.

(** X5.  With a key, the promise is fulfilled exactly when the model
    answers with a text that is JSON, and then with the value the text
    denotes, whatever its shape.  Every other course, a failed call, a
    response with no text or an empty one, a text that is not JSON, rejects
    with one and the same message. *)
Theorem X5_fulfilled_or_one_message (env : Env) (generateContent : Request -> Reply)
    (profile : UserProfile) (images : list string) :
  getApiKey env ≠ EmptyString ->
  (forall v,
     settled (analyzeHealthImpact env generateContent profile images) = JS.Normal v
     <-> exists text,
           generateContent (generateContent_request (getApiKey env) profile images)
           = Response (Some text)
           ∧ JSON.parse text = Some v)
  ∧ (forall e,
       settled (analyzeHealthImpact env generateContent profile images) = JS.Throw e ->
       e = JS.Error failure_message).
Proof.
  intros Hkey. rewrite analyzeHealthImpact_with_key by exact Hkey. cbn [settled].
  destruct (generateContent (generateContent_request (getApiKey env) profile images))
    as [[text|]|error];
    cbn [JS.try_catch].
  - destruct text as [|c text]; cbn [JS.truthy_string JS.try_catch].
    + split.
      * intros v. split; [discriminate|]. intros (text & [= <-] & Hparse).
        by rewrite parse_empty in Hparse.
      * by intros e [= <-].
    + unfold JSON.parse_or_throw.
      destruct (JSON.parse (String c text)) as [v|] eqn:Hparse; cbn [JS.try_catch].
      * split; [|discriminate]. intros v'. split.
        -- intros [= <-]. by exists (String c text).
        -- intros (text' & [= <-] & Hparse'). congruence.
      * split; [|by intros e [= <-]]. intros v. split; [discriminate|].
        intros (text' & [= <-] & Hparse'). congruence.
  - split; [|by intros e [= <-]]. intros v. split; [discriminate|].
    by intros (text & [=] & _).
  - split; [|by intros e [= <-]]. intros v. split; [discriminate|].
    by intros (text & [=] & _).
Qed.

Lemma X5_fulfilled_or_one_message_witness :
  getApiKey Scenario.env ≠ EmptyString
  ∧ forall e,
      settled (analyzeHealthImpact Scenario.env (Scenario.answers "{") Sample.configured
                 Sample.S1) = JS.Throw e ->
      e = JS.Error failure_message.
Proof.
  assert (Hkey : getApiKey Scenario.env ≠ EmptyString) by discriminate.
  split; [exact Hkey|].
  exact (proj2 (X5_fulfilled_or_one_message Scenario.env (Scenario.answers "{")
                  Sample.configured Sample.S1 Hkey)).
Defined.

Lemma stringify_truthy v :
  JSON.written v -> JS.truthy_string (JSON.stringify v) = true.
Proof. intros Hw. by destruct (JSONFacts.stringify_head v Hw) as (c & s & -> & _). Qed.

(** The text of a result, answered to a call that has a key, settles the
    promise with the result. *)
Lemma result_text_settles (env : Env) (generateContent : Request -> Reply)
    (profile : UserProfile) (images : list string) (r : AnalysisResult) :
  getApiKey env ≠ EmptyString ->
  generateContent (generateContent_request (getApiKey env) profile images)
  = Response (Some (JSON.stringify (Doc.of_result r))) ->
  settled (analyzeHealthImpact env generateContent profile images)
  = JS.Normal (Doc.of_result r).
Proof.
  intros Hkey Hreply. rewrite analyzeHealthImpact_with_key by exact Hkey.
  cbn [settled]. rewrite Hreply.
  rewrite (stringify_truthy _ (JSONFacts.written_result r)).
  unfold JSON.parse_or_throw.
  by rewrite (JSONFacts.parse_stringify _ (JSONFacts.written_result r)).
Qed.

(** X6.  When the model answers with the JSON text of an analysis result,
    the promise is fulfilled with that result: nothing of it is lost or
    changed between the text and the value the handler receives. *)
Theorem X6_result_text_round_trip (env : Env) (generateContent : Request -> Reply)
    (profile : UserProfile) (images : list string) (r : AnalysisResult) :
  getApiKey env ≠ EmptyString ->
  generateContent (generateContent_request (getApiKey env) profile images)
  = Response (Some (JSON.stringify (Doc.of_result r))) ->
  settlement (settled (analyzeHealthImpact env generateContent profile images))
  = Some (Fulfilled r).
Proof.
  intros Hkey Hreply.
  rewrite (result_text_settles env generateContent profile images r Hkey Hreply).
  cbn [settlement]. by rewrite JSONFacts.to_result_of_result.
Qed.

Lemma X6_result_text_round_trip_witness :
  settlement
    (settled (analyzeHealthImpact Scenario.env
                (Scenario.answers (JSON.stringify (Doc.of_result Sample.clear_result)))
                Sample.configured Sample.S1))
  = Some (Fulfilled Sample.clear_result).
Proof.
  apply X6_result_text_round_trip; [discriminate | reflexivity].
Defined.

(** X7.  The call carries one inline part for each selected image, in the
    order of the selection, and the question after them; an image that is a
    base64 data URL goes as its payload with its media type. *)
Theorem X7_request_parts (key : string) (profile : UserProfile)
    (images : list (string * string)) :
  Forall (fun image => JSString.indexOf ";" image.1 = (-1)%Z
                       ∧ JSString.indexOf "," image.1 = (-1)%Z
                       ∧ JSString.indexOf "," image.2 = (-1)%Z) images ->
  parts (generateContent_request key profile
           ((fun image => "data:" +:+ image.1 +:+ ";base64," +:+ image.2) <$> images))
  = ((fun image => InlineData {| data := Some image.2; mimeType := image.1 |}) <$> images)
    ++ [Text prompt].
Proof.
  intros Hall. unfold generateContent_request. cbn [parts]. f_equal.
  rewrite <- list_fmap_compose. apply Forall_fmap_ext_1.
  eapply Forall_impl; [exact Hall|]. intros [mime payload] (Hsemi & Hmime & Hpayload).
  cbn [compose fst snd]. f_equal.
  exact (parseBase64_base64 mime payload Hsemi Hmime Hpayload).
Qed.

Lemma X7_request_parts_witness :
  parts (generateContent_request "key" Sample.configured
           ["data:image/png;base64,AAAA"; "data:image/jpeg;base64,BBBB"])
  = [InlineData {| data := Some "AAAA"; mimeType := "image/png" |};
     InlineData {| data := Some "BBBB"; mimeType := "image/jpeg" |};
     Text prompt].
Proof.
  apply (X7_request_parts "key" Sample.configured
           [("image/png", "AAAA"); ("image/jpeg", "BBBB")]).
  repeat constructor.
Defined.

(** *** The response schema and the interface of types.ts *)

Lemma digits_uint (s : string) :
  forallb JSON.is_digit (list_ascii_of_string s) = true ->
  is_Some (NilEmpty.uint_of_string s).
Proof.
  induction s as [|c s IH]; [by eexists|]. cbn [list_ascii_of_string forallb].
  intros [Hc Hs]%andb_true_iff. destruct (IH Hs) as [u Hu].
  cbn [NilEmpty.uint_of_string]. rewrite Hu.
  destruct c as [[] [] [] [] [] [] [] []]; try discriminate Hc; by eexists.
Qed.

Lemma integer_number (lit : string) :
  integer_literal lit = true -> is_Some (Doc.to_number (JSON.JNum lit)).
Proof.
  unfold integer_literal, Doc.to_number, NilZero.int_of_string.
  destruct lit as [|c lit]; [discriminate|].
  destruct (Ascii.eqb_spec c "-") as [->|Hc].
  - destruct lit as [|d lit]; [discriminate|]. intros [u Hu]%digits_uint.
    unfold NilZero.uint_of_string. rewrite Hu. by eexists.
  - assert (Hdigits : forallb JSON.is_digit (list_ascii_of_string (String c lit)) = true ->
                      is_Some (Z.of_int <$> option_map Pos (NilZero.uint_of_string (String c lit)))).
    { intros [u Hu]%digits_uint. unfold NilZero.uint_of_string. rewrite Hu. by eexists. }
    destruct c as [[] [] [] [] [] [] [] []]; try exact Hdigits. done.
Qed.

(** What [conforms] asks of an object and of an array. *)
Lemma conforms_object properties required v :
  conforms (OBJECT properties required) v = true ->
  exists props,
    v = JSON.JObj props
    ∧ Forall (fun k => is_Some (JSON.lookup_prop k props)) required
    ∧ Forall (fun ks => forall x, JSON.lookup_prop ks.1 props = Some x ->
                                  conforms ks.2 x = true) properties.
Proof.
  destruct v as [| | | | |props]; try discriminate. cbn [conforms].
  intros [Hreq Hprops]%andb_true_iff. exists props. split; [reflexivity|].
  rewrite forallb_forall in Hreq. rewrite forallb_forall in Hprops.
  split; apply Forall_forall.
  - intros k Hk%list_elem_of_In. specialize (Hreq k Hk).
    destruct (JSON.lookup_prop k props); [by eexists | discriminate].
  - intros [k sk] Hk%list_elem_of_In x Hx. specialize (Hprops (k, sk) Hk).
    cbn [fst snd] in *. by rewrite Hx in Hprops.
Qed.

Lemma conforms_array items v :
  conforms (ARRAY items) v = true ->
  exists l, v = JSON.JArr l ∧ Forall (fun x => conforms items x = true) l.
Proof.
  destruct v as [| | | |l|]; try discriminate. cbn [conforms].
  intros Hall. exists l. split; [reflexivity|].
  rewrite forallb_forall in Hall. apply Forall_forall.
  intros x Hx%list_elem_of_In. by apply Hall.
Qed.

Lemma conforms_string v : conforms STRING v = true -> exists s, v = JSON.JStr s.
Proof. destruct v; try discriminate. by eexists. Qed.

Lemma conforms_boolean v : conforms BOOLEAN v = true -> exists b, v = JSON.JBool b.
Proof. destruct v; try discriminate. by eexists. Qed.

Lemma conforms_integer v :
  conforms INTEGER v = true -> exists z, Doc.to_number v = Some z.
Proof. destruct v; try discriminate. cbn [conforms]. by intros [z Hz]%integer_number; eexists. Qed.

Lemma strings_list (v : JSON.value) :
  conforms (ARRAY STRING) v = true -> is_Some (Doc.to_list Doc.to_string v).
Proof.
  intros (l & -> & Hall)%conforms_array. cbn [Doc.to_list].
  apply mapM_is_Some. eapply Forall_impl; [exact Hall|].
  intros x (s & ->)%conforms_string. by eexists.
Qed.

Lemma quality_object (v : JSON.value) :
  conforms (OBJECT [("isUnclear", BOOLEAN); ("reason", STRING)] ["isUnclear"; "reason"]) v
  = true ->
  is_Some (Doc.to_quality v).
Proof.
  intros (props & -> & Hreq & Hprops)%conforms_object.
  apply Forall_cons in Hreq as [[u Hu] Hreq], Hprops as [Hcu Hprops].
  apply Forall_cons in Hreq as [[r Hr] _], Hprops as [Hcr _].
  destruct (conforms_boolean u (Hcu u Hu)) as [b ->].
  destruct (conforms_string r (Hcr r Hr)) as [s ->].
  unfold Doc.to_quality. cbn [JSON.get]. cbn [fst] in Hu, Hr. rewrite Hu, Hr. by eexists.
Qed.

Lemma calories_object (v : JSON.value) :
  conforms (OBJECT [("productCalories", INTEGER); ("userDailyNeed", INTEGER);
                    ("percentage", INTEGER); ("note", STRING)]
              ["productCalories"; "userDailyNeed"; "percentage"; "note"]) v = true ->
  is_Some (Doc.to_calories v).
Proof.
  intros (props & -> & Hreq & Hprops)%conforms_object.
  apply Forall_cons in Hreq as [[pc Hpc] Hreq], Hprops as [Hcpc Hprops].
  apply Forall_cons in Hreq as [[dn Hdn] Hreq], Hprops as [Hcdn Hprops].
  apply Forall_cons in Hreq as [[pct Hpct] Hreq], Hprops as [Hcpct Hprops].
  apply Forall_cons in Hreq as [[n Hn] _], Hprops as [Hcn _].
  destruct (conforms_integer pc (Hcpc pc Hpc)) as [zpc Hzpc].
  destruct (conforms_integer dn (Hcdn dn Hdn)) as [zdn Hzdn].
  destruct (conforms_integer pct (Hcpct pct Hpct)) as [zpct Hzpct].
  destruct (conforms_string n (Hcn n Hn)) as [s ->].
  unfold Doc.to_calories. cbn [JSON.get]. cbn [fst] in Hpc, Hdn, Hpct, Hn.
  rewrite Hpc, Hdn, Hpct, Hn. cbn [mbind option_bind]. rewrite Hzpc, Hzdn, Hzpct.
  by eexists.
Qed.

Lemma product_object (v : JSON.value) :
  conforms (OBJECT [("name", STRING); ("reason", STRING)] ["name"; "reason"]) v = true ->
  is_Some (Doc.to_product v).
Proof.
  intros (props & -> & Hreq & Hprops)%conforms_object.
  apply Forall_cons in Hreq as [[n Hn] Hreq], Hprops as [Hcn Hprops].
  apply Forall_cons in Hreq as [[r Hr] _], Hprops as [Hcr _].
  destruct (conforms_string n (Hcn n Hn)) as [sn ->].
  destruct (conforms_string r (Hcr r Hr)) as [sr ->].
  unfold Doc.to_product. cbn [JSON.get]. cbn [fst] in Hn, Hr. rewrite Hn, Hr. by eexists.
Qed.

Lemma products_list (v : JSON.value) :
  conforms (ARRAY (OBJECT [("name", STRING); ("reason", STRING)] ["name"; "reason"])) v
  = true ->
  is_Some (Doc.to_list Doc.to_product v).
Proof.
  intros (l & -> & Hall)%conforms_array. cbn [Doc.to_list].
  apply mapM_is_Some. eapply Forall_impl; [exact Hall|].
  intros x Hx. by apply product_object.
Qed.

(** X8.  A value of the shape the response schema asks for is an
    analysis result of the interface of types.ts, calorie analysis
    included: every property the interface reads is there, with a type
    the interface admits.  (The interface admits more: its numbers need
    not be integers, and its calorie analysis may be missing.) *)
Theorem X8_schema_agrees_with_interface (v : JSON.value) :
  conforms responseSchema v = true ->
  exists r, Doc.to_result v = Some r ∧ is_Some (calorieAnalysis r).
Proof.
  unfold responseSchema. intros (props & -> & Hreq & Hprops)%conforms_object.
  apply Forall_cons in Hreq as [[q Hq] Hreq], Hprops as [Hcq Hprops].
  apply Forall_cons in Hreq as [[c Hc] Hreq], Hprops as [Hcc Hprops].
  apply Forall_cons in Hreq as [[s Hs] Hreq], Hprops as [Hcs Hprops].
  apply Forall_cons in Hreq as [[ps Hps] Hreq], Hprops as [Hcps Hprops].
  apply Forall_cons in Hreq as [[cs Hcons] Hreq], Hprops as [Hccs Hprops].
  apply Forall_cons in Hreq as [[rs Hrs] _], Hprops as [Hcrs _].
  destruct (quality_object q (Hcq q Hq)) as [q' Hq'].
  destruct (calories_object c (Hcc c Hc)) as [c' Hc'].
  destruct (conforms_string s (Hcs s Hs)) as [s' ->].
  destruct (strings_list ps (Hcps ps Hps)) as [ps' Hps'].
  destruct (strings_list cs (Hccs cs Hcons)) as [cs' Hcs'].
  destruct (products_list rs (Hcrs rs Hrs)) as [rs' Hrs'].
  unfold Doc.to_result. cbn [JSON.get]. cbn [fst] in Hq, Hc, Hs, Hps, Hcons, Hrs.
  rewrite Hq, Hc, Hs, Hps, Hcons, Hrs.
  cbn [mbind option_bind Doc.to_optional]. rewrite Hq', Hc'.
  cbn [fmap option_fmap option_map mbind option_bind Doc.to_string].
  rewrite Hps', Hcs', Hrs'. cbn [mbind option_bind].
  eexists. split; [reflexivity|]. by eexists.
Qed.

Lemma X8_schema_agrees_with_interface_witness :
  conforms responseSchema (Doc.of_result Sample.clear_result) = true
  ∧ exists r, Doc.to_result (Doc.of_result Sample.clear_result) = Some r
              ∧ is_Some (calorieAnalysis r).
Proof.
  assert (H : conforms responseSchema (Doc.of_result Sample.clear_result) = true)
    by (vm_compute; reflexivity).
  split; [exact H|]. exact (X8_schema_agrees_with_interface _ H).
Defined.

End GeminiFacts.

(* ===================================================================== *)
(** ** The analysis handler and the service together *)
(* ===================================================================== *)

Module AnalysisFacts.
Import GeminiService.

(** Saving to the history shows no alert and leaves the result, the busy
    flag and the calls alone. *)
Lemma saveToHistory_frame r images idNow tsNow w :
  alerts (after (saveToHistory r images idNow tsNow w)) = alerts w
  ∧ currentResult (after (saveToHistory r images idNow tsNow w)) = currentResult w
  ∧ selectedImages (after (saveToHistory r images idNow tsNow w)) = selectedImages w.
Proof.
  unfold saveToHistory. destruct (isUnclear (imageQualityCheck r)); [done|].
  by destruct (history_updater _ _ _) as [[updated ls']|e].
Qed.

(** The promise of [analyzeHealthImpact] is rejected with one of two
    errors. *)
Lemma rejected_with env generateContent profile images e :
  settled (analyzeHealthImpact env generateContent profile images) = JS.Throw e ->
  e = JS.Error missing_key_message ∨ e = JS.Error failure_message.
Proof.
  unfold analyzeHealthImpact. destruct (JS.truthy_string (getApiKey env)); cbn [negb settled].
  - intros He. right.
    destruct (generateContent _) as [[[|c text]|]|error]; cbn in He;
      try (by injection He as <-).
    unfold JSON.parse_or_throw in He.
    destruct (JSON.parse (String c text)); cbn in He; [discriminate|].
    by injection He as <-.
  - intros [= <-]. by left.
Qed.

(** X9.  A scan whose promise is rejected ends with exactly one alert,
    which is one of the two messages of the service (the key is missing,
    or the analysis failed, whatever the cause); the busy flag is
    cleared, and the result, the selection, the log and the store are as
    they were.  A scan whose promise is fulfilled with a value of the
    shape of [AnalysisResult] ends, where the history update returns,
    with no alert, the busy flag cleared and that result as the current
    one.  The answer is not checked against the shape: a fulfilment with
    another value is not covered here. *)
Theorem X9_scan_ends (env : Env) (generateContent : Request -> Reply)
    (a : Attempt) (s : Settlement) (idNow tsNow : Z) (w : World) :
  settlement (settled (analyzeHealthImpact env generateContent
                         (attemptProfile a) (attemptImages a))) = Some s ->
  match s with
  | Fulfilled r =>
      forall w', handleAnalysis_resume a s idNow tsNow w = Done w' ->
                 isAnalyzing w' = false
                 ∧ alerts w' = alerts w
                 ∧ currentResult w' = Some r
  | Rejected e =>
      exists msg w',
        (msg = missing_key_message ∨ msg = failure_message)
        ∧ handleAnalysis_resume a s idNow tsNow w = Done w'
        ∧ isAnalyzing w' = false
        ∧ alerts w' = msg :: alerts w
        ∧ currentResult w' = currentResult w
        ∧ selectedImages w' = selectedImages w
        ∧ history w' = history w
        ∧ localStorage w' = localStorage w
  end.
Proof.
  intros Hs. destruct s as [r|e].
  - intros w' Hdone. cbn [handleAnalysis_resume] in Hdone.
    destruct (saveToHistory_frame r (attemptImages a) idNow tsNow
                (setCurrentResult (Some r) w)) as (Ha & Hr & _).
    destruct (saveToHistory _ _ _ _ _) as [w1|e w1]; [|discriminate].
    injection Hdone as <-. cbn in *. by rewrite Ha, Hr.
  - destruct (settled _) as [v|e'] eqn:Hset; cbn [settlement] in Hs.
    + by destruct (Doc.to_result v).
    + injection Hs as ->. apply rejected_with in Hset.
      destruct Hset as [-> | ->]; eexists _, _; (split; [|split; [reflexivity|done]]); auto.
Qed.

Lemma X9_scan_ends_witness :
  (exists msg w',
     handleAnalysis_resume Sample.attempt1 (Rejected (JS.Error missing_key_message)) 5 5
       Sample.first_started = Done w'
     ∧ isAnalyzing w' = false
     ∧ alerts w' = msg :: alerts Sample.first_started)
  ∧ (handleAnalysis_resume Sample.attempt1 (Fulfilled Sample.clear_result) 5 5
       Sample.first_started
     = Done (after (handleAnalysis_resume Sample.attempt1 (Fulfilled Sample.clear_result)
                      5 5 Sample.first_started))
     ∧ isAnalyzing (after (handleAnalysis_resume Sample.attempt1
                             (Fulfilled Sample.clear_result) 5 5 Sample.first_started))
       = false
     ∧ currentResult (after (handleAnalysis_resume Sample.attempt1
                               (Fulfilled Sample.clear_result) 5 5 Sample.first_started))
       = Some Sample.clear_result).
Proof.
  assert (Hno : settlement
                  (settled (analyzeHealthImpact Scenario.no_key
                              (Scenario.answers EmptyString)
                              (attemptProfile Sample.attempt1)
                              (attemptImages Sample.attempt1)))
                = Some (Rejected (JS.Error missing_key_message)))
    by (vm_compute; reflexivity).
  assert (Hyes : settlement
                   (settled (analyzeHealthImpact Scenario.env
                               (Scenario.answers
                                  (JSON.stringify (Doc.of_result Sample.clear_result)))
                               (attemptProfile Sample.attempt1)
                               (attemptImages Sample.attempt1)))
                 = Some (Fulfilled Sample.clear_result))
    by (vm_compute; reflexivity).
  assert (Hdone : handleAnalysis_resume Sample.attempt1 (Fulfilled Sample.clear_result) 5 5
                    Sample.first_started
                  = Done (after (handleAnalysis_resume Sample.attempt1
                                   (Fulfilled Sample.clear_result) 5 5
                                   Sample.first_started)))
    by (vm_compute; reflexivity).
  split.
  - destruct (X9_scan_ends _ _ Sample.attempt1 _ 5 5 Sample.first_started Hno)
      as (msg & w' & _ & Hrej & Hbusy & Halert & _).
    exists msg, w'. by repeat split.
  - destruct (X9_scan_ends _ _ Sample.attempt1 _ 5 5 Sample.first_started Hyes _ Hdone)
      as (Hbusy & _ & Hcur).
    by repeat split.
Defined.

End AnalysisFacts.

(* ===================================================================== *)
(** ** UserProfileForm.tsx *)
(* ===================================================================== *)

Module FormFacts.
Import UserProfileForm.

(** X10.  The form hands a profile to [onSave] only when the age, the
    gender and the health context are filled in and the consent is given,
    and the profile it hands over is the one it shows.  The handler itself
    looks at the consent only: the three fields are guarded by the
    disabled button. *)
Theorem X10_form_saves_configured (s : State) (p : UserProfile) :
  (submit s = Some p
   <-> p = profile s ∧ isProfileConfigured p = true ∧ hasConsented s = true)
  ∧ (handleSubmit s = Some p <-> p = profile s ∧ hasConsented s = true).
Proof.
  unfold submit, handleSubmit, isFormValid, isProfileConfigured.
  destruct (hasConsented s); rewrite ?andb_true_r, ?andb_false_r; cbn [negb].
  - split.
    + destruct (JS.truthy_string (age (profile s))
                && JS.truthy_string (Doc.gender_string (gender (profile s)))
                && JS.truthy_string (healthContext (profile s))) eqn:Hvalid.
      * split; [intros [= <-]; by rewrite Hvalid | intros (-> & _); reflexivity].
      * split; [discriminate | intros (-> & Hp & _); congruence].
    + split; [by intros [= <-] | by intros (-> & _)].
  - split; (split; [discriminate | intros H; destruct_and!; discriminate]).
Qed.

Lemma handle_keeps_no_consent ev s :
  consenting ev = false -> hasConsented s = false -> hasConsented (handle ev s) = false.
Proof.
  destruct ev as [value|opt|value| |props]; cbn; try done.
  intros -> ->. reflexivity.
Qed.

(** X11.  On the onboarding form the consent cannot be gone around:
    whatever is typed and clicked, and however often the parent renders
    the form anew, nothing is saved as long as the consent row has not
    been clicked. *)
Theorem X11_onboarding_needs_consent (initial : UserProfile) (evs : list Event) :
  Forall (fun ev => consenting ev = false) evs ->
  hasConsented (run evs (mount {| initialProfile := initial; isEditing := false |})) = false
  ∧ submit (run evs (mount {| initialProfile := initial; isEditing := false |})) = None.
Proof.
  intros Hevs.
  assert (Hno : forall s, hasConsented s = false -> hasConsented (run evs s) = false).
  { induction Hevs as [|ev evs Hev _ IH]; intros s Hs; [exact Hs|].
    apply IH. by apply handle_keeps_no_consent. }
  specialize (Hno (mount {| initialProfile := initial; isEditing := false |}) eq_refl).
  split; [exact Hno|].
  unfold submit, isFormValid. rewrite Hno. by rewrite andb_false_r.
Qed.

Lemma X11_onboarding_needs_consent_witness :
  submit (run [ChangeAge "35"; ClickGender option_female; ChangeHealthContext "low salt"]
            (mount {| initialProfile := userProfile Scenario.fresh; isEditing := false |}))
  = None.
Proof.
  apply X11_onboarding_needs_consent. repeat constructor.
Defined.

(** X12.  A profile saved through the form unlocks the scan: when the
    store takes the document, the application shows the scan tab of the
    dashboard, not the locked card, and the next start routes to the
    dashboard with the same profile. *)
Theorem X12_form_save_unlocks (s : State) (p : UserProfile) (w w' : World) :
  submit s = Some p ->
  handleProfileSave p w = Done w' ->
  appState w' = DASHBOARD ∧ activeTab w' = scan ∧ userProfile w' = p
  ∧ render_scan w' ≠ Locked
  ∧ load_profile (localStorage w')
    = JS.Normal (Some (Doc.of_profile p), Some DASHBOARD).
Proof.
  intros Hsubmit Hsave.
  assert (Hp : isProfileConfigured p = true).
  { unfold submit, handleSubmit, isFormValid in Hsubmit.
    destruct (hasConsented s); rewrite ?andb_true_r, ?andb_false_r in Hsubmit;
      [|discriminate].
    unfold isProfileConfigured.
    destruct (_ && _ && _) eqn:Hvalid in Hsubmit; [|discriminate].
    by injection Hsubmit as <-. }
  unfold handleProfileSave in Hsave.
  destruct (LocalStorage.setItem _ _ _) as [ls'|e] eqn:Hset; [|discriminate].
  injection Hsave as <-. cbn.
  repeat split.
  - unfold render_scan. cbn. rewrite Hp. cbn. by destruct (currentResult w).
  - apply StorageFacts.getItem_setItem in Hset.
    rewrite (LoadFacts.load_profile_saved _ p Hset). do 3 f_equal.
    rewrite LoadFacts.route_of_profile.
    unfold isProfileConfigured in Hp.
    apply andb_true_iff in Hp as [[Ha _]%andb_true_iff Hh]. by rewrite Ha, Hh.
Qed.

Lemma X12_form_save_unlocks_witness :
  submit Scenario.filled = Some Sample.configured
  ∧ render_scan (after (handleProfileSave Sample.configured Scenario.fresh)) ≠ Locked.
Proof.
  assert (Hsubmit : submit Scenario.filled = Some Sample.configured) by reflexivity.
  assert (Hsave : handleProfileSave Sample.configured Scenario.fresh
                  = Done (after (handleProfileSave Sample.configured Scenario.fresh)))
    by (vm_compute; reflexivity).
  split; [exact Hsubmit|].
  exact (proj1 (proj2 (proj2 (proj2
    (X12_form_save_unlocks Scenario.filled Sample.configured Scenario.fresh _
       Hsubmit Hsave))))).
Defined.

End FormFacts.

(* ===================================================================== *)
(** ** AnalysisView.tsx: the search links *)
(* ===================================================================== *)

Module LinkFacts.
Import JSString AnalysisView.

Lemma encode_cons c s :
  encode_bytes (String c s) = encode_char c +:+ encode_bytes s.
Proof. reflexivity. Qed.

Lemma hex_digits_of c :
  unreserved (upper_hex_digit (N_of_ascii c / 16)) = true
  ∧ unreserved (upper_hex_digit (N_of_ascii c mod 16)) = true.
Proof.
  split; apply JSStringFacts.upper_hex_digit_unreserved.
  - pose proof (N_ascii_bounded c). apply N.Div0.div_lt_upper_bound. lia.
  - apply N.mod_lt. lia.
Qed.

(** A character that is neither copied nor the percent sign does not
    occur in an encoded text. *)
Lemma encoded_absent (c : ascii) (s : string) :
  unreserved c = false -> c ≠ "%"%char -> indexOf c (encode_bytes s) = (-1)%Z.
Proof.
  intros Hc Hpercent. induction s as [|x s IH]; [reflexivity|].
  rewrite encode_cons. apply JSStringFacts.indexOf_absent_app; [|exact IH].
  unfold encode_char. destruct (unreserved x) eqn:Hx.
  - cbn [indexOf]. destruct (Ascii.eqb_spec x c) as [->|_]; [congruence | reflexivity].
  - unfold percent_encode. destruct (hex_digits_of x) as [Hhi Hlo]. cbn [indexOf].
    destruct (Ascii.eqb_spec "%" c) as [<-|_]; [done|].
    destruct (Ascii.eqb_spec (upper_hex_digit (N_of_ascii x / 16)) c) as [<-|_];
      [congruence|].
    destruct (Ascii.eqb_spec (upper_hex_digit (N_of_ascii x mod 16)) c) as [<-|_];
      [congruence | reflexivity].
Qed.

(** The link of a name, when there is one. *)
Lemma link_of (keyword url : string) :
  getAmazonSearchUrl keyword = Some url ->
  exists text, utf8_text keyword = Some text
               ∧ encodeURIComponent keyword = Some (encode_bytes text)
               ∧ url = "https://www.amazon.co.jp/s?k=" +:+ encode_bytes text
                       +:+ "&tag=" +:+ AMAZON_TAG.
Proof.
  unfold getAmazonSearchUrl, encodeURIComponent.
  destruct (utf8_text keyword) as [text|]; [|discriminate].
  intros [= <-]. by exists text.
Qed.

(** A string without escaped surrogates is its own UTF-8 form. *)
Lemma utf8_text_plain (s : string) : no_surrogate s = true -> utf8_text s = Some s.
Proof.
  induction s as [|c s IH]; [reflexivity|].
  cbn [no_surrogate utf8_text]. intros [Hc Hs]%andb_true_iff.
  apply negb_true_iff in Hc. rewrite Hc, (IH Hs). reflexivity.
Qed.

(** A name in which a surrogate stands alone has no link: the function
    throws.  Such a name can come from the answer of the model, whose
    text may hold the escape of one surrogate. *)
Example lone_surrogate_no_link :
  JSON.parse (String JSON.dquote (String JSON.backslash "ud83d")
              +:+ String JSON.dquote EmptyString)
  = Some (JSON.JStr (JSON.utf8 55357))
  ∧ getAmazonSearchUrl (JSON.utf8 55357) = None
  ∧ getAmazonSearchUrl ("tea " +:+ JSON.utf8 56832) = None.
Proof. repeat split; vm_compute; reflexivity. Qed.

(** A surrogate pair is encoded as the four bytes of its code point. *)
Example surrogate_pair_link :
  encodeURIComponent (JSON.utf8 55357 +:+ JSON.utf8 56832) = Some "%F0%9F%98%80".
Proof. vm_compute. reflexivity. Qed.

(** X13.  A search link, when the name of the product has one (the
    encoding throws on a name in which a surrogate stands alone), has
    the two query parameters [k] and [tag] and no others: the encoded
    name holds no ampersand, equals sign, question mark, number sign,
    slash, space or plus sign, so that the only ampersand of the link is
    the one before the tag. *)
Theorem X13_search_link_parameters (keyword url : string) :
  getAmazonSearchUrl keyword = Some url ->
  exists encoded,
    encodeURIComponent keyword = Some encoded
    ∧ url = "https://www.amazon.co.jp/s?k=" +:+ encoded +:+ "&tag=" +:+ AMAZON_TAG
    ∧ split "&" url = ["https://www.amazon.co.jp/s?k=" +:+ encoded; "tag=" +:+ AMAZON_TAG]
    ∧ Forall (fun c => indexOf c encoded = (-1)%Z) ["&"; "="; "?"; "#"; "/"; " "; "+"]%char.
Proof.
  intros (text & _ & Henc & ->)%link_of.
  exists (encode_bytes text).
  assert (Hamp : indexOf "&" (encode_bytes text) = (-1)%Z) by (by apply encoded_absent).
  split; [exact Henc|]. split; [reflexivity|]. split.
  - replace ("https://www.amazon.co.jp/s?k=" +:+ encode_bytes text
             +:+ "&tag=" +:+ AMAZON_TAG)
      with (("https://www.amazon.co.jp/s?k=" +:+ encode_bytes text)
            +:+ String "&" ("tag=" +:+ AMAZON_TAG))
      by (by rewrite JSONFacts.append_assoc).
    rewrite JSStringFacts.split_found.
    + reflexivity.
    + by apply JSStringFacts.indexOf_absent_app.
  - repeat (constructor; [by apply encoded_absent|]). constructor.
Qed.

Lemma X13_search_link_parameters_witness :
  getAmazonSearchUrl "tea & honey"
  = Some "https://www.amazon.co.jp/s?k=tea%20%26%20honey&tag=simplemind0f-22"
  ∧ split "&" "https://www.amazon.co.jp/s?k=tea%20%26%20honey&tag=simplemind0f-22"
    = ["https://www.amazon.co.jp/s?k=tea%20%26%20honey"; "tag=simplemind0f-22"].
Proof.
  assert (H : getAmazonSearchUrl "tea & honey"
              = Some "https://www.amazon.co.jp/s?k=tea%20%26%20honey&tag=simplemind0f-22")
    by (vm_compute; reflexivity).
  split; [exact H|].
  destruct (X13_search_link_parameters _ _ H) as (encoded & Henc & _ & Hsplit & _).
  assert (He : encodeURIComponent "tea & honey" = Some "tea%20%26%20honey")
    by (vm_compute; reflexivity).
  rewrite He in Henc. injection Henc as <-. exact Hsplit.
Defined.

Lemma upper_hex_digit_inj m n :
  (m < 16)%N -> (n < 16)%N -> upper_hex_digit m = upper_hex_digit n -> m = n.
Proof.
  intros Hm Hn H. apply (f_equal N_of_ascii) in H. unfold upper_hex_digit in H.
  destruct (N.ltb_spec m 10), (N.ltb_spec n 10);
    rewrite !N_ascii_embedding in H by lia; lia.
Qed.

Lemma percent_encode_inj c d : percent_encode c = percent_encode d -> c = d.
Proof.
  unfold percent_encode. intros [= Hhi Hlo].
  pose proof (N_ascii_bounded c). pose proof (N_ascii_bounded d).
  apply upper_hex_digit_inj in Hhi;
    [|apply N.Div0.div_lt_upper_bound; lia|apply N.Div0.div_lt_upper_bound; lia].
  apply upper_hex_digit_inj in Hlo; [|apply N.mod_lt; lia|apply N.mod_lt; lia].
  rewrite <- (ascii_N_embedding c), <- (ascii_N_embedding d). f_equal.
  rewrite (N.div_mod (N_of_ascii c) 16), (N.div_mod (N_of_ascii d) 16) by lia. lia.
Qed.

(** Two texts with the same encoding are the same text. *)
Lemma encode_bytes_inj s : forall t, encode_bytes s = encode_bytes t -> s = t.
Proof.
  induction s as [|c s IH]; intros [|d t]; rewrite ?encode_cons.
  - done.
  - unfold encode_char, percent_encode. by destruct (unreserved d).
  - unfold encode_char, percent_encode. by destruct (unreserved c).
  - unfold encode_char.
    destruct (unreserved c) eqn:Hc, (unreserved d) eqn:Hd.
    + rewrite !JSONFacts.append_cons. intros [= -> Hrest]. f_equal. by apply IH.
    + unfold percent_encode. rewrite !JSONFacts.append_cons. intros [= -> _].
      discriminate Hc.
    + unfold percent_encode. rewrite !JSONFacts.append_cons. intros [= <- _].
      discriminate Hd.
    + intros Heq.
      assert (Hsplit : percent_encode c = percent_encode d
                       ∧ encode_bytes s = encode_bytes t).
      { unfold percent_encode in *. rewrite !JSONFacts.append_cons in Heq.
        injection Heq as Hhi Hlo Hrest. by rewrite Hhi, Hlo. }
      destruct Hsplit as [Hhead Hrest]. f_equal; [by apply percent_encode_inj | by apply IH].
Qed.

Lemma append_inj_r (a b s : string) : a +:+ s = b +:+ s -> a = b.
Proof.
  revert b. induction a as [|x a IH]; intros [|y b] H.
  - reflexivity.
  - apply (f_equal String.length) in H. rewrite !JSONFacts.length_append in H.
    cbn [String.length] in H. lia.
  - apply (f_equal String.length) in H. rewrite !JSONFacts.length_append in H.
    cbn [String.length] in H. lia.
  - rewrite !JSONFacts.append_cons in H. injection H as -> H. f_equal. by apply IH.
Qed.

Lemma append_inj_l (p a b : string) : p +:+ a = p +:+ b -> a = b.
Proof.
  induction p as [|x p IH]; [done|]. rewrite !JSONFacts.append_cons.
  intros [= H]. by apply IH.
Qed.

(** Two names with the same link have the same UTF-8 form. *)
Lemma same_link_same_text (keyword keyword' url : string) :
  getAmazonSearchUrl keyword = Some url ->
  getAmazonSearchUrl keyword' = Some url ->
  utf8_text keyword = utf8_text keyword'.
Proof.
  intros (text & Htext & _ & ->)%link_of (text' & Htext' & _ & Heq)%link_of.
  apply append_inj_l in Heq. apply append_inj_r in Heq.
  apply encode_bytes_inj in Heq as ->. by rewrite Htext, Htext'.
Qed.

(** The same emoji, once as the pair of escapes of a JSON text and once
    as its four bytes, has one link. *)
Example one_text_one_link :
  getAmazonSearchUrl (JSON.utf8 55357 +:+ JSON.utf8 56832)
  = Some "https://www.amazon.co.jp/s?k=%F0%9F%98%80&tag=simplemind0f-22"
  ∧ getAmazonSearchUrl
      (pair_utf8 (ascii_of_N 160) (ascii_of_N 189) (ascii_of_N 184) (ascii_of_N 128))
    = Some "https://www.amazon.co.jp/s?k=%F0%9F%98%80&tag=simplemind0f-22".
Proof. split; vm_compute; reflexivity. Qed.

(** X14.  Every product name in which no escaped surrogate occurs has a
    search link, and two different such names have different links. *)
Theorem X14_search_link_injective (keyword keyword' : string) :
  no_surrogate keyword = true ->
  no_surrogate keyword' = true ->
  getAmazonSearchUrl keyword
  = Some ("https://www.amazon.co.jp/s?k=" +:+ encode_bytes keyword
          +:+ "&tag=" +:+ AMAZON_TAG)
  ∧ (keyword ≠ keyword' -> getAmazonSearchUrl keyword ≠ getAmazonSearchUrl keyword').
Proof.
  intros Hplain Hplain'.
  assert (Hlink : forall name, no_surrogate name = true ->
                    getAmazonSearchUrl name
                    = Some ("https://www.amazon.co.jp/s?k=" +:+ encode_bytes name
                            +:+ "&tag=" +:+ AMAZON_TAG)).
  { intros name Hname. unfold getAmazonSearchUrl, encodeURIComponent.
    by rewrite (utf8_text_plain name Hname). }
  split; [by apply Hlink|].
  intros Hne Heq. apply Hne.
  rewrite (Hlink keyword Hplain) in Heq.
  pose proof (same_link_same_text keyword keyword' _ (Hlink keyword Hplain)
                (eq_sym Heq)) as Htext.
  rewrite (utf8_text_plain _ Hplain), (utf8_text_plain _ Hplain') in Htext.
  by injection Htext.
Qed.

Lemma X14_search_link_injective_witness :
  getAmazonSearchUrl "a b" ≠ getAmazonSearchUrl "a%20b".
Proof.
  assert (H1 : no_surrogate "a b" = true) by reflexivity.
  assert (H2 : no_surrogate "a%20b" = true) by reflexivity.
  apply (X14_search_link_injective "a b" "a%20b" H1 H2). discriminate.
Defined.

End LinkFacts.

(* ===================================================================== *)
(** ** ImageCapture.tsx: removals and overlapping batches *)
(* ===================================================================== *)

Module CaptureFacts.
Import ImageCapture Capture.

Lemma removeImage_from (index : nat) (l : list string) : forall k,
  snd <$> filter (fun ix => ix.1 ≠ index) (imap (fun i x => (k + i, x)) l)
  = if decide (k <= index) then take (index - k) l ++ drop (S (index - k)) l else l.
Proof.
  induction l as [|x l IH]; intros k.
  - cbn. destruct (decide _); by rewrite ?take_nil, ?drop_nil.
  - rewrite imap_cons.
    rewrite (imap_ext _ (fun i x => (S k + i, x))) by (intros; unfold compose; f_equal; lia).
    rewrite filter_cons. cbn [fst].
    destruct (decide (k + 0 ≠ index)) as [Hne|Heq].
    + rewrite fmap_cons, IH. cbn [snd].
      destruct (decide (S k <= index)), (decide (k <= index)); try lia.
      * replace (index - k) with (S (index - S k)) by lia. reflexivity.
      * reflexivity.
    + rewrite IH.
      destruct (decide (S k <= index)), (decide (k <= index)); try lia.
      replace (index - k) with 0 by lia. reflexivity.
Qed.

(** X15.  [removeImage] takes out the preview at the index and keeps the
    others in their order; an index past the end changes nothing. *)
Theorem X15_removeImage_cuts_one (index : nat) (previews : list string) :
  removeImage index previews = take index previews ++ drop (S index) previews
  ∧ (length previews <= index -> removeImage index previews = previews)
  ∧ (index < length previews ->
     length (removeImage index previews) = length previews - 1).
Proof.
  assert (Heq : removeImage index previews
                = take index previews ++ drop (S index) previews).
  { unfold removeImage. pose proof (removeImage_from index previews 0) as H.
    cbn in H. rewrite H. destruct (decide (0 <= index)); [|lia].
    by rewrite Nat.sub_0_r. }
  split; [exact Heq|]. rewrite Heq. split.
  - intros Hle. rewrite take_ge, drop_ge by lia. apply app_nil_r.
  - intros Hlt. rewrite length_app, length_take, length_drop. lia.
Qed.

Lemma run_app evs evs' c : run (evs ++ evs') c = run evs' (run evs c).
Proof. apply foldl_app. Qed.

Lemma run_cons ev evs c : run (ev :: evs) c = run evs (handle ev c).
Proof. reflexivity. Qed.

Lemma run_nil c : run [] c = c.
Proof. reflexivity. Qed.

Lemma component_eta c :
  c = {| shown := shown c; batches := batches c; selected := selected c |}.
Proof. by destruct c. Qed.

(** The readers of a batch that are not the last to end leave the
    component as it is. *)
Lemma loads_partial b order : forall c batch,
  batches c !! b = Some batch ->
  processedCount batch + length order < length (files batch) ->
  run (LoadEnd b <$> order) c
  = {| shown := shown c;
       batches := <[b := complete order batch]> (batches c);
       selected := selected c |}.
Proof.
  induction order as [|i order IH]; intros c batch Hb Hlt.
  - cbn. rewrite list_insert_id by exact Hb. apply component_eta.
  - rewrite fmap_cons, run_cons. cbn [length] in Hlt.
    assert (Hstep : handle (LoadEnd b i) c
                    = {| shown := shown c;
                         batches := <[b := onloadend i batch]> (batches c);
                         selected := selected c |}).
    { cbn [handle]. rewrite Hb. unfold publication.
      destruct (Nat.eqb_spec (S (processedCount batch)) (length (files batch))); [lia|].
      reflexivity. }
    rewrite Hstep.
    rewrite (IH _ (onloadend i batch)).
    + cbn [shown batches selected]. by rewrite list_insert_insert_eq.
    + cbn [batches]. apply list_lookup_insert_eq. by eapply lookup_lt_Some.
    + rewrite ImageCaptureFacts.onloadend_not_last by lia. cbn. lia.
Qed.

(** The last reader of a batch publishes the previews of the render that
    took the files, followed by what the readers pushed. *)
Lemma loads_complete b order c batch :
  batches c !! b = Some batch ->
  order ≠ [] ->
  processedCount batch + length order = length (files batch) ->
  run (LoadEnd b <$> order) c
  = {| shown := previews batch ++ newPreviews batch ++ decoded (files batch) order;
       batches := <[b := complete order batch]> (batches c);
       selected := (previews batch ++ newPreviews batch ++ decoded (files batch) order)
                   :: selected c |}.
Proof.
  intros Hb Hne Hlen.
  destruct (exists_last Hne) as (order' & i & ->).
  rewrite length_app in Hlen. cbn [length] in Hlen.
  rewrite fmap_app, run_app, fmap_cons, fmap_nil, run_cons, run_nil.
  rewrite (loads_partial b order' c batch Hb) by lia.
  cbn [handle batches shown selected].
  rewrite list_lookup_insert_eq by (by eapply lookup_lt_Some).
  rewrite ImageCaptureFacts.complete_partial by lia.
  unfold publication. cbn [processedCount files].
  destruct (Nat.eqb_spec (S (processedCount batch + length order')) (length (files batch)));
    [|lia].
  rewrite ImageCaptureFacts.onloadend_last by (cbn; lia).
  cbn [head previews newPreviews files].
  unfold complete. rewrite foldl_app. cbn [foldl].
  fold (complete order' batch).
  rewrite ImageCaptureFacts.complete_partial by lia.
  rewrite list_insert_insert_eq.
  unfold decoded. rewrite omap_app. cbn [omap].
  replace (option_list (pushed (files batch) i))
    with (match pushed (files batch) i with Some y => [y] | None => [] end)
    by (by destruct (pushed (files batch) i)).
  rewrite <- !app_assoc. reflexivity.
Qed.

Lemma perm_length (fs : list File) (order : list nat) :
  order ≡ₚ seq 0 (length fs) -> length order = length fs.
Proof. intros H. rewrite (Permutation_length H). apply length_seq. Qed.

Lemma chosen c fs :
  handle (FilesChosen fs) c
  = {| shown := shown c;
       batches := batches c ++ [handleFileChange fs (shown c)];
       selected := selected c |}.
Proof. reflexivity. Qed.

Lemma lookup_new {A} (l : list A) (x : A) : (l ++ [x]) !! length l = Some x.
Proof. by rewrite lookup_app_r, Nat.sub_diag. Qed.

(** X16.  While a reader of a batch is still at work the component shows
    what it showed and the parent is told nothing: the images of a batch
    appear together, when the last of its readers has ended. *)
Theorem X16_no_partial_batch (c : Component) (fs : list File) (order : list nat) :
  length order < length fs ->
  shown (run (FilesChosen fs :: (LoadEnd (length (batches c)) <$> order)) c) = shown c
  ∧ selected (run (FilesChosen fs :: (LoadEnd (length (batches c)) <$> order)) c)
    = selected c.
Proof.
  intros Hlt. rewrite run_cons, chosen.
  rewrite (loads_partial _ order _ (handleFileChange fs (shown c)));
    [done | apply lookup_new | cbn; lia].
Qed.

Lemma X16_no_partial_batch_witness :
  shown (run (FilesChosen [Sample.fileA; Sample.fileB; Sample.fileC]
                :: (LoadEnd 0 <$> [2; 0])) Scenario.one_preview)
  = ["data:P"].
Proof.
  apply (X16_no_partial_batch Scenario.one_preview
           [Sample.fileA; Sample.fileB; Sample.fileC] [2; 0]).
  cbn. lia.
Defined.

(** X17.  A batch publishes the previews of the render in which its files
    were chosen.  A preview removed while the readers of the batch are at
    work is therefore back when the batch is done: the component then
    shows all the old previews and the images of the batch. *)
Theorem X17_removal_undone_by_batch (c : Component) (fs : list File)
    (order1 order2 : list nat) (index : nat) :
  order1 ++ order2 ≡ₚ seq 0 (length fs) ->
  order2 ≠ [] ->
  shown (run (FilesChosen fs :: (LoadEnd (length (batches c)) <$> order1)
                ++ RemoveClicked index :: (LoadEnd (length (batches c)) <$> order2)) c)
  = shown c ++ decoded fs (order1 ++ order2)
  ∧ selected (run (FilesChosen fs :: (LoadEnd (length (batches c)) <$> order1)
                     ++ RemoveClicked index :: (LoadEnd (length (batches c)) <$> order2)) c)
    = (shown c ++ decoded fs (order1 ++ order2))
      :: removeImage index (shown c) :: selected c.
Proof.
  intros Hperm Hne. apply perm_length in Hperm. rewrite length_app in Hperm.
  assert (0 < length order2) by (destruct order2; [done | cbn; lia]).
  rewrite run_cons, chosen, run_app.
  rewrite (loads_partial _ order1 _ (handleFileChange fs (shown c)));
    [| apply lookup_new | cbn; lia].
  rewrite run_cons. cbn [handle shown batches selected].
  rewrite (loads_complete _ order2 _ (complete order1 (handleFileChange fs (shown c))));
    [| cbn [batches]; apply list_lookup_insert_eq; rewrite length_app; cbn; lia
     | exact Hne
     | rewrite ImageCaptureFacts.complete_partial by (cbn; lia); cbn; lia ].
  rewrite ImageCaptureFacts.complete_partial by (cbn; lia).
  cbn [shown selected previews newPreviews files handleFileChange].
  unfold decoded. rewrite omap_app. by rewrite app_nil_l.
Qed.

Lemma X17_removal_undone_by_batch_witness :
  shown (run (FilesChosen [Sample.fileA; Sample.fileB; Sample.fileC]
                :: (LoadEnd 0 <$> [2]) ++ RemoveClicked 0 :: (LoadEnd 0 <$> [0; 1]))
           Scenario.one_preview)
  = ["data:P"; "data:C"; "data:A"; "data:B"].
Proof.
  apply (X17_removal_undone_by_batch Scenario.one_preview
           [Sample.fileA; Sample.fileB; Sample.fileC] [2] [0; 1] 0).
  - exact ImageCaptureFacts.sample_order.
  - discriminate.
Defined.

(** X18.  Of two batches chosen one after the other before either is
    done, the one that is done last wins: both start from the same
    previews, and the images of the batch that was done first are shown
    and then gone. *)
Theorem X18_overlapping_batches (c : Component) (fs1 fs2 : list File)
    (order1 order2 : list nat) :
  fs1 ≠ [] -> fs2 ≠ [] ->
  order1 ≡ₚ seq 0 (length fs1) ->
  order2 ≡ₚ seq 0 (length fs2) ->
  shown (run (FilesChosen fs1 :: FilesChosen fs2
                :: (LoadEnd (length (batches c)) <$> order1)
                ++ (LoadEnd (S (length (batches c))) <$> order2)) c)
  = shown c ++ decoded fs2 order2
  ∧ selected (run (FilesChosen fs1 :: FilesChosen fs2
                     :: (LoadEnd (length (batches c)) <$> order1)
                     ++ (LoadEnd (S (length (batches c))) <$> order2)) c)
    = (shown c ++ decoded fs2 order2) :: (shown c ++ decoded fs1 order1) :: selected c.
Proof.
  intros Hfs1 Hfs2 Hperm1%perm_length Hperm2%perm_length.
  assert (order1 ≠ []) by (intros ->; by destruct fs1).
  assert (order2 ≠ []) by (intros ->; by destruct fs2).
  rewrite !run_cons, !chosen, run_app. cbn [shown batches selected].
  rewrite (loads_complete _ order1 _ (handleFileChange fs1 (shown c)));
    [| cbn [batches]; rewrite lookup_app_l by (rewrite length_app; cbn; lia);
       apply lookup_new
     | done | cbn; lia ].
  rewrite (loads_complete _ order2 _ (handleFileChange fs2 (shown c)));
    [| cbn [batches];
       rewrite list_lookup_insert_ne by lia;
       replace (S (length (batches c)))
         with (length (batches c ++ [handleFileChange fs1 (shown c)]))
         by (rewrite length_app; cbn; lia);
       apply lookup_new
     | done | cbn; lia ].
  cbn [shown selected previews newPreviews files handleFileChange].
  by rewrite !app_nil_l.
Qed.

Lemma X18_overlapping_batches_witness :
  shown (run (FilesChosen [Sample.fileA; Sample.fileB] :: FilesChosen [Sample.fileC]
                :: (LoadEnd 0 <$> [1; 0]) ++ (LoadEnd 1 <$> [0])) Scenario.one_preview)
  = ["data:P"; "data:C"].
Proof.
  apply (X18_overlapping_batches Scenario.one_preview
           [Sample.fileA; Sample.fileB] [Sample.fileC] [1; 0] [0]).
  - discriminate.
  - discriminate.
  - apply perm_swap.
  - reflexivity.
Defined.

(** Files whose read gives nothing push nothing. *)
Lemma decoded_failed (fs : list File) (order : list nat) :
  Forall (fun f => dataURL f = None ∨ dataURL f = Some EmptyString) fs ->
  decoded fs order = [].
Proof.
  intros Hall. induction order as [|i order IH]; [reflexivity|].
  rewrite ImageCaptureFacts.decoded_cons, IH. unfold pushed.
  destruct (fs !! i) as [f|] eqn:Hf; [|reflexivity].
  rewrite Forall_lookup in Hall. cbn [mbind option_bind].
  by destruct (Hall i f Hf) as [-> | ->].
Qed.

(** X25.  A batch all of whose reads fail is still done when its last
    reader has ended: the parent is told once, and what it is told is the
    previews as they were. *)
Theorem X25_failed_reads_publish_nothing_new (c : Component) (fs : list File)
    (order : list nat) :
  fs ≠ [] ->
  order ≡ₚ seq 0 (length fs) ->
  Forall (fun f => dataURL f = None ∨ dataURL f = Some EmptyString) fs ->
  shown (run (FilesChosen fs :: (LoadEnd (length (batches c)) <$> order)) c) = shown c
  ∧ selected (run (FilesChosen fs :: (LoadEnd (length (batches c)) <$> order)) c)
    = shown c :: selected c.
Proof.
  intros Hfs Hperm%perm_length Hfail.
  assert (order ≠ []) by (intros ->; by destruct fs).
  rewrite run_cons, chosen.
  rewrite (loads_complete _ order _ (handleFileChange fs (shown c)));
    [| apply lookup_new | done | cbn; lia ].
  cbn [shown selected previews newPreviews files handleFileChange].
  by rewrite (decoded_failed fs order Hfail), !app_nil_r.
Qed.

Lemma X25_failed_reads_publish_nothing_new_witness :
  selected (run (FilesChosen [Sample.unreadable; Sample.unreadable]
                   :: (LoadEnd 0 <$> [1; 0])) Scenario.one_preview)
  = [["data:P"]].
Proof.
  apply (X25_failed_reads_publish_nothing_new Scenario.one_preview
           [Sample.unreadable; Sample.unreadable] [1; 0]).
  - discriminate.
  - apply perm_swap.
  - repeat constructor.
Defined.

End CaptureFacts.

(* ===================================================================== *)
(** ** The log across sessions, and the calls of the service *)
(* ===================================================================== *)

Module LogFacts.

(** A run of events from a state of the application ends in a state of
    the application. *)
Lemma run_reachable evs : forall w w', reachable w -> run evs w = Some w' -> reachable w'.
Proof.
  induction evs as [|ev evs IH]; intros w w' Hw; cbn [run].
  - by intros [= <-].
  - destruct (step ev w) as [o|] eqn:Hstep; [|discriminate].
    apply IH. by eapply reach_step.
Qed.

Lemma fresh_reachable : reachable Scenario.fresh.
Proof. by apply reach_first. Qed.

Lemma first_session_runs : run Scenario.first_session Scenario.fresh = Some Scenario.used.
Proof. vm_compute. reflexivity. Qed.

Lemma used_reachable : reachable Scenario.used.
Proof. exact (run_reachable _ _ _ fresh_reachable first_session_runs). Qed.

Lemma in_sync_same w w' :
  history w' = history w ->
  LocalStorage.getItem history_key (localStorage w')
  = LocalStorage.getItem history_key (localStorage w) ->
  log_in_sync w -> log_in_sync w'.
Proof. unfold log_in_sync. by intros -> ->. Qed.

(** An event keeps the log and its document in step. *)
Lemma in_sync_step ev w o :
  log_in_sync w -> step ev w = Some o -> log_in_sync (after o).
Proof.
  intros Hsync. unfold step. destruct (offered w ev); [|discriminate].
  intros [= <-]. destruct ev as [p|images| | | | |t|c|i|a s idNow tsNow]; cbn [handle after];
    try exact Hsync.
  - unfold handleProfileSave.
    destruct (LocalStorage.setItem profile_key _ _) as [ls'|e] eqn:Hset; [|exact Hsync].
    apply (in_sync_same w); [reflexivity | | exact Hsync].
    exact (StorageFacts.getItem_setItem_other _ _ _ _ _
             (not_eq_sym SessionFacts.keys_differ) Hset).
  - unfold handleAnalysis. by destruct (selectedImages w).
  - by destruct t.
  - destruct c; [|exact Hsync]. unfold log_in_sync, clearHistory. cbn.
    unfold LocalStorage.getItem, LocalStorage.removeItem. cbn.
    by rewrite lookup_delete_eq.
  - by destruct (history w !! i).
  - destruct s as [r|e]; [|exact Hsync]. cbn [handleAnalysis_resume].
    destruct (isUnclear (imageQualityCheck r)) eqn:Hr.
    + unfold saveToHistory. rewrite Hr.
      apply (in_sync_same w); [reflexivity | reflexivity | exact Hsync].
    + destruct (saveToHistory r (attemptImages a) idNow tsNow (setCurrentResult (Some r) w))
        as [w1|e w1] eqn:Hsave.
      * destruct (HistoryFacts.saveToHistory_returns _ _ _ _ _ _ Hr Hsave) as [_ Hdoc].
        apply (in_sync_same w1); [reflexivity | reflexivity |].
        unfold log_in_sync. destruct Hdoc as [-> | ->]; [by left | by right].
      * rewrite HistoryFacts.saveToHistory_clear in Hsave by exact Hr.
        destruct (history_updater _ _ _) as [[updated ls']|e']; [discriminate|].
        injection Hsave as _ <-.
        apply (in_sync_same w); [reflexivity | reflexivity | exact Hsync].
Qed.

(** With no document of the log, a start leaves the log empty; it makes
    no call and shows no alert. *)
Lemma restart_fresh w w' :
  restart w = Some w' ->
  requests w' = [] ∧ alerts w' = []
  ∧ (LocalStorage.getItem history_key (localStorage w) = None -> history w' = []).
Proof.
  unfold restart, initialize. rewrite LoadFacts.load_history_cases.
  destruct (load_profile (localStorage w)) as [[pv pr]|e]; [|discriminate].
  cbn [mbind JS.completion_bind].
  destruct (doc_state (LocalStorage.getItem history_key (localStorage w))) as [| |v] eqn:Hdoc;
    [|discriminate|]; cbn [mbind JS.completion_bind mret JS.completion_ret];
    unfold apply_loaded; cbn [loadedProfile loadedHistory loadedAppState fst snd].
  - destruct (match pv with Some v => Doc.to_profile v | None => _ end); [|discriminate].
    cbn [mbind option_bind]. by intros [= <-].
  - destruct (match pv with Some v => Doc.to_profile v | None => _ end); [|discriminate].
    cbn [mbind option_bind]. destruct (Doc.to_history v); [|discriminate].
    cbn [mbind option_bind]. intros [= <-].
    repeat split. intros Hnone. rewrite Hnone in Hdoc. discriminate.
Qed.

(** A start puts the log and its document in step. *)
Lemma in_sync_restart w w' :
  invariant w -> restart w = Some w' ->
  log_in_sync w'
  ∧ (log_in_sync w ->
     history w' = history w ∨ history w' = strip_preview <$> history w).
Proof.
  intros Hinv Hrestart.
  destruct (SessionFacts.restart_returns w Hinv) as (w'' & Hr & _ & Hls & Hlog & _).
  assert (w'' = w') as -> by congruence.
  destruct (restart_fresh w w' Hrestart) as (_ & _ & Hnone).
  pose proof Hinv as (_ & _ & Hdoc & _). unfold history_doc_ok in Hdoc.
  unfold log_in_sync. rewrite Hls.
  destruct (LocalStorage.getItem history_key (localStorage w)) as [text|] eqn:Hget.
  - destruct Hdoc as (l & -> & _). rewrite (Hlog l eq_refl). split; [by left|].
    intros [Heq | Heq]; apply SessionFacts.stringify_history_inj in Heq; auto.
  - rewrite (Hnone eq_refl). split; [done|]. intros ->. by left.
Qed.

Lemma reachable_in_sync w : reachable w -> log_in_sync w.
Proof.
  induction 1 as [ls Hp Hh | w ev o Hw IH Hstep | w w' Hw IH Hrestart].
  - unfold log_in_sync. cbn [initial localStorage history]. by rewrite Hh.
  - by apply (in_sync_step ev w).
  - by apply (in_sync_restart w w' (SessionFacts.reachable_invariant w Hw)).
Qed.

(** X19.  A reload loses no entry of the log.  In every state of the
    application the next start succeeds, on the same store, and the log it
    loads is the log of the state, entry for entry, with all its previews
    or, when the store last took the log only without them, with none. *)
Theorem X19_reload_keeps_log (w : World) :
  reachable w ->
  exists w',
    restart w = Some w'
    ∧ localStorage w' = localStorage w
    ∧ (history w' = history w ∨ history w' = strip_preview <$> history w).
Proof.
  intros Hw. pose proof (SessionFacts.reachable_invariant w Hw) as Hinv.
  destruct (SessionFacts.restart_returns w Hinv) as (w' & Hr & _ & Hls & _).
  exists w'. split; [exact Hr|]. split; [exact Hls|].
  by apply (in_sync_restart w w' Hinv Hr), reachable_in_sync.
Qed.

Lemma X19_reload_keeps_log_witness :
  exists w',
    restart Scenario.used = Some w'
    ∧ localStorage w' = localStorage Scenario.used
    ∧ (history w' = history Scenario.used
       ∨ history w' = strip_preview <$> history Scenario.used).
Proof. exact (X19_reload_keeps_log Scenario.used used_reachable). Defined.

(** X20.  Clearing the history, once confirmed, empties the log and
    removes its document, and leaves the document of the profile alone;
    the next start finds no log.  Declined, it changes nothing. *)
Theorem X20_clear_history (w : World) :
  clearHistory false w = w
  ∧ history (clearHistory true w) = []
  ∧ LocalStorage.getItem history_key (localStorage (clearHistory true w)) = None
  ∧ LocalStorage.getItem profile_key (localStorage (clearHistory true w))
    = LocalStorage.getItem profile_key (localStorage w)
  ∧ forall w', restart (clearHistory true w) = Some w' -> history w' = [].
Proof.
  assert (Hnone : LocalStorage.getItem history_key (localStorage (clearHistory true w))
                  = None).
  { unfold clearHistory, LocalStorage.getItem, LocalStorage.removeItem. cbn.
    apply lookup_delete_eq. }
  split; [reflexivity|]. split; [reflexivity|]. split; [exact Hnone|]. split.
  - unfold clearHistory, LocalStorage.getItem, LocalStorage.removeItem. cbn.
    apply lookup_delete_ne. exact SessionFacts.keys_differ.
  - intros w' Hrestart. by apply (restart_fresh _ w' Hrestart).
Qed.

(** X21.  Every call the application has made to the service was made
    with at least one image and with a configured profile. *)
Theorem X21_every_call_is_guarded (w : World) :
  reachable w -> Forall guarded (requests w).
Proof.
  induction 1 as [ls Hp Hh | w ev o Hw IH Hstep | w w' Hw IH Hrestart].
  - constructor.
  - unfold step in Hstep. destruct (offered w ev) eqn:Hoff; [|discriminate].
    injection Hstep as <-. rewrite ScanFacts.handle_requests.
    destruct ev; try exact IH.
    apply ScanFacts.analyze_offered in Hoff as (Hconf & _ & _ & _ & Himages & _).
    unfold handleAnalysis. destruct (selectedImages w) as [|image images] eqn:Hsel; [done|].
    cbn. constructor; [|exact IH]. split; [done | exact Hconf].
  - destruct (restart_fresh w w' Hrestart) as (-> & _). constructor.
Qed.

Lemma X21_every_call_is_guarded_witness :
  requests Scenario.used = [Sample.attempt1] ∧ Forall guarded (requests Scenario.used).
Proof.
  split; [vm_compute; reflexivity|].
  exact (X21_every_call_is_guarded Scenario.used used_reachable).
Defined.

(** X22.  A result opened from the history is shown as a report, on the
    scan tab, and the retry button of the unclear view is not there: the
    log holds no unclear result.  Opening it changes neither the log nor
    the store nor the selection. *)
Theorem X22_history_item_opens_as_report (w : World) (i : nat) (item : ScanHistoryItem) :
  reachable w ->
  history w !! i = Some item ->
  handle (ClickHistoryItem i) w = Done (loadHistoryItem item w)
  ∧ currentResult (loadHistoryItem item w) = Some (result item)
  ∧ activeTab (loadHistoryItem item w) = scan
  ∧ offered (loadHistoryItem item w) ClickRetry = false
  ∧ history (loadHistoryItem item w) = history w
  ∧ localStorage (loadHistoryItem item w) = localStorage w
  ∧ selectedImages (loadHistoryItem item w) = selectedImages w.
Proof.
  intros Hw Hitem.
  destruct (SessionFacts.reachable_invariant w Hw) as (_ & Hclear & _).
  assert (Hr : isUnclear (imageQualityCheck (result item)) = false).
  { unfold all_clear in Hclear. rewrite Forall_lookup in Hclear. exact (Hclear i item Hitem). }
  split; [cbn [handle]; by rewrite Hitem|].
  repeat split.
  unfold offered, render, render_scan. cbn.
  destruct (appState w); [reflexivity|].
  by destruct (isProfileConfigured (userProfile w)).
Qed.

Lemma X22_history_item_opens_as_report_witness :
  exists item,
    history Scenario.used !! 0 = Some item
    ∧ offered (loadHistoryItem item Scenario.used) ClickRetry = false.
Proof.
  exists (newItem Sample.clear_result Sample.S1 5 5).
  assert (Hitem : history Scenario.used !! 0
                  = Some (newItem Sample.clear_result Sample.S1 5 5))
    by (vm_compute; reflexivity).
  split; [exact Hitem|].
  exact (proj1 (proj2 (proj2 (proj2
    (X22_history_item_opens_as_report Scenario.used 0 _ used_reachable Hitem))))).
Defined.

End LogFacts.

(* ===================================================================== *)
(** ** A scan from the click to the log, and a profile the store refuses *)
(* ===================================================================== *)

Module RoundFacts.
Import GeminiService.

(** X23.  A scan the model answers with the text of a clear result: the
    click makes one call, with the profile and the selection of the
    moment; the promise is fulfilled with the result.  When the history
    update returns, the result is on the screen, with the back arrow,
    and it heads the log, with the first selected image as its preview.
    The update fails only when the store refuses both writes, with the
    error of the store. *)
Theorem X23_scan_shows_and_logs (env : Env) (generateContent : Request -> Reply)
    (w : World) (r : AnalysisResult) (idNow tsNow : Z) :
  offered w ClickAnalyze = true ->
  getApiKey env ≠ EmptyString ->
  generateContent (generateContent_request (getApiKey env) (userProfile w) (selectedImages w))
  = Response (Some (JSON.stringify (Doc.of_result r))) ->
  isUnclear (imageQualityCheck r) = false ->
  exists a w1,
    a = {| attemptProfile := userProfile w; attemptImages := selectedImages w |}
    ∧ handleAnalysis w = (w1, Some a)
    ∧ requests w1 = a :: requests w
    ∧ settlement (settled (analyzeHealthImpact env generateContent
                             (attemptProfile a) (attemptImages a)))
      = Some (Fulfilled r)
    ∧ match handleAnalysis_resume a (Fulfilled r) idNow tsNow w1 with
      | Done w' =>
          render w' = Main true (ScanTab (ResultView r))
          ∧ head (history w')
            = Some {| id := JS.number_string idNow; timestamp := tsNow; result := r;
                      imagePreviewUrl := head (selectedImages w) |}
      | Uncaught e _ => e = JS.QuotaExceededError
      end.
Proof.
  intros Hoff Hkey Hreply Hr.
  pose proof (ScanFacts.analyze_offered w Hoff) as (Hconf & Hstate & Htab & _ & Himages & _).
  eexists _, _. split; [reflexivity|].
  assert (Hstart : handleAnalysis w
                   = (request {| attemptProfile := userProfile w;
                                 attemptImages := selectedImages w |}
                        (setCurrentResult None (setIsAnalyzing true w)),
                      Some {| attemptProfile := userProfile w;
                              attemptImages := selectedImages w |})).
  { unfold handleAnalysis. by destruct (selectedImages w). }
  split; [exact Hstart|]. split; [reflexivity|]. split.
  { cbn [attemptProfile attemptImages].
    rewrite (GeminiFacts.result_text_settles env generateContent _ _ r Hkey Hreply).
    cbn [settlement]. by rewrite JSONFacts.to_result_of_result. }
  pose proof (ScanFacts.resume_fulfilled
                (request {| attemptProfile := userProfile w;
                            attemptImages := selectedImages w |}
                   (setCurrentResult None (setIsAnalyzing true w)))
                {| attemptProfile := userProfile w; attemptImages := selectedImages w |}
                r idNow tsNow Hr) as Hresume.
  assert (Hframe : forall o,
            handleAnalysis_resume
              {| attemptProfile := userProfile w; attemptImages := selectedImages w |}
              (Fulfilled r) idNow tsNow
              (request {| attemptProfile := userProfile w;
                          attemptImages := selectedImages w |}
                 (setCurrentResult None (setIsAnalyzing true w))) = o ->
            appState (after o) = appState w ∧ activeTab (after o) = activeTab w
            ∧ userProfile (after o) = userProfile w).
  { intros o <-. cbn [handleAnalysis_resume]. unfold saveToHistory. rewrite Hr.
    by destruct (history_updater _ _ _) as [[updated ls']|e]. }
  destruct (handleAnalysis_resume _ _ _ _ _) as [w'|e w'] eqn:Hres.
  - destruct Hresume as (Hcur & _ & Hhead & _).
    destruct (Hframe _ eq_refl) as (Hs & Ht & Hp). cbn [after] in *.
    split; [|exact Hhead].
    unfold render, render_scan. by rewrite Hs, Hstate, Ht, Htab, Hp, Hconf, Hcur.
  - by destruct Hresume as (He & _).
Qed.

Lemma X23_scan_shows_and_logs_witness :
  exists w',
    handleAnalysis_resume Sample.attempt1 (Fulfilled Sample.clear_result) 5 5
      Sample.first_started = Done w'
    ∧ render w' = Main true (ScanTab (ResultView Sample.clear_result))
    ∧ head (history w') = Some (newItem Sample.clear_result Sample.S1 5 5).
Proof.
  assert (Hoff : offered (Sample.ready Sample.S1 (Sample.store 5000000)) ClickAnalyze = true)
    by (vm_compute; reflexivity).
  assert (Hdone : handleAnalysis_resume Sample.attempt1 (Fulfilled Sample.clear_result) 5 5
                    Sample.first_started
                  = Done (after (handleAnalysis_resume Sample.attempt1
                                   (Fulfilled Sample.clear_result) 5 5
                                   Sample.first_started)))
    by (vm_compute; reflexivity).
  destruct (X23_scan_shows_and_logs Scenario.env
              (Scenario.answers (JSON.stringify (Doc.of_result Sample.clear_result)))
              (Sample.ready Sample.S1 (Sample.store 5000000)) Sample.clear_result 5 5
              Hoff ltac:(discriminate) eq_refl eq_refl)
    as (a & w1 & -> & Hstart & _ & _ & Hshown).
  assert (Hw1 : w1 = Sample.first_started).
  { change (handleAnalysis (Sample.ready Sample.S1 (Sample.store 5000000)))
      with (Sample.first_started, Some Sample.attempt1) in Hstart.
    by injection Hstart as <-. }
  rewrite Hw1 in Hshown.
  change {| attemptProfile := userProfile (Sample.ready Sample.S1 (Sample.store 5000000));
            attemptImages := selectedImages (Sample.ready Sample.S1 (Sample.store 5000000)) |}
    with Sample.attempt1 in Hshown.
  rewrite Hdone in Hshown. destruct Hshown as [Hrender Hhead].
  eexists. split; [exact Hdone|]. split; [exact Hrender | exact Hhead].
Defined.

(** X24.  A profile the store has no room for is kept for the session
    only: the handler throws the error of the store, the screen and the
    tab stay, the store and the log are as they were, and the next start
    is the one that would have followed had the save not been tried. *)
Theorem X24_profile_save_refused (p : UserProfile) (w w1 : World) (e : JS.exn) :
  handleProfileSave p w = Uncaught e w1 ->
  e = JS.QuotaExceededError
  ∧ userProfile w1 = p
  ∧ appState w1 = appState w ∧ activeTab w1 = activeTab w
  ∧ localStorage w1 = localStorage w ∧ history w1 = history w
  ∧ restart w1 = restart w.
Proof.
  unfold handleProfileSave.
  destruct (LocalStorage.setItem profile_key _ _) as [ls'|e'] eqn:Hset; [discriminate|].
  intros [= <- <-]. apply StorageFacts.setItem_throws in Hset as ->.
  by repeat split.
Qed.

Lemma X24_profile_save_refused_witness :
  userProfile (after (handleProfileSave Sample.configured (initial (Sample.store 10))))
  = Sample.configured
  ∧ appState (after (handleProfileSave Sample.configured (initial (Sample.store 10))))
    = ONBOARDING.
Proof.
  assert (Hsave : handleProfileSave Sample.configured (initial (Sample.store 10))
                  = Uncaught JS.QuotaExceededError
                      (after (handleProfileSave Sample.configured
                                (initial (Sample.store 10)))))
    by (vm_compute; reflexivity).
  destruct (X24_profile_save_refused _ _ _ _ Hsave) as (_ & Hp & Hs & _).
  split; [exact Hp | exact Hs].
Defined.

(** X26.  A result that arrives while the history or the settings are
    open becomes, where the history update returns, the current result,
    but it is not on the screen: the tab stays.  The scan button of the
    navigation bar, which leads back to the scan tab, resets the scan on
    its way, so that the result is not shown then either; the log is
    not touched by the button. *)
Theorem X26_result_behind_another_tab (w w1 : World) (a : Attempt) (r : AnalysisResult)
    (idNow tsNow : Z) :
  appState w = DASHBOARD ->
  activeTab w ≠ scan ->
  handleAnalysis_resume a (Fulfilled r) idNow tsNow w = Done w1 ->
  currentResult w1 = Some r
  ∧ activeTab w1 = activeTab w
  ∧ (exists pane, render w1 = Main false pane ∧ forall p, pane ≠ ScanTab p)
  ∧ step (ClickTab scan) w1 = Some (Done (setActiveTab scan (resetScan w1)))
  ∧ currentResult (setActiveTab scan (resetScan w1)) = None
  ∧ selectedImages (setActiveTab scan (resetScan w1)) = []
  ∧ history (setActiveTab scan (resetScan w1)) = history w1
  ∧ forall pane, render (setActiveTab scan (resetScan w1)) = Main false (ScanTab pane) ->
                 forall r', pane ≠ ResultView r'.
Proof.
  intros Hstate Htab Hdone.
  assert (Hframe : appState w1 = appState w ∧ activeTab w1 = activeTab w
                   ∧ currentResult w1 = Some r).
  { cbn [handleAnalysis_resume] in Hdone. unfold saveToHistory in Hdone.
    destruct (isUnclear (imageQualityCheck r)); [by injection Hdone as <-|].
    destruct (history_updater _ _ _) as [[updated ls']|e]; [|discriminate].
    by injection Hdone as <-. }
  destruct Hframe as (Hs & Ht & Hr).
  split; [exact Hr|]. split; [exact Ht|]. split; [|split; [|split; [|split; [|split]]]].
  - unfold render. rewrite Hs, Hstate, Ht.
    destruct (activeTab w); [done| |]; eexists; (split; [reflexivity | done]).
  - unfold step, offered, render. rewrite Hs, Hstate. by destruct (activeTab w1).
  - reflexivity.
  - reflexivity.
  - reflexivity.
  - intros pane Hrender r' ->. unfold render, render_scan in Hrender.
    cbn [appState activeTab currentResult setActiveTab resetScan setSelectedImages
           setCurrentResult userProfile selectedImages isAnalyzing] in Hrender.
    rewrite Hs, Hstate in Hrender.
    destruct (negb (isProfileConfigured (userProfile w1))); discriminate.
Qed.

Lemma X26_result_behind_another_tab_witness :
  handleAnalysis_resume Sample.attempt1 (Fulfilled Sample.clear_result) 7 7 Scenario.used
  = Done (after (handleAnalysis_resume Sample.attempt1 (Fulfilled Sample.clear_result)
                   7 7 Scenario.used))
  ∧ currentResult (after (handleAnalysis_resume Sample.attempt1
                            (Fulfilled Sample.clear_result) 7 7 Scenario.used))
    = Some Sample.clear_result
  ∧ activeTab (after (handleAnalysis_resume Sample.attempt1
                        (Fulfilled Sample.clear_result) 7 7 Scenario.used))
    = activeTab Scenario.used.
Proof.
  assert (Hstate : appState Scenario.used = DASHBOARD) by (vm_compute; reflexivity).
  assert (Htab : activeTab Scenario.used ≠ scan) by (vm_compute; discriminate).
  assert (Hdone : handleAnalysis_resume Sample.attempt1 (Fulfilled Sample.clear_result)
                    7 7 Scenario.used
                  = Done (after (handleAnalysis_resume Sample.attempt1
                                   (Fulfilled Sample.clear_result) 7 7 Scenario.used)))
    by (vm_compute; reflexivity).
  destruct (X26_result_behind_another_tab _ _ Sample.attempt1 Sample.clear_result
              7 7 Hstate Htab Hdone) as (Hcur & Hsame & _).
  split; [exact Hdone|]. split; [exact Hcur | exact Hsame].
Defined.

End RoundFacts.
